(** * assistant_bot: the meeting query core of [bot.py]

    A shallow embedding of the date resolver and record lookup of the
    meeting assistant ([smart_get_meetings], [get_meetings],
    [find_meeting_by_query], [update_meeting_summary], and the route and
    update branches of [handle_text]), followed by the properties its
    design specification states about them.

    Conventions of the embedding.
    - A Python [str] is the list of its Unicode code points ([Z]).
    - A raised exception is an explicit [Raise] result.
    - The SQLite table [meetings] is the list of its rows in rowid order;
      functions that touch it pass the table explicitly.
    - [datetime.now(timezone.utc)] is an argument [now]. *)

From Stdlib Require Import ZArith List Bool Lia.
From Stdlib Require String Ascii.
Import String.StringSyntax.
Delimit Scope string_scope with string.
From Stdlib Require Import Sorting.Sorted Sorting.Permutation.
Import ListNotations.

Local Open Scope Z_scope.

Set Implicit Arguments.

(** ** Strings *)

Abbreviation str := (list Z).

(** Source text in this file is written as UTF-8 literals and decoded to code
    points by [text]. *)
Fixpoint bytes_of (s : String.string) : list Z :=
  match s with
  | String.EmptyString => []
  | String.String a s' => Z.of_N (Ascii.N_of_ascii a) :: bytes_of s'
  end.

Fixpoint utf8_decode (bs : list Z) : str :=
  match bs with
  | [] => []
  | b0 :: r0 =>
    if b0 <? 128 then b0 :: utf8_decode r0
    else
      match r0 with
      | [] => []
      | b1 :: r1 =>
        if b0 <? 224 then ((b0 - 192) * 64 + (b1 - 128)) :: utf8_decode r1
        else
          match r1 with
          | [] => []
          | b2 :: r2 =>
            if b0 <? 240
            then ((b0 - 224) * 4096 + (b1 - 128) * 64 + (b2 - 128)) :: utf8_decode r2
            else
              match r2 with
              | [] => []
              | b3 :: r3 =>
                ((b0 - 240) * 262144 + (b1 - 128) * 4096 + (b2 - 128) * 64 + (b3 - 128))
                  :: utf8_decode r3
              end
          end
      end
  end.

Definition text (s : String.string) : str := utf8_decode (bytes_of s).
Arguments text s%_string_scope.

Definition str_eqb (a b : str) : bool :=
  if list_eq_dec Z.eq_dec a b then true else false.

(** [s.startswith(p)] *)
Fixpoint startswith (p s : str) : bool :=
  match p, s with
  | [], _ => true
  | _ :: _, [] => false
  | a :: p', b :: s' => (a =? b) && startswith p' s'
  end.

(** [needle in hay] *)
Fixpoint contains (needle hay : str) : bool :=
  startswith needle hay
  || match hay with
     | [] => false
     | _ :: hay' => contains needle hay'
     end.

(** [Py_UNICODE_ISSPACE]: the characters [str.strip()] removes and the
    pattern [\s] matches. *)
Definition isspace (c : Z) : bool :=
  ((9 <=? c) && (c <=? 13))
  || ((28 <=? c) && (c <=? 32))
  || (c =? 133) || (c =? 160) || (c =? 5760)
  || ((8192 <=? c) && (c <=? 8202))
  || (c =? 8232) || (c =? 8233) || (c =? 8239) || (c =? 8287) || (c =? 12288).

Fixpoint lstrip (s : str) : str :=
  match s with
  | c :: s' => if isspace c then lstrip s' else s
  | [] => []
  end.

Definition rstrip (s : str) : str := rev (lstrip (rev s)).

(** [s.strip()] *)
Definition strip (s : str) : str := rstrip (lstrip s).

(** Truth value of an optional string: [None] and [''] are false. *)
Definition truthy (o : option str) : bool :=
  match o with
  | Some (_ :: _) => true
  | _ => false
  end.

(** ** Dates *)

(** The fields of a [datetime] the program reads.  Microseconds and the
    (always UTC) time zone are never read and are left out. *)
Record datetime := mkdt {
  year : Z; month : Z; day : Z;
  hour : Z; minute : Z; second : Z
}.

Inductive exn := ValueError | OverflowError | TypeError.

Inductive result (A : Type) :=
| Ok (a : A)
| Raise (e : exn).
Arguments Ok {A} a.
Arguments Raise {A} e.

Definition bind {A B} (m : result A) (f : A -> result B) : result B :=
  match m with
  | Ok a => f a
  | Raise e => Raise e
  end.

Notation "x <- m ;; k" := (bind m (fun x => k))
  (at level 61, m at next level, right associativity).

Definition MINYEAR := 1.
Definition MAXYEAR := 9999.

Definition is_leap (y : Z) : bool :=
  (y mod 4 =? 0) && (negb (y mod 100 =? 0) || (y mod 400 =? 0)).

Definition days_in_month (y m : Z) : Z :=
  if m =? 2 then (if is_leap y then 29 else 28)
  else if (m =? 4) || (m =? 6) || (m =? 9) || (m =? 11) then 30
  else 31.

Definition valid_ymd (y m d : Z) : bool :=
  (MINYEAR <=? y) && (y <=? MAXYEAR)
  && (1 <=? m) && (m <=? 12)
  && (1 <=? d) && (d <=? days_in_month y m).

(** [datetime(year, month, day, tzinfo=timezone.utc)] *)
Definition datetime_new (y m d : Z) : result datetime :=
  if valid_ymd y m d then Ok (mkdt y m d 0 0 0) else Raise ValueError.

Definition valid_datetime (t : datetime) : bool :=
  valid_ymd (year t) (month t) (day t)
  && (0 <=? hour t) && (hour t <=? 23)
  && (0 <=? minute t) && (minute t <=? 59)
  && (0 <=? second t) && (second t <=? 59).

(** The proleptic Gregorian ordinal of a date ([date.toordinal()]):
    1 for 0001-01-01. *)
Definition days_before_year (y : Z) : Z :=
  let p := y - 1 in p * 365 + p / 4 - p / 100 + p / 400.

Definition days_before_month (y m : Z) : Z :=
  nth (Z.to_nat m) [0; 0; 31; 59; 90; 120; 151; 181; 212; 243; 273; 304; 334] 0
  + (if (2 <? m) && is_leap y then 1 else 0).

Definition toordinal (t : datetime) : Z :=
  days_before_year (year t) + days_before_month (year t) (month t) + day t.

(** Seconds from 0001-01-01T00:00:00 to the instant [t]. *)
Definition timestamp (t : datetime) : Z :=
  (toordinal t - 1) * 86400 + hour t * 3600 + minute t * 60 + second t.

(** The same time of day on the following calendar day. *)
Definition next_day (t : datetime) : datetime :=
  if day t <? days_in_month (year t) (month t)
  then mkdt (year t) (month t) (day t + 1) (hour t) (minute t) (second t)
  else if month t <? 12
  then mkdt (year t) (month t + 1) 1 (hour t) (minute t) (second t)
  else mkdt (year t + 1) 1 1 (hour t) (minute t) (second t).

(** [t + timedelta(days=n)]; Python raises [OverflowError] when the result is
    later than year 9999. *)
Fixpoint add_days (t : datetime) (n : nat) : result datetime :=
  match n with
  | O => Ok t
  | S n' =>
    let t' := next_day t in
    if year t' <=? MAXYEAR then add_days t' n' else Raise OverflowError
  end.

Definition digit (n : Z) : Z := 48 + n mod 10.

Definition fmt2 (n : Z) : str := [digit (n / 10); digit n].
Definition fmt4 (n : Z) : str :=
  [digit (n / 1000); digit (n / 100); digit (n / 10); digit n].

(** [t.strftime("%Y-%m-%dT00:00:00")], with the year printed on four digits
    (as every C library does for years from 1000 on). *)
Definition strftime_midnight (t : datetime) : str :=
  fmt4 (year t) ++ text "-" ++ fmt2 (month t) ++ text "-" ++ fmt2 (day t)
  ++ text "T00:00:00".

(** The instant the stamp written by [strftime_midnight] denotes. *)
Definition midnight (t : datetime) : datetime :=
  mkdt (year t) (month t) (day t) 0 0 0.

(** ** What the program takes from the Python runtime

    The Unicode tables behind [str.lower()], [\d] and [int()], and the ISO
    parser, are parameters of the development. *)
Class Python := {
  (** [s.lower()] *)
  str_lower : str -> str;
  (** [Py_UNICODE_TODECIMAL]: the value of a decimal digit character *)
  unicode_decimal : Z -> option Z;
  (** [datetime.fromisoformat(s)]; [None] stands for [ValueError] *)
  fromisoformat : str -> option datetime
}.

Section Program.
Context {py : Python}.

(** [int(s)] on a string of decimal digit characters. *)
Definition int_of (s : str) : result Z :=
  match s with
  | [] => Raise ValueError
  | _ =>
    fold_left
      (fun acc c =>
         n <- acc ;;
         match unicode_decimal c with
         | Some d => Ok (n * 10 + d)
         | None => Raise ValueError
         end)
      s (Ok 0)
  end.

(** ** Regular expressions

    The fragment of [re] that the three patterns of [smart_get_meetings] are
    written in, and a backtracking matcher that tries alternatives left to
    right and repetitions longest first, as [re] does. *)

Inductive cclass := Digit (* \d *) | Space (* \s *).

Definition in_class (c : cclass) (x : Z) : bool :=
  match c with
  | Digit => match unicode_decimal x with Some _ => true | None => false end
  | Space => isspace x
  end.

Inductive regex :=
| Lit (s : str)                        (* literal characters *)
| Rep (c : cclass) (lo hi : nat)       (* c{lo,hi} *)
| Star (c : cclass)                    (* c* *)
| Seq (r1 r2 : regex)                  (* r1r2 *)
| Alt (r1 r2 : regex)                  (* r1|r2 *)
| Group (n : nat) (r : regex).         (* capturing group number n *)

Fixpoint alts (r : regex) (rs : list regex) : regex :=
  match rs with
  | [] => r
  | r' :: rs' => Alt r (alts r' rs')
  end.

Definition captures := list (nat * str).

(** The part of [s] in front of its suffix [rest]. *)
Definition consumed (s rest : str) : str :=
  firstn (length s - length rest) s.

Definition kont := str -> captures -> option (str * captures).

Fixpoint skip_prefix (p s : str) : option str :=
  match p, s with
  | [], _ => Some s
  | _ :: _, [] => None
  | a :: p', b :: s' => if a =? b then skip_prefix p' s' else None
  end.

Fixpoint exec_rep (c : cclass) (lo hi : nat) (s : str) (caps : captures)
  (k : kont) : option (str * captures) :=
  let stop := match lo with O => k s caps | S _ => None end in
  match hi with
  | O => stop
  | S hi' =>
    match s with
    | x :: s' =>
      if in_class c x then
        match exec_rep c (pred lo) hi' s' caps k with
        | Some res => Some res
        | None => stop
        end
      else stop
    | [] => stop
    end
  end.

Fixpoint exec_star (c : cclass) (s : str) (caps : captures) (k : kont)
  : option (str * captures) :=
  match s with
  | x :: s' =>
    if in_class c x then
      match exec_star c s' caps k with
      | Some res => Some res
      | None => k s caps
      end
    else k s caps
  | [] => k s caps
  end.

Fixpoint exec (r : regex) (s : str) (caps : captures) (k : kont)
  : option (str * captures) :=
  match r with
  | Lit l =>
    match skip_prefix l s with
    | Some s' => k s' caps
    | None => None
    end
  | Rep c lo hi => exec_rep c lo hi s caps k
  | Star c => exec_star c s caps k
  | Seq r1 r2 => exec r1 s caps (fun s' caps' => exec r2 s' caps' k)
  | Alt r1 r2 =>
    match exec r1 s caps k with
    | Some res => Some res
    | None => exec r2 s caps k
    end
  | Group n r =>
    exec r s caps (fun s' caps' => k s' ((n, consumed s s') :: caps'))
  end.

(** A match object: the text before the match, the matched text, the text
    after it, and the groups. *)
Record re_match := mkmatch {
  m_before : str; m_text : str; m_after : str; m_groups : captures
}.

(** [re.match]: a match anchored at the start of [s]. *)
Definition match_here (r : regex) (s : str) : option re_match :=
  match exec r s [] (fun rest caps => Some (rest, caps)) with
  | Some (rest, caps) => Some (mkmatch [] (consumed s rest) rest caps)
  | None => None
  end.

(** [re.search(r, s)]: the match at the leftmost position that has one. *)
Fixpoint re_search (r : regex) (s : str) : option re_match :=
  match match_here r s with
  | Some m => Some m
  | None =>
    match s with
    | [] => None
    | c :: s' =>
      match re_search r s' with
      | Some m => Some (mkmatch (c :: m_before m) (m_text m) (m_after m) (m_groups m))
      | None => None
      end
    end
  end.

(** [m.group(n)] *)
Fixpoint assoc_nat (n : nat) (l : captures) : option str :=
  match l with
  | [] => None
  | (n', v) :: l' => if Nat.eqb n n' then Some v else assoc_nat n l'
  end.

Definition group (m : re_match) (n : nat) : option str :=
  assoc_nat n (m_groups m).

(** [int(m.group(n))]; a group that took no part in the match is [None],
    which [int] rejects. *)
Definition int_group (m : re_match) (n : nat) : result Z :=
  match group m n with
  | Some g => int_of g
  | None => Raise TypeError
  end.

(** [re.sub(r, '', s, count=1)] *)
Definition re_sub_once (r : regex) (s : str) : str :=
  match re_search r s with
  | Some m => m_before m ++ m_after m
  | None => s
  end.

(** ** The month table and the three patterns *)

Definition month_names : list (list str) :=
  [ [text "январь"; text "января"]; [text "февраль"; text "февраля"];
    [text "март"; text "марта"]; [text "апрель"; text "апреля"];
    [text "май"; text "мая"]; [text "июнь"; text "июня"];
    [text "июль"; text "июля"]; [text "август"; text "августа"];
    [text "сентябрь"; text "сентября"]; [text "октябрь"; text "октября"];
    [text "ноябрь"; text "ноября"]; [text "декабрь"; text "декабря"] ].

Fixpoint enumerate {A} (start : Z) (l : list A) : list (Z * A) :=
  match l with
  | [] => []
  | x :: l' => (start, x) :: enumerate (start + 1) l'
  end.

Definition RU_MONTHS : list (str * Z) :=
  flat_map (fun im => map (fun m => (m, fst im)) (snd im))
           (enumerate 1 month_names).

(** [d.get(k, default)] *)
Fixpoint dict_get (d : list (str * Z)) (k : str) (default : Z) : Z :=
  match d with
  | [] => default
  | (k', v) :: d' => if str_eqb k k' then v else dict_get d' k default
  end.

Definition kw_tomorrow : str := text "завтра".
Definition kw_today : str := text "сегодня".
Definition kw_day_after : str := text "послезавтра".

(** [января|февраля|...|декабря] *)
Definition month_alt : regex :=
  alts (Lit (text "января"))
       (map Lit [text "февраля"; text "марта"; text "апреля"; text "мая";
                 text "июня"; text "июля"; text "августа"; text "сентября";
                 text "октября"; text "ноября"; text "декабря"]).

(** [(\d{1,2})\s*(января|...|декабря)] *)
Definition date_re : regex :=
  Seq (Group 1 (Rep Digit 1 2)) (Seq (Star Space) (Group 2 month_alt)).

(** [(\d{1,2})\.(\d{1,2})] *)
Definition num_date_re : regex :=
  Seq (Group 1 (Rep Digit 1 2)) (Seq (Lit (text ".")) (Group 2 (Rep Digit 1 2))).

(** [(завтра|сегодня|послезавтра|\d{1,2}\s*(?:января|...)|\d{1,2}\.\d{1,2})] *)
Definition strip_re : regex :=
  Group 1
    (alts (Lit kw_tomorrow)
          [ Lit kw_today; Lit kw_day_after;
            Seq (Rep Digit 1 2) (Seq (Star Space) month_alt);
            Seq (Rep Digit 1 2) (Seq (Lit (text ".")) (Rep Digit 1 2)) ]).

(** ** The meetings table *)

Record meeting := mkmeeting {
  id : Z;
  user_id : Z;
  summary : str;
  start_time : str;
  duration_minutes : Z;
  location : option str
}.

Definition table := list meeting.

(** A fetched row of [SELECT summary, start_time, duration_minutes, location]. *)
Definition fetched : Type := str * str * Z * option str.

Definition select (r : meeting) : fetched :=
  (summary r, start_time r, duration_minutes r, location r).

Definition fetched_summary (f : fetched) : str := fst (fst (fst f)).
Definition fetched_start (f : fetched) : str := snd (fst (fst f)).

(** Comparison of [TEXT] values under SQLite's default [BINARY] collation:
    lexicographic on code points. *)
Fixpoint str_leb (a b : str) : bool :=
  match a, b with
  | [], _ => true
  | _ :: _, [] => false
  | x :: a', y :: b' =>
    if x <? y then true else if x =? y then str_leb a' b' else false
  end.

(** SQLite's built-in [LIKE].  The function reads its two operands as
    zero-terminated strings ([sqlite3_value_text]), so what follows a
    U+0000 character in the pattern or in the value takes no part in the
    comparison. *)
Fixpoint c_string (s : str) : str :=
  match s with
  | [] => []
  | c :: s' => if c =? 0 then [] else c :: c_string s'
  end.

Definition ascii_lower (c : Z) : Z :=
  if (65 <=? c) && (c <=? 90) then c + 32 else c.

Definition like_char_eq (c d : Z) : bool :=
  (c =? d) || ((c <? 128) && (d <? 128) && (ascii_lower c =? ascii_lower d)).

Definition PERCENT := 37.
Definition UNDERSCORE := 95.

(** [patternCompare] of SQLite's [func.c] for [LIKE] without [ESCAPE]: [%]
    matches any run of characters, [_] any one character, and letters are
    compared without case only when both are ASCII. *)
Fixpoint pattern_compare (pat s : str) : bool :=
  match pat with
  | [] => match s with [] => true | _ :: _ => false end
  | c :: pat' =>
    if c =? PERCENT then
      (fix any (s : str) : bool :=
         pattern_compare pat' s
         || match s with
            | [] => false
            | _ :: s' => any s'
            end) s
    else
      match s with
      | [] => false
      | d :: s' => ((c =? UNDERSCORE) || like_char_eq c d) && pattern_compare pat' s'
      end
  end.

(** [s LIKE pat].  (A pattern of more than 50000 bytes is refused by SQLite;
    the texts of a request come from a classifier reply of at most 300
    tokens.) *)
Definition like (pat s : str) : bool :=
  pattern_compare (c_string pat) (c_string s).


(** [column LIKE '%query%']; on a [NULL] column the comparison is not true. *)
Definition like_query (query : str) (column : option str) : bool :=
  match column with
  | Some v => like ([PERCENT] ++ query ++ [PERCENT]) v
  | None => false
  end.

(** [summary LIKE ? OR location LIKE ?] *)
Definition matches_query (query : str) (r : meeting) : bool :=
  like_query query (Some (summary r)) || like_query query (location r).

(** [ORDER BY]: a stable insertion sort.  SQL leaves the order of rows with
    equal keys open; here they keep their rowid order. *)
Fixpoint insert_by (le : meeting -> meeting -> bool) (x : meeting)
  (l : list meeting) : list meeting :=
  match l with
  | [] => [x]
  | y :: l' => if le x y then x :: l else y :: insert_by le x l'
  end.

Definition order_by (le : meeting -> meeting -> bool) (l : list meeting)
  : list meeting :=
  fold_right (insert_by le) [] l.

Definition by_start_asc (a b : meeting) : bool :=
  str_leb (start_time a) (start_time b).
Definition by_start_desc (a b : meeting) : bool :=
  str_leb (start_time b) (start_time a).

(** The [WHERE] clause [get_meetings] builds, condition by condition. *)

(** [if time_min: " AND start_time >= ?"] *)
Definition where_time_min (time_min : option str) (r : meeting) : bool :=
  match time_min with
  | Some ((_ :: _) as t) => str_leb t (start_time r)
  | _ => true
  end.

(** [if time_max: " AND start_time < ?"] *)
Definition where_time_max (time_max : option str) (r : meeting) : bool :=
  match time_max with
  | Some ((_ :: _) as t) => negb (str_leb t (start_time r))
  | _ => true
  end.

(** [if query: " AND (summary LIKE ? OR location LIKE ?)"] *)
Definition where_query (query : option str) (r : meeting) : bool :=
  match query with
  | Some ((_ :: _) as q) => matches_query q r
  | _ => true
  end.

Definition get_meetings_where (uid : Z) (time_min time_max query : option str)
  (r : meeting) : bool :=
  (user_id r =? uid)
  && where_time_min time_min r
  && where_time_max time_max r
  && where_query query r.

Definition get_meetings (db : table) (uid : Z)
  (time_min time_max query : option str) : list fetched :=
  map select
      (order_by by_start_asc
                (filter (get_meetings_where uid time_min time_max query) db)).

Definition ADDRESS_MISSING : str := text "Адрес не указан".

(** The dictionary built for a meeting that is looked up for a route. *)
Record event := mkevent {
  ev_summary : str;
  ev_location : str;
  ev_start : datetime
}.

(** [x or ADDRESS_MISSING] *)
Definition location_or_missing (loc : option str) : str :=
  match loc with
  | Some ((_ :: _) as l) => l
  | _ => ADDRESS_MISSING
  end.

Definition make_event (summ : str) (loc : option str) (st : str) : result event :=
  match fromisoformat st with
  | Some t => Ok (mkevent summ (location_or_missing loc) t)
  | None => Raise ValueError
  end.

(** The rows [find_meeting_by_query] selects from, before [LIMIT 1]. *)
Definition find_candidates (db : table) (uid : Z) (query : str) : list meeting :=
  order_by by_start_desc
           (filter (fun r => (user_id r =? uid) && matches_query query r) db).

Definition find_meeting_by_query (db : table) (uid : Z) (query : str)
  : result (option event) :=
  match find_candidates db uid query with
  | r :: _ =>
    e <- make_event (summary r) (location r) (start_time r) ;; Ok (Some e)
  | [] => Ok None
  end.

Definition natural_key (uid : Z) (summ st : str) (r : meeting) : bool :=
  (user_id r =? uid) && str_eqb (summary r) summ && str_eqb (start_time r) st.

(** [UPDATE meetings SET location = ? WHERE user_id = ? AND summary = ? AND
    start_time = ?] *)
Definition update_meeting_location (db : table) (uid : Z) (summ st new_location : str)
  : table :=
  map (fun r =>
         if natural_key uid summ st r
         then mkmeeting (id r) (user_id r) (summary r) (start_time r)
                        (duration_minutes r) (Some new_location)
         else r) db.

(** [UPDATE meetings SET summary = ? WHERE user_id = ? AND summary = ? AND
    start_time = ?] *)
Definition update_summary_stmt (db : table) (uid : Z) (summ st new_summary : str)
  : table :=
  map (fun r =>
         if natural_key uid summ st r
         then mkmeeting (id r) (user_id r) new_summary (start_time r)
                        (duration_minutes r) (location r)
         else r) db.

(** ** [smart_get_meetings] *)

(** The keyword chain of lines 132-137. *)
Definition relative_day (now : datetime) (lower_query : str)
  : result (option datetime) :=
  if contains kw_tomorrow lower_query then
    t <- add_days now 1 ;; Ok (Some t)
  else if contains kw_today lower_query then
    Ok (Some now)
  else if contains kw_day_after lower_query then
    t <- add_days now 2 ;; Ok (Some t)
  else Ok None.

(** [year = now.year if month >= now.month else now.year + 1] *)
Definition infer_year (now : datetime) (m : Z) : Z :=
  if month now <=? m then year now else year now + 1.

(** Lines 139-145: a day number followed by a month name. *)
Definition named_month (now : datetime) (lower_query : str)
  (target_date : option datetime) : result (option datetime) :=
  match re_search date_re lower_query, target_date with
  | Some date_match, None =>
    d <- int_group date_match 1 ;;
    let m := match group date_match 2 with
             | Some month_str => dict_get RU_MONTHS month_str (month now)
             | None => month now
             end in
    t <- datetime_new (infer_year now m) m d ;;
    Ok (Some t)
  | _, _ => Ok target_date
  end.

(** Lines 147-155: [D.M]; an impossible date is dropped. *)
Definition numeric_date (now : datetime) (lower_query : str)
  (target_date : option datetime) : result (option datetime) :=
  match re_search num_date_re lower_query, target_date with
  | Some num_date_match, None =>
    d <- int_group num_date_match 1 ;;
    m <- int_group num_date_match 2 ;;
    match datetime_new (infer_year now m) m d with
    | Ok t => Ok (Some t)
    | Raise ValueError => Ok None
    | Raise e => Raise e
    end
  | _, _ => Ok target_date
  end.

(** The value of [target_date] when line 157 is reached. *)
Definition resolve_date (now : datetime) (lower_query : str)
  : result (option datetime) :=
  t1 <- relative_day now lower_query ;;
  t2 <- named_month now lower_query t1 ;;
  numeric_date now lower_query t2.

(** [if not query: query = None] *)
Definition none_if_empty (s : str) : option str :=
  match s with
  | [] => None
  | _ :: _ => Some s
  end.

(** Lines 160-162: the query text that is left. *)
Definition residual (lower_query : str) : option str :=
  none_if_empty (strip (re_sub_once strip_re lower_query)).

(** The arguments of the final [get_meetings] call. *)
Record filter_args := mkargs {
  arg_time_min : option str;
  arg_time_max : option str;
  arg_query : option str
}.

Definition smart_filter (now : datetime) (query time_min time_max : option str)
  : result filter_args :=
  match query with
  | Some ((_ :: _) as q) =>
    let lower_query := str_lower q in
    target_date <- resolve_date now lower_query ;;
    match target_date with
    | Some t =>
      t' <- add_days t 1 ;;
      Ok (mkargs (Some (strftime_midnight t)) (Some (strftime_midnight t'))
                 (residual lower_query))
    | None => Ok (mkargs time_min time_max query)
    end
  | _ => Ok (mkargs time_min time_max query)
  end.

Definition smart_get_meetings (db : table) (now : datetime) (uid : Z)
  (query time_min time_max : option str) : result (list fetched) :=
  a <- smart_filter now query time_min time_max ;;
  Ok (get_meetings db uid (arg_time_min a) (arg_time_max a) (arg_query a)).

(** ** [update_meeting_summary] *)

Definition update_meeting_summary (db : table) (now : datetime) (uid : Z)
  (old_query new_summary : str)
  : result (bool * option (list fetched) * table) :=
  meetings <- smart_get_meetings db now uid (Some old_query) None None ;;
  match meetings with
  | [] => Ok (false, None, db)
  | [(old_summary, st, _, _)] =>
    Ok (true, None, update_summary_stmt db uid old_summary st new_summary)
  | _ => Ok (false, Some meetings, db)
  end.

(** ** The branches of [handle_text] that look meetings up *)

Inductive reply :=
| AskClarify                          (* "... уточните ..." *)
| NotFound (query : str)              (* "Не нашёл встречу с «query»." *)
| LocationUpdated (loc : str)         (* "Адрес обновлён" *)
| SummaryUpdated (new_summary : str)  (* "Название встречи обновлено" *)
| Ambiguous (meetings : list fetched) (* "Найдено несколько встреч:" and the list *)
| RouteTo (e : event)                 (* reply_with_route *)
| Apology.                            (* "что-то пошло не так" *)

(** The numbered list of an ambiguous answer parses every start time; a time
    that does not parse raises. *)
Definition list_candidates (meetings : list fetched) : result reply :=
  if forallb (fun m : fetched =>
                match fromisoformat (fetched_start m) with
                | Some _ => true
                | None => false
                end) meetings
  then Ok (Ambiguous meetings)
  else Raise ValueError.

(** [try: ... except Exception:] around the whole dispatch. *)
Definition guarded (db : table) (r : result (reply * table)) : reply * table :=
  match r with
  | Ok x => x
  | Raise _ => (Apology, db)
  end.

(** [action == "update_location"] *)
Definition handle_update_location (db : table) (now : datetime) (uid : Z)
  (query loc : option str) : reply * table :=
  guarded db
    match query, loc with
    | Some ((_ :: _) as q), Some ((_ :: _) as l) =>
      meetings <- smart_get_meetings db now uid query None None ;;
      match meetings with
      | [] => Ok (NotFound q, db)
      | [(summ, st, _, _)] =>
        Ok (LocationUpdated l, update_meeting_location db uid summ st l)
      | _ => r <- list_candidates meetings ;; Ok (r, db)
      end
    | _, _ => Ok (AskClarify, db)
    end.

(** [action == "update_summary"] *)
Definition handle_update_summary (db : table) (now : datetime) (uid : Z)
  (query new_summary : option str) : reply * table :=
  guarded db
    match query, new_summary with
    | Some ((_ :: _) as q), Some ((_ :: _) as n) =>
      res <- update_meeting_summary db now uid q n ;;
      match res with
      | (true, _, db') => Ok (SummaryUpdated n, db')
      | (false, Some ((_ :: _ :: _) as meetings), db') =>
        r <- list_candidates meetings ;; Ok (r, db')
      | (false, _, db') => Ok (NotFound q, db')
      end
    | _, _ => Ok (AskClarify, db)
    end.

(** The meeting the [route] and [get_location] actions settle on. *)
Definition route_lookup (db : table) (now : datetime) (uid : Z) (query : str)
  : result (option event) :=
  found <- find_meeting_by_query db uid query ;;
  match found with
  | Some e => Ok (Some e)
  | None =>
    meetings <- smart_get_meetings db now uid (Some query) None None ;;
    match meetings with
    | (summ, st, _, loc) :: _ => e <- make_event summ loc st ;; Ok (Some e)
    | [] => Ok None
    end
  end.

(** [action in ("route", "get_location")] *)
Definition handle_route (db : table) (now : datetime) (uid : Z)
  (query summ : option str) : reply * table :=
  guarded db
    match (if truthy query then query else summ) with
    | Some ((_ :: _) as q) =>
      e <- route_lookup db now uid q ;;
      match e with
      | Some e => Ok (RouteTo e, db)
      | None => Ok (NotFound q, db)
      end
    | _ => Ok (AskClarify, db)
    end.

End Program.

(** ** What a pattern matches

    The declarative reading of a pattern, against which the matcher is
    checked below. *)
Section Language.
Context {py : Python}.

Inductive matches : regex -> str -> Prop :=
| M_Lit l : matches (Lit l) l
| M_Rep c lo hi s :
    forallb (in_class c) s = true ->
    (lo <= length s <= hi)%nat ->
    matches (Rep c lo hi) s
| M_Star c s :
    forallb (in_class c) s = true ->
    matches (Star c) s
| M_Seq r1 r2 s1 s2 :
    matches r1 s1 -> matches r2 s2 -> matches (Seq r1 r2) (s1 ++ s2)
| M_AltL r1 r2 s : matches r1 s -> matches (Alt r1 r2) s
| M_AltR r1 r2 s : matches r2 s -> matches (Alt r1 r2) s
| M_Group n r s : matches r s -> matches (Group n r) s.

(** [s] with the first occurrence of [m] cut out. *)
Fixpoint remove_first (m s : str) : str :=
  if startswith m s then skipn (length m) s
  else match s with
       | [] => []
       | c :: s' => c :: remove_first m s'
       end.

(** *** The specification's wording, for comparison with the code *)

(** Section 4.1, edge case policy: of several date phrases the one removed is
    the first in precedence order: relative day, then named month, then
    numeric. *)
Definition spec_date_phrase (lower_query : str) : option str :=
  if contains kw_today lower_query then Some kw_today
  else if contains kw_tomorrow lower_query then Some kw_tomorrow
  else if contains kw_day_after lower_query then Some kw_day_after
  else match re_search date_re lower_query with
       | Some m => Some (m_text m)
       | None =>
         match re_search num_date_re lower_query with
         | Some m => Some (m_text m)
         | None => None
         end
       end.

Definition spec_residual (lower_query : str) : option str :=
  match spec_date_phrase lower_query with
  | Some m => none_if_empty (strip (remove_first m lower_query))
  | None => Some lower_query
  end.



End Language.

(** ** A runtime for the examples

    The tables restricted to Basic Latin and Cyrillic, where they are as in
    CPython: [A-Z], [А-Я] and [Ѐ-Џ] have lower-case forms, [0-9] are the
    decimal digits, and timestamps are read in the layout
    [YYYY-MM-DDTHH:MM:SS] that the assistant writes. *)
Module Ru.

Definition lower_char (c : Z) : Z :=
  if (65 <=? c) && (c <=? 90) then c + 32
  else if (1040 <=? c) && (c <=? 1071) then c + 32
  else if (1024 <=? c) && (c <=? 1039) then c + 80
  else c.

Definition decimal (c : Z) : option Z :=
  if (48 <=? c) && (c <=? 57) then Some (c - 48) else None.

Fixpoint number (cs : str) (acc : Z) : option Z :=
  match cs with
  | [] => Some acc
  | c :: cs' =>
    match decimal c with
    | Some d => number cs' (acc * 10 + d)
    | None => None
    end
  end.

Definition parse_iso (s : str) : option datetime :=
  match s with
  | [y1; y2; y3; y4; a; m1; m2; b; d1; d2; t; h1; h2; c1; n1; n2; c2; s1; s2] =>
    if (a =? 45) && (b =? 45) && (t =? 84) && (c1 =? 58) && (c2 =? 58) then
      match number [y1; y2; y3; y4] 0, number [m1; m2] 0, number [d1; d2] 0,
            number [h1; h2] 0, number [n1; n2] 0, number [s1; s2] 0 with
      | Some y, Some m, Some d, Some h, Some n, Some sec =>
        let r := mkdt y m d h n sec in
        if valid_datetime r then Some r else None
      | _, _, _, _, _, _ => None
      end
    else None
  | _ => None
  end.

#[export] Instance python : Python := {
  str_lower := map lower_char;
  unicode_decimal := decimal;
  fromisoformat := parse_iso
}.

Definition june_10_2025 : datetime := mkdt 2025 6 10 9 30 0.

Definition regina : meeting :=
  mkmeeting 1 7 (text "С Регина 8 ноября в 20:00") (text "2025-11-08T20:00:00")
            30 None.

Definition leysan : meeting :=
  mkmeeting 2 7 (text "С Лейсан 10 ноября в 15:00") (text "2025-11-10T15:00:00")
            30 (Some (text "Уфа, Ленина 5")).

Definition meetings : table := [regina; leysan].

End Ru.

(** * The rest of the program

    [create_meeting] and the branches of [handle_text] that the lookups
    above are called from. *)

Section Dispatch.
Context {py : Python}.

(** The rowid an [AUTOINCREMENT] column gives the next row: one more than
    the largest in the table (rows are never deleted). *)
Definition next_id (db : table) : Z :=
  1 + fold_right Z.max 0 (map id db).

(** An INTEGER parameter is bound as a 64-bit signed integer; [sqlite3]
    raises [OverflowError] for a Python [int] outside that range.  [user_id]
    is a Telegram id and is inside it; [duration] is what the classifier
    wrote. *)
Definition INT64_MIN : Z := - 2 ^ 63.
Definition INT64_MAX : Z := 2 ^ 63 - 1.

Definition fits_int64 (n : Z) : bool := (INT64_MIN <=? n) && (n <=? INT64_MAX).

(** [create_meeting]: [INSERT INTO meetings (user_id, summary, start_time,
    duration_minutes, location) VALUES (?, ?, ?, ?, ?)] *)
Definition create_meeting (db : table) (uid : Z) (summ st : str) (dur : Z)
  (loc : option str) : result table :=
  if fits_int64 dur
  then Ok (db ++ [mkmeeting (next_id db) uid summ st dur loc])
  else Raise OverflowError.

(** A row after [SET location = ?] and after [SET summary = ?]. *)
Definition with_location (r : meeting) (l : str) : meeting :=
  mkmeeting (id r) (user_id r) (summary r) (start_time r)
            (duration_minutes r) (Some l).

Definition with_summary (r : meeting) (s : str) : meeting :=
  mkmeeting (id r) (user_id r) s (start_time r)
            (duration_minutes r) (location r).

(** [t.strftime("%Y-%m-%dT%H:%M:%S")] *)
Definition strftime_full (t : datetime) : str :=
  fmt4 (year t) ++ text "-" ++ fmt2 (month t) ++ text "-" ++ fmt2 (day t)
  ++ text "T" ++ fmt2 (hour t) ++ text ":" ++ fmt2 (minute t) ++ text ":"
  ++ fmt2 (second t).

(** The date part of both stamps, [%Y-%m-%d]. *)
Definition iso_date (t : datetime) : str :=
  fmt4 (year t) ++ text "-" ++ fmt2 (month t) ++ text "-" ++ fmt2 (day t).

(** [k in d] *)
Fixpoint dict_mem (d : list (str * Z)) (k : str) : bool :=
  match d with
  | [] => false
  | (k', _) :: d' => str_eqb k k' || dict_mem d' k
  end.

Definition DEFAULT_SUMMARY : str := text "Встреча".
Definition SOON : str := text "в ближайшее время".
Definition THIS_MONTH : str := text "в этом месяце".

(** The bounds of a whole month, as the [list] branch builds them:
    [datetime(y, m, 1)] and [datetime(y + (1 if m == 12 else 0), (m % 12) + 1, 1)]. *)
Definition month_bounds (y m : Z) : result (datetime * datetime) :=
  first <- datetime_new y m 1 ;;
  next <- datetime_new (y + (if m =? 12 then 1 else 0)) (m mod 12 + 1) 1 ;;
  Ok (first, next).

(** Lines 160-182 of [handle_text]: the bounds and the caption of a listing. *)
Definition list_window (now : datetime) (date_filter : option str)
  : result (option str * option str * str) :=
  match date_filter with
  | Some ((_ :: _) as f) =>
    let df := str_lower f in
    if str_eqb df (text "этот месяц") || str_eqb df (text "в этом месяце") then
      b <- month_bounds (year now) (month now) ;;
      Ok (Some (strftime_full (fst b)), Some (strftime_full (snd b)), THIS_MONTH)
    else if dict_mem RU_MONTHS df then
      let m := dict_get RU_MONTHS df 0 in
      b <- month_bounds (infer_year now m) m ;;
      Ok (Some (strftime_full (fst b)), Some (strftime_full (snd b)),
          text "в " ++ f)
    else Ok (Some (strftime_full now), None, SOON)
  | _ => Ok (Some (strftime_full now), None, SOON)
  end.

(** What [handle_text] answers.  [Said] wraps the answers of the lookup
    branches. *)
Inductive answer :=
| Said (r : reply)
| AskTime                                          (* "укажите время." *)
| Created (summ : str) (start : datetime) (loc : option str)
                                                   (* "Принято ..." *)
| NoMeetings                                       (* "в этот период встреч нет." *)
| Schedule (caption : str) (meetings : list fetched). (* "Расписание ..." *)

(** The lines of a schedule parse every start time, as [list_candidates]
    does. *)
Definition all_parse (meetings : list fetched) : bool :=
  forallb (fun m : fetched =>
             match fromisoformat (fetched_start m) with
             | Some _ => true
             | None => false
             end) meetings.

(** [intent.get("duration_minutes", 30)] *)
Definition duration_or_default (dur : option Z) : Z :=
  match dur with
  | Some n => n
  | None => 30
  end.

(** [action == "create"].  The row is inserted before the time is parsed for
    the answer, so a time that does not parse leaves the row in the table;
    an insert that raises leaves the table as it was. *)
Definition handle_create (db : table) (uid : Z) (summ dt : option str)
  (dur : option Z) (loc : option str) : answer * table :=
  let summary := match summ with
                 | Some ((_ :: _) as s) => s
                 | _ => DEFAULT_SUMMARY
                 end in
  match dt with
  | Some ((_ :: _) as d) =>
    match create_meeting db uid summary d (duration_or_default dur) loc with
    | Ok db' =>
      match fromisoformat d with
      | Some start => (Created summary start loc, db')
      | None => (Said Apology, db')
      end
    | Raise _ => (Said Apology, db)
    end
  | _ => (AskTime, db)
  end.

(** [action == "list"].  [now] is the clock as the branch reads it,
    [now_lookup] as [smart_get_meetings] reads it a moment later. *)
Definition handle_list (db : table) (now now_lookup : datetime) (uid : Z)
  (date_filter query : option str) : answer * table :=
  match
    (w <- list_window now date_filter ;;
     meetings <- smart_get_meetings db now_lookup uid query
                                    (fst (fst w)) (snd (fst w)) ;;
     match meetings with
     | [] => Ok NoMeetings
     | _ => if all_parse meetings then Ok (Schedule (snd w) meetings)
            else Raise ValueError
     end)
  with
  | Ok a => (a, db)
  | Raise _ => (Said Apology, db)
  end.

(** [action == "where"] *)
Definition handle_where (db : table) (now : datetime) (uid : Z)
  (query : option str) : reply * table :=
  guarded db
    match query with
    | Some ((_ :: _) as q) =>
      found <- find_meeting_by_query db uid q ;;
      match found with
      | Some e => Ok (RouteTo e, db)
      | None =>
        meetings <- smart_get_meetings db now uid query None None ;;
        match meetings with
        | [] => Ok (NotFound q, db)
        | [(summ, st, _, loc)] =>
          e <- make_event summ loc st ;; Ok (RouteTo e, db)
        | _ => r <- list_candidates meetings ;; Ok (r, db)
        end
      end
    | _ => Ok (AskClarify, db)
    end.

(** The fields of the classifier's answer that [handle_text] reads.  A text
    field that is missing or null is [None]; [i_duration_minutes] is [None]
    when the key is missing, which is when [intent.get("duration_minutes", 30)]
    gives 30.  The text fields hold strings and [duration_minutes] an
    integer. *)
Record intent := mkintent {
  i_action : option str;
  i_summary : option str;
  i_datetime : option str;
  i_duration_minutes : option Z;
  i_location : option str;
  i_query : option str;
  i_new_summary : option str;
  i_date_filter : option str
}.

Definition said (x : reply * table) : option answer * table :=
  (Some (Said (fst x)), snd x).

Definition is_action (a : option str) (name : str) : bool :=
  match a with
  | Some s => str_eqb s name
  | None => false
  end.

(** The dispatch of [handle_text] on [action] (lines 142-290); [None] is
    the case in which nothing is sent.  [now] is the clock of the [list]
    branch, [now_lookup] the clock inside [smart_get_meetings]. *)
Definition handle_action (db : table) (now now_lookup : datetime) (uid : Z)
  (i : intent) : option answer * table :=
  let a := i_action i in
  if is_action a (text "create") then
    let x := handle_create db uid (i_summary i) (i_datetime i)
                           (i_duration_minutes i) (i_location i) in
    (Some (fst x), snd x)
  else if is_action a (text "list") then
    let x := handle_list db now now_lookup uid (i_date_filter i) (i_query i) in
    (Some (fst x), snd x)
  else if is_action a (text "route") || is_action a (text "get_location") then
    said (handle_route db now_lookup uid (i_query i) (i_summary i))
  else if is_action a (text "update_location") then
    said (handle_update_location db now_lookup uid (i_query i) (i_location i))
  else if is_action a (text "update_summary") then
    said (handle_update_summary db now_lookup uid (i_query i) (i_new_summary i))
  else if is_action a (text "where") then
    said (handle_where db now_lookup uid (i_query i))
  else (None, db).

End Dispatch.

(** More example data: two meetings that share owner, title and start time
    and differ in place, and one without a readable start time. *)
Module RuMore.

Definition standup_office : meeting :=
  mkmeeting 1 7 (text "Планёрка") (text "2025-06-11T10:00:00") 15
            (Some (text "Офис")).

Definition standup_zoom : meeting :=
  mkmeeting 2 7 (text "Планёрка") (text "2025-06-11T10:00:00") 15
            (Some (text "Zoom")).

Definition twins : table := [standup_office; standup_zoom].

Definition june_10 : datetime := mkdt 2025 6 10 9 30 0.

(** What a route request for the meeting with Leysan is answered from. *)
Definition leysan_event : event :=
  mkevent (text "С Лейсан 10 ноября в 15:00") (text "Уфа, Ленина 5")
          (mkdt 2025 11 10 15 0 0).

End RuMore.

(** * Properties *)

Unset Implicit Arguments.

(** ** Strings *)

Lemma startswith_iff (p s : str) :
  startswith p s = true <-> exists t, s = p ++ t.
Proof.
  revert s; induction p as [|a p IH]; intros s; simpl.
  - split; [intros _; now exists s | reflexivity].
  - destruct s as [|b s]; simpl.
    + split; [discriminate | intros [t H]; discriminate].
    + rewrite andb_true_iff, Z.eqb_eq, IH. split.
      * intros [-> [t ->]]. now exists t.
      * intros [t H]. injection H as -> ->. split; [reflexivity | now exists t].
Qed.

Lemma contains_iff (n h : str) :
  contains n h = true <-> exists a b, h = a ++ n ++ b.
Proof.
  induction h as [|c h IH].
  - simpl. rewrite orb_false_r, startswith_iff. split.
    + intros [t H]. exists [], t. exact H.
    + intros [a [b H]]. destruct a; [now exists b | discriminate].
  - cbn [contains]. rewrite orb_true_iff, startswith_iff, IH. split.
    + intros [[t H] | [a [b H]]].
      * exists [], t. exact H.
      * exists (c :: a), b. now rewrite H.
    + intros [[|x a] [b H]].
      * left. now exists b.
      * right. injection H as -> ->. now exists a, b.
Qed.

Lemma contains_false (n h a b : str) :
  contains n h = false -> h <> a ++ n ++ b.
Proof.
  intros H E. assert (contains n h = true) by (apply contains_iff; eauto).
  congruence.
Qed.

Lemma skip_prefix_iff (p s s' : str) :
  skip_prefix p s = Some s' <-> s = p ++ s'.
Proof.
  revert s; induction p as [|a p IH]; intros s; simpl.
  - split; [now intros [= ->] | now intros ->].
  - destruct s as [|b s].
    + split; discriminate.
    + destruct (Z.eqb_spec a b) as [->|N].
      * rewrite IH. split; [now intros -> | now intros [= ->]].
      * split; [discriminate | intros [= E _]; congruence].
Qed.

Lemma consumed_app (m rest : str) : consumed (m ++ rest) rest = m.
Proof.
  unfold consumed. rewrite length_app, Nat.add_sub.
  rewrite firstn_app, Nat.sub_diag, firstn_all. simpl. apply app_nil_r.
Qed.

Lemma remove_first_here (m s : str) :
  startswith m s = true -> remove_first m s = skipn (length m) s.
Proof. intros H. destruct s; simpl; now rewrite H. Qed.

Lemma remove_first_later (m : str) (c : Z) (s : str) :
  startswith m (c :: s) = false ->
  remove_first m (c :: s) = c :: remove_first m s.
Proof. intros H. cbn [remove_first]. now rewrite H. Qed.

Lemma remove_first_leftmost (m a b : str) :
  (forall a' b', a ++ m ++ b = a' ++ m ++ b' -> (length a <= length a')%nat) ->
  remove_first m (a ++ m ++ b) = a ++ b.
Proof.
  induction a as [|c a IH]; intros Hmin.
  - simpl. rewrite remove_first_here by (apply startswith_iff; now exists b).
    rewrite skipn_app, skipn_all, Nat.sub_diag. reflexivity.
  - change ((c :: a) ++ m ++ b) with (c :: (a ++ m ++ b)).
    destruct (startswith m (c :: a ++ m ++ b)) eqn:S.
    + apply startswith_iff in S. destruct S as [t S].
      specialize (Hmin [] t). simpl in Hmin. specialize (Hmin S). lia.
    + rewrite remove_first_later by exact S. simpl. f_equal. apply IH.
      intros a' b' E. specialize (Hmin (c :: a') b'). simpl in Hmin.
      rewrite E in Hmin. specialize (Hmin eq_refl). lia.
Qed.

(** ** The matcher against the declarative reading *)

Section Matcher.
Context {py : Python}.

Lemma exec_rep_sound c hi : forall lo s caps k res,
  exec_rep c lo hi s caps k = Some res ->
  exists m s', s = m ++ s' /\ forallb (in_class c) m = true
               /\ (lo <= length m <= hi)%nat /\ k s' caps = Some res.
Proof.
  induction hi as [|hi IH]; intros lo s caps k res H.
  - simpl in H. destruct lo; [|discriminate].
    exists [], s. simpl. repeat split; auto.
  - assert (Stop : match lo with O => k s caps | S _ => None end = Some res ->
                   exists m s', s = m ++ s' /\ forallb (in_class c) m = true
                     /\ (lo <= length m <= S hi)%nat /\ k s' caps = Some res).
    { destruct lo; [|discriminate]. intros E. exists [], s. simpl.
      repeat split; auto. lia. }
    simpl in H. destruct s as [|x s]; [now apply Stop|].
    destruct (in_class c x) eqn:Cx; [|now apply Stop].
    destruct (exec_rep c (pred lo) hi s caps k) eqn:E; [|now apply Stop].
    injection H as <-. apply IH in E. destruct E as (m & s' & -> & F & L & K).
    exists (x :: m), s'. simpl. rewrite Cx, F. repeat split; auto; lia.
Qed.

Lemma exec_rep_complete c hi : forall lo m s' caps k,
  forallb (in_class c) m = true -> (lo <= length m <= hi)%nat ->
  k s' caps <> None ->
  exec_rep c lo hi (m ++ s') caps k <> None.
Proof.
  induction hi as [|hi IH]; intros lo m s' caps k F L K.
  - destruct m; simpl in L; [|lia]. destruct lo; [|lia]. exact K.
  - destruct m as [|x m].
    + destruct lo; [|simpl in L; lia]. simpl.
      destruct s' as [|y s']; [exact K|].
      destruct (in_class c y); [|exact K].
      destruct (exec_rep c 0 hi s' caps k); [discriminate | exact K].
    + simpl in F. apply andb_true_iff in F. destruct F as [Cx F].
      simpl. rewrite Cx.
      specialize (IH (pred lo) m s' caps k F).
      destruct (exec_rep c (pred lo) hi (m ++ s') caps k); [discriminate|].
      exfalso. apply IH; [simpl in L; lia | exact K | reflexivity].
Qed.

Lemma exec_star_sound c : forall s caps k res,
  exec_star c s caps k = Some res ->
  exists m s', s = m ++ s' /\ forallb (in_class c) m = true
               /\ k s' caps = Some res.
Proof.
  induction s as [|x s IH]; intros caps k res H.
  - exists [], []. auto.
  - simpl in H.
    assert (Stop : k (x :: s) caps = Some res ->
                   exists m s', x :: s = m ++ s' /\ forallb (in_class c) m = true
                                /\ k s' caps = Some res)
      by (intros E; exists [], (x :: s); auto).
    destruct (in_class c x) eqn:Cx; [|now apply Stop].
    destruct (exec_star c s caps k) eqn:E; [|now apply Stop].
    injection H as <-. apply IH in E. destruct E as (m & s' & -> & F & K).
    exists (x :: m), s'. simpl. rewrite Cx, F. auto.
Qed.

Lemma exec_star_complete c : forall m s' caps k,
  forallb (in_class c) m = true -> k s' caps <> None ->
  exec_star c (m ++ s') caps k <> None.
Proof.
  induction m as [|x m IH]; intros s' caps k F K.
  - simpl. destruct s' as [|y s']; [exact K|]. simpl.
    destruct (in_class c y); [|exact K].
    destruct (exec_star c s' caps k); [discriminate | exact K].
  - simpl in F. apply andb_true_iff in F. destruct F as [Cx F].
    simpl. rewrite Cx. specialize (IH s' caps k F K).
    destruct (exec_star c (m ++ s') caps k); [discriminate | contradiction].
Qed.

Lemma exec_sound r : forall s caps k res,
  exec r s caps k = Some res ->
  exists m s' caps', s = m ++ s' /\ matches r m /\ k s' caps' = Some res.
Proof.
  induction r as [l | c lo hi | c | r1 IH1 r2 IH2 | r1 IH1 r2 IH2 | n r IH];
    intros s caps k res H; simpl in H.
  - destruct (skip_prefix l s) as [s'|] eqn:E; [|discriminate].
    apply skip_prefix_iff in E. exists l, s', caps. split; [exact E|].
    split; [constructor | exact H].
  - apply exec_rep_sound in H. destruct H as (m & s' & -> & F & L & K).
    exists m, s', caps. split; [reflexivity|]. split; [now constructor | exact K].
  - apply exec_star_sound in H. destruct H as (m & s' & -> & F & K).
    exists m, s', caps. split; [reflexivity|]. split; [now constructor | exact K].
  - apply IH1 in H. destruct H as (m1 & s1 & caps1 & -> & M1 & H).
    apply IH2 in H. destruct H as (m2 & s2 & caps2 & -> & M2 & H).
    exists (m1 ++ m2), s2, caps2. rewrite <- app_assoc.
    split; [reflexivity|]. split; [now constructor | exact H].
  - destruct (exec r1 s caps k) eqn:E.
    + injection H as <-. apply IH1 in E. destruct E as (m & s' & caps' & -> & M & K).
      exists m, s', caps'. split; [reflexivity|]. split; [now apply M_AltL | exact K].
    + apply IH2 in H. destruct H as (m & s' & caps' & -> & M & K).
      exists m, s', caps'. split; [reflexivity|]. split; [now apply M_AltR | exact K].
  - apply IH in H. destruct H as (m & s' & caps' & -> & M & K).
    exists m, s', ((n, consumed (m ++ s') s') :: caps').
    split; [reflexivity|]. split; [now constructor | exact K].
Qed.

Lemma exec_complete r m : matches r m ->
  forall s' caps k, (forall caps', k s' caps' <> None) ->
  exec r (m ++ s') caps k <> None.
Proof.
  induction 1 as [l | c lo hi s F L | c s F | r1 r2 s1 s2 _ IH1 _ IH2
                  | r1 r2 s _ IH | r1 r2 s _ IH | n r s _ IH];
    intros s' caps k K; simpl.
  - assert (E : skip_prefix l (l ++ s') = Some s') by now apply skip_prefix_iff.
    rewrite E. apply K.
  - now apply exec_rep_complete.
  - now apply exec_star_complete.
  - rewrite <- app_assoc. apply IH1. intros caps'. now apply IH2.
  - specialize (IH s' caps k K).
    destruct (exec r1 (s ++ s') caps k); [discriminate | contradiction].
  - destruct (exec r1 (s ++ s') caps k); [discriminate | now apply IH].
  - apply IH. intros caps'. apply K.
Qed.

Lemma match_here_sound r s mo :
  match_here r s = Some mo ->
  m_before mo = [] /\ s = m_text mo ++ m_after mo /\ matches r (m_text mo).
Proof.
  unfold match_here. intros H.
  destruct (exec r s [] (fun rest caps => Some (rest, caps))) as [[rest caps]|] eqn:E;
    [|discriminate].
  injection H as <-. simpl.
  apply exec_sound in E. destruct E as (m & s' & caps' & -> & M & K).
  injection K as -> ->. rewrite consumed_app. auto.
Qed.

Lemma match_here_complete r m s' :
  matches r m -> match_here r (m ++ s') <> None.
Proof.
  intros M. unfold match_here.
  destruct (exec r (m ++ s') [] (fun rest caps => Some (rest, caps)))
    as [[rest caps]|] eqn:E.
  - discriminate.
  - exfalso. revert E. apply exec_complete; [exact M | discriminate].
Qed.

(** [re.search] returns the leftmost match: the text splits around a string
    the pattern matches, and no string the pattern matches starts earlier. *)
Lemma re_search_some r : forall s mo,
  re_search r s = Some mo ->
  s = m_before mo ++ m_text mo ++ m_after mo
  /\ matches r (m_text mo)
  /\ forall a m b, s = a ++ m ++ b -> matches r m ->
                   (length (m_before mo) <= length a)%nat.
Proof.
  induction s as [|c s IH]; intros mo H; simpl in H.
  - destruct (match_here r []) eqn:E; [|discriminate].
    injection H as <-. apply match_here_sound in E. destruct E as (B & S & M).
    rewrite B. simpl. repeat split; auto. intros; lia.
  - destruct (match_here r (c :: s)) eqn:E.
    + injection H as <-. apply match_here_sound in E. destruct E as (B & S & M).
      rewrite B. simpl. repeat split; auto. intros; lia.
    + destruct (re_search r s) as [m1|] eqn:R; [|discriminate].
      injection H as <-. simpl.
      destruct (IH m1 eq_refl) as (S & M & L).
      split; [now rewrite S|]. split; [exact M|].
      intros a m b Ea Ma. destruct a as [|x a].
      * simpl in Ea. exfalso. apply (@match_here_complete r m b Ma).
        now rewrite <- Ea.
      * injection Ea as -> Ea. simpl. apply le_n_S. now apply (L a m b).
Qed.

Lemma re_search_none r : forall s,
  re_search r s = None ->
  forall a m b, s = a ++ m ++ b -> ~ matches r m.
Proof.
  induction s as [|c s IH]; intros H a m b E M; simpl in H.
  - destruct a; [|discriminate]. simpl in E.
    apply (@match_here_complete r m b M). rewrite <- E.
    destruct (match_here r []); [discriminate | reflexivity].
  - destruct (match_here r (c :: s)) eqn:Em; [discriminate|].
    destruct a as [|x a].
    + simpl in E. apply (@match_here_complete r m b M). now rewrite <- E.
    + destruct (re_search r s) eqn:R; [discriminate|].
      injection E as -> E. now apply (IH eq_refl a m b).
Qed.

Lemma re_search_finds r s a m b :
  s = a ++ m ++ b -> matches r m -> re_search r s <> None.
Proof.
  intros E M H. now apply (@re_search_none r s H a m b).
Qed.

End Matcher.

(** ** Calendar arithmetic *)

Lemma days_before_next_year (y : Z) :
  days_before_year (y + 1) = days_before_year y + 365 + (if is_leap y then 1 else 0).
Proof.
  unfold days_before_year, is_leap.
  replace (y + 1 - 1) with y by lia.
  destruct (Z.eqb_spec (y mod 4) 0); destruct (Z.eqb_spec (y mod 100) 0);
    destruct (Z.eqb_spec (y mod 400) 0); cbn [negb andb orb];
    Z.div_mod_to_equations; lia.
Qed.

Lemma month_cases (m : Z) :
  1 <= m <= 12 ->
  m = 1 \/ m = 2 \/ m = 3 \/ m = 4 \/ m = 5 \/ m = 6 \/ m = 7 \/ m = 8
  \/ m = 9 \/ m = 10 \/ m = 11 \/ m = 12.
Proof. lia. Qed.

Lemma valid_ymd_inv (y m d : Z) :
  valid_ymd y m d = true ->
  1 <= y <= 9999 /\ 1 <= m <= 12 /\ 1 <= d <= days_in_month y m.
Proof.
  unfold valid_ymd, MINYEAR, MAXYEAR. rewrite !andb_true_iff, !Z.leb_le. lia.
Qed.

(** The following calendar day is one ordinal later. *)
Lemma toordinal_next_day (t : datetime) :
  valid_ymd (year t) (month t) (day t) = true ->
  toordinal (next_day t) = toordinal t + 1.
Proof.
  intros V. apply valid_ymd_inv in V. destruct V as (_ & Vm & Vd).
  destruct t as [y m d h mi s]. simpl in *.
  unfold next_day, toordinal. simpl.
  destruct (Z.ltb_spec d (days_in_month y m)) as [L|L]; simpl; [lia|].
  assert (D : d = days_in_month y m) by lia. clear L Vd.
  destruct (Z.ltb_spec m 12) as [L|L]; simpl.
  - assert (C : m = 1 \/ m = 2 \/ m = 3 \/ m = 4 \/ m = 5 \/ m = 6 \/ m = 7
                \/ m = 8 \/ m = 9 \/ m = 10 \/ m = 11) by lia.
    unfold days_before_month, days_in_month in *.
    repeat (destruct C as [->|C]); try subst m; simpl in *;
      destruct (is_leap y); simpl in *; lia.
  - assert (m = 12) by lia. subst m.
    rewrite days_before_next_year.
    unfold days_before_month, days_in_month in *. simpl in *.
    destruct (is_leap y); simpl; lia.
Qed.

Lemma next_day_valid (t : datetime) :
  valid_ymd (year t) (month t) (day t) = true ->
  year (next_day t) <= MAXYEAR ->
  valid_ymd (year (next_day t)) (month (next_day t)) (day (next_day t)) = true.
Proof.
  intros V. pose proof (valid_ymd_inv _ _ _ V) as (Vy & Vm & Vd).
  destruct t as [y m d h mi s]. simpl in *.
  unfold next_day. simpl.
  destruct (Z.ltb_spec d (days_in_month y m)) as [L|L]; simpl.
  - intros _. unfold valid_ymd, MINYEAR, MAXYEAR.
    rewrite !andb_true_iff, !Z.leb_le. lia.
  - destruct (Z.ltb_spec m 12) as [L'|L']; simpl; intros Y;
      unfold valid_ymd, MINYEAR, MAXYEAR in *;
      rewrite !andb_true_iff, !Z.leb_le.
    + assert (1 <= days_in_month y (m + 1)).
      { unfold days_in_month.
        destruct (m + 1 =? 2); [destruct (is_leap y); lia|].
        destruct ((m + 1 =? 4) || (m + 1 =? 6) || (m + 1 =? 9) || (m + 1 =? 11)); lia. }
      lia.
    + unfold days_in_month. simpl. lia.
Qed.

Lemma add_days_1 (t t' : datetime) :
  add_days t 1 = Ok t' -> t' = next_day t /\ year (next_day t) <= MAXYEAR.
Proof.
  simpl. destruct (Z.leb_spec (year (next_day t)) MAXYEAR); [|discriminate].
  intros [= <-]. auto.
Qed.

Lemma add_days_2 (t t1 t2 : datetime) :
  add_days t 1 = Ok t1 -> add_days t1 1 = Ok t2 -> add_days t 2 = Ok t2.
Proof.
  intros H1 H2. apply add_days_1 in H1. destruct H1 as [-> Y].
  cbn [add_days] in *. apply Z.leb_le in Y. now rewrite Y.
Qed.

Lemma timestamp_midnight (t : datetime) :
  timestamp (midnight t) = (toordinal t - 1) * 86400.
Proof. unfold timestamp, midnight, toordinal. simpl. lia. Qed.

(** A day interval is exactly 24 hours wide. *)
Lemma day_interval_width (t t' : datetime) :
  valid_ymd (year t) (month t) (day t) = true ->
  add_days t 1 = Ok t' ->
  timestamp (midnight t') - timestamp (midnight t) = 24 * 3600.
Proof.
  intros V H. apply add_days_1 in H. destruct H as [-> _].
  rewrite !timestamp_midnight, toordinal_next_day by exact V. lia.
Qed.

Lemma datetime_new_inv (y m d : Z) (t : datetime) :
  datetime_new y m d = Ok t ->
  t = mkdt y m d 0 0 0 /\ valid_ymd y m d = true.
Proof.
  unfold datetime_new. destruct (valid_ymd y m d); [|discriminate].
  intros [= <-]. auto.
Qed.

(** ** The date resolver *)

Section Resolver.
Context {py : Python}.

Lemma kw_day_after_split : kw_day_after = text "после" ++ kw_tomorrow.
Proof. reflexivity. Qed.

(** Every phrase with "послезавтра" in it has "завтра" in it. *)
Lemma day_after_contains_tomorrow (s : str) :
  contains kw_day_after s = true -> contains kw_tomorrow s = true.
Proof.
  rewrite !contains_iff. intros (a & b & ->).
  exists (a ++ text "после"), b.
  rewrite kw_day_after_split, <- !app_assoc. reflexivity.
Qed.

Lemma named_month_keep now lq t : named_month now lq (Some t) = Ok (Some t).
Proof. unfold named_month. now destruct (re_search date_re lq). Qed.

Lemma numeric_date_keep now lq t : numeric_date now lq (Some t) = Ok (Some t).
Proof. unfold numeric_date. now destruct (re_search num_date_re lq). Qed.

Lemma resolve_date_relative now lq t :
  relative_day now lq = Ok (Some t) -> resolve_date now lq = Ok (Some t).
Proof.
  intros H. unfold resolve_date. rewrite H. simpl.
  rewrite named_month_keep. simpl. apply numeric_date_keep.
Qed.

Lemma relative_day_tomorrow now lq t :
  contains kw_tomorrow lq = true -> add_days now 1 = Ok t ->
  relative_day now lq = Ok (Some t).
Proof. intros C A. unfold relative_day. now rewrite C, A. Qed.

Lemma relative_day_today now lq :
  contains kw_tomorrow lq = false -> contains kw_today lq = true ->
  relative_day now lq = Ok (Some now).
Proof. intros C1 C2. unfold relative_day. now rewrite C1, C2. Qed.

Lemma relative_day_none now lq :
  contains kw_tomorrow lq = false -> contains kw_today lq = false ->
  relative_day now lq = Ok None.
Proof.
  intros C1 C2. unfold relative_day. rewrite C1, C2.
  destruct (contains kw_day_after lq) eqn:C3; [|reflexivity].
  apply day_after_contains_tomorrow in C3. congruence.
Qed.

(** How a resolved date came about, in the order of precedence. *)
Lemma resolve_date_cases now lq t :
  resolve_date now lq = Ok (Some t) ->
  relative_day now lq = Ok (Some t)
  \/ (relative_day now lq = Ok None
      /\ named_month now lq None = Ok (Some t))
  \/ (relative_day now lq = Ok None
      /\ re_search date_re lq = None
      /\ numeric_date now lq None = Ok (Some t)).
Proof.
  unfold resolve_date. intros H.
  destruct (relative_day now lq) as [[t1|]|e] eqn:R; simpl in H.
  - rewrite named_month_keep in H. simpl in H. rewrite numeric_date_keep in H.
    left. exact H.
  - destruct (named_month now lq None) as [[t2|]|e] eqn:N; simpl in H.
    + rewrite numeric_date_keep in H. right; left. auto.
    + right; right. split; [reflexivity|]. split; [|exact H].
      unfold named_month in N.
      destruct (re_search date_re lq); [|reflexivity].
      destruct (int_group r 1); simpl in N; [|discriminate].
      destruct (datetime_new _ _ _); simpl in N; discriminate.
    + discriminate.
  - discriminate.
Qed.

Lemma valid_datetime_ymd (t : datetime) :
  valid_datetime t = true -> valid_ymd (year t) (month t) (day t) = true.
Proof.
  unfold valid_datetime. rewrite !andb_true_iff. tauto.
Qed.

Lemma add_days_valid (n : nat) : forall t t',
  valid_ymd (year t) (month t) (day t) = true ->
  add_days t n = Ok t' ->
  valid_ymd (year t') (month t') (day t') = true.
Proof.
  induction n as [|n IH]; intros t t' V H; simpl in H.
  - now injection H as <-.
  - destruct (Z.leb_spec (year (next_day t)) MAXYEAR) as [Y|Y]; [|discriminate].
    apply (IH (next_day t)); [|exact H]. now apply next_day_valid.
Qed.

(** A resolved date is a calendar date. *)
Lemma resolve_date_valid now lq t :
  valid_datetime now = true ->
  resolve_date now lq = Ok (Some t) ->
  valid_ymd (year t) (month t) (day t) = true.
Proof.
  intros V H. apply valid_datetime_ymd in V. apply resolve_date_cases in H.
  destruct H as [H | [[_ H] | (_ & _ & H)]].
  - unfold relative_day in H.
    destruct (contains kw_tomorrow lq).
    { destruct (add_days now 1) as [t1|] eqn:A; [|discriminate].
      injection H as <-. now apply (add_days_valid 1 now). }
    destruct (contains kw_today lq); [now injection H as <-|].
    destruct (contains kw_day_after lq); [|discriminate].
    destruct (add_days now 2) as [t2|] eqn:A; [|discriminate].
    injection H as <-. now apply (add_days_valid 2 now).
  - unfold named_month in H.
    destruct (re_search date_re lq) as [mo|]; [|discriminate].
    destruct (int_group mo 1) as [d|]; [|discriminate]. cbn [bind] in H.
    destruct (datetime_new _ _ _) as [t'|] eqn:D; [|discriminate].
    injection H as <-. apply datetime_new_inv in D. now destruct D as [-> D].
  - unfold numeric_date in H.
    destruct (re_search num_date_re lq) as [mo|]; [|discriminate].
    destruct (int_group mo 1) as [d|]; [|discriminate]. cbn [bind] in H.
    destruct (int_group mo 2) as [m|]; [|discriminate]. cbn [bind] in H.
    destruct (datetime_new _ _ _) as [t'|[]] eqn:D; try discriminate.
    injection H as <-. apply datetime_new_inv in D. now destruct D as [-> D].
Qed.

Lemma smart_filter_resolved now c q tmin tmax t t' :
  resolve_date now (str_lower (c :: q)) = Ok (Some t) ->
  add_days t 1 = Ok t' ->
  smart_filter now (Some (c :: q)) tmin tmax
  = Ok (mkargs (Some (strftime_midnight t)) (Some (strftime_midnight t'))
               (residual (str_lower (c :: q)))).
Proof.
  intros R A. unfold smart_filter. rewrite R. cbn [bind]. rewrite A. reflexivity.
Qed.

Lemma smart_filter_raise now c q tmin tmax e :
  resolve_date now (str_lower (c :: q)) = Raise e ->
  smart_filter now (Some (c :: q)) tmin tmax = Raise e.
Proof. intros R. unfold smart_filter. now rewrite R. Qed.

Lemma smart_filter_unresolved now c q tmin tmax :
  resolve_date now (str_lower (c :: q)) = Ok None ->
  smart_filter now (Some (c :: q)) tmin tmax
  = Ok (mkargs tmin tmax (Some (c :: q))).
Proof. intros R. unfold smart_filter. now rewrite R. Qed.

End Resolver.

(** ** What the three patterns match *)

Section Patterns.
Context {py : Python}.

Lemma lstrip_suffix (s : str) : exists a, s = a ++ lstrip s.
Proof.
  induction s as [|c s [a IH]].
  - now exists [].
  - simpl. destruct (isspace c).
    + exists (c :: a). simpl. now rewrite <- IH.
    + now exists [].
Qed.

Lemma strip_inside (s : str) : exists a b, s = a ++ strip s ++ b.
Proof.
  unfold strip, rstrip.
  destruct (lstrip_suffix s) as [a Ha].
  destruct (lstrip_suffix (rev (lstrip s))) as [b Hb].
  exists a, (rev b). rewrite <- rev_app_distr, <- Hb, rev_involutive. exact Ha.
Qed.

Lemma strip_length (s : str) : (length (strip s) <= length s)%nat.
Proof.
  destruct (strip_inside s) as (a & b & E).
  rewrite E at 2. rewrite !length_app. lia.
Qed.

Lemma strip_incl (s : str) : incl (strip s) s.
Proof.
  destruct (strip_inside s) as (a & b & E). intros x Hx.
  rewrite E. apply in_or_app. right. apply in_or_app. now left.
Qed.

Lemma lstrip_spaces (s : str) :
  exists a, s = a ++ lstrip s /\ forallb isspace a = true.
Proof.
  induction s as [|c s (a & IH & F)].
  - now exists [].
  - simpl. destruct (isspace c) eqn:E.
    + exists (c :: a). simpl. rewrite E, F. now rewrite <- IH.
    + now exists [].
Qed.

Lemma lstrip_head (s : str) (c : Z) (rest : str) :
  lstrip s = c :: rest -> isspace c = false.
Proof.
  induction s as [|x s IH]; [discriminate|].
  simpl. destruct (isspace x) eqn:E; [exact IH|].
  now intros [= <- _].
Qed.

Lemma lstrip_keeps_head (s : str) (c : Z) (rest : str) :
  s = c :: rest -> isspace c = false -> lstrip s = s.
Proof. intros -> E. simpl. now rewrite E. Qed.

Lemma lstrip_past_spaces (x z : str) :
  forallb isspace x = true -> lstrip (x ++ z) = lstrip z.
Proof.
  induction x as [|c x IH]; [reflexivity|]. simpl.
  intros F. apply andb_true_iff in F. destruct F as [-> F]. now apply IH.
Qed.

Lemma forallb_rev {A} (f : A -> bool) (l : list A) :
  forallb f (rev l) = forallb f l.
Proof.
  induction l as [|x l IH]; [reflexivity|].
  simpl. rewrite forallb_app, IH. simpl. rewrite andb_true_r. apply andb_comm.
Qed.

(** What [strip] leaves: the text between a run of white space at the start
    and one at the end, with no white space at its own ends. *)
Lemma strip_sides (s : str) :
  exists a b, s = a ++ strip s ++ b
              /\ forallb isspace a = true /\ forallb isspace b = true.
Proof.
  unfold strip, rstrip.
  destruct (lstrip_spaces s) as (a & Ha & Fa).
  destruct (lstrip_spaces (rev (lstrip s))) as (b & Hb & Fb).
  exists a, (rev b). split; [|split; [exact Fa | now rewrite forallb_rev]].
  rewrite <- rev_app_distr, <- Hb, rev_involutive. exact Ha.
Qed.

Lemma strip_first (s : str) (c : Z) (rest : str) :
  strip s = c :: rest -> isspace c = false.
Proof.
  unfold strip, rstrip. intros E.
  destruct (lstrip_suffix (rev (lstrip s))) as [b Hb].
  apply (f_equal (@rev Z)) in Hb. rewrite rev_involutive, rev_app_distr in Hb.
  rewrite E in Hb. simpl in Hb. now apply (lstrip_head s c (rest ++ rev b)).
Qed.

Lemma strip_last (s : str) (c : Z) (rest : str) :
  rev (strip s) = c :: rest -> isspace c = false.
Proof.
  unfold strip, rstrip. rewrite rev_involutive. apply lstrip_head.
Qed.

Lemma strip_nil_iff (s : str) : strip s = [] <-> forallb isspace s = true.
Proof.
  split.
  - intros E. destruct (strip_sides s) as (a & b & H & Fa & Fb).
    rewrite E in H. rewrite H, !forallb_app, Fa, Fb. reflexivity.
  - intros F. unfold strip, rstrip.
    rewrite <- (app_nil_r s), lstrip_past_spaces by exact F. reflexivity.
Qed.

(** [strip] is determined by these properties. *)
Lemma strip_unique (s x r y : str) :
  s = x ++ r ++ y ->
  forallb isspace x = true -> forallb isspace y = true ->
  r <> [] ->
  (forall c rest, r = c :: rest -> isspace c = false) ->
  (forall c rest, rev r = c :: rest -> isspace c = false) ->
  strip s = r.
Proof.
  intros -> Fx Fy N First Last. unfold strip, rstrip.
  rewrite lstrip_past_spaces by exact Fx.
  destruct r as [|c r]; [congruence|].
  rewrite (lstrip_keeps_head ((c :: r) ++ y) c (r ++ y) eq_refl
                             (First c r eq_refl)).
  rewrite rev_app_distr, lstrip_past_spaces by now rewrite forallb_rev.
  destruct (rev (c :: r)) as [|d l] eqn:E.
  - apply (f_equal (@length Z)) in E. rewrite length_rev in E. discriminate.
  - rewrite (lstrip_keeps_head (d :: l) d l eq_refl (Last d l eq_refl)).
    rewrite <- E. apply rev_involutive.
Qed.

Lemma int_of_digits (g : str) :
  forallb (in_class Digit) g = true -> g <> [] -> exists n, int_of g = Ok n.
Proof.
  intros F N. unfold int_of. destruct g as [|c g]; [congruence|]. clear N.
  generalize 0 as acc. revert F. generalize (c :: g) as l. clear c g.
  induction l as [|c l IH]; intros F acc.
  - now exists acc.
  - simpl in F. apply andb_true_iff in F. destruct F as [Fc F].
    cbn [fold_left bind]. unfold in_class in Fc.
    destruct (unicode_decimal c) as [d|]; [|discriminate].
    apply IH. exact F.
Qed.

Lemma num_date_here (s : str) (mo : re_match) :
  match_here num_date_re s = Some mo ->
  exists g1 g2,
    m_groups mo = [(2%nat, g2); (1%nat, g1)]
    /\ forallb (in_class Digit) g1 = true /\ g1 <> []
    /\ forallb (in_class Digit) g2 = true /\ g2 <> [].
Proof.
  unfold match_here, num_date_re. cbn [exec].
  destruct (exec_rep _ _ _ _ _ _) as [[rest caps]|] eqn:E; [|discriminate].
  intros [= <-]. cbn [m_groups].
  apply exec_rep_sound in E. destruct E as (g1 & s1 & -> & F1 & L1 & E).
  rewrite consumed_app in E.
  destruct (skip_prefix (text ".") s1) as [s2|] eqn:P; [|discriminate].
  apply exec_rep_sound in E. destruct E as (g2 & s3 & -> & F2 & L2 & E).
  rewrite consumed_app in E. injection E as <- <-.
  exists g1, g2. repeat split; auto.
  - intros ->. simpl in L1. lia.
  - intros ->. simpl in L2. lia.
Qed.

Lemma re_search_groups r : forall s mo,
  re_search r s = Some mo ->
  exists s' mo', match_here r s' = Some mo' /\ m_groups mo = m_groups mo'.
Proof.
  induction s as [|c s IH]; intros mo H; simpl in H.
  - destruct (match_here r []) eqn:E; [|discriminate].
    injection H as <-. eauto.
  - destruct (match_here r (c :: s)) eqn:E.
    + injection H as <-. eauto.
    + destruct (re_search r s) as [m1|] eqn:R; [|discriminate].
      injection H as <-. simpl. now apply IH.
Qed.

(** Both numbers of a [D.M] match can be read by [int]. *)
Lemma num_date_ints (s : str) (mo : re_match) :
  re_search num_date_re s = Some mo ->
  exists d m, int_group mo 1 = Ok d /\ int_group mo 2 = Ok m.
Proof.
  intros H. apply re_search_groups in H. destruct H as (s' & mo' & H & G).
  apply num_date_here in H. destruct H as (g1 & g2 & Hg & F1 & N1 & F2 & N2).
  destruct (int_of_digits g1 F1 N1) as [d Hd].
  destruct (int_of_digits g2 F2 N2) as [m Hm].
  exists d, m. unfold int_group, group. rewrite G, Hg. simpl. auto.
Qed.

Lemma matches_keyword (kw : str) :
  kw = kw_tomorrow \/ kw = kw_today \/ kw = kw_day_after ->
  matches strip_re kw.
Proof.
  unfold strip_re. cbn [alts]. intros [-> | [-> | ->]]; apply M_Group.
  - apply M_AltL. apply M_Lit.
  - apply M_AltR, M_AltL. apply M_Lit.
  - apply M_AltR, M_AltR, M_AltL. apply M_Lit.
Qed.

Lemma matches_named (m : str) : matches date_re m -> matches strip_re m.
Proof.
  unfold date_re, strip_re. cbn [alts]. intros H.
  inversion H as [| | | ? ? s1 s23 H1 H23 | | |]; subst.
  inversion H1; subst.
  inversion H23 as [| | | ? ? s2 s3 H2 H3 | | |]; subst.
  inversion H3; subst.
  apply M_Group. do 3 apply M_AltR. apply M_AltL.
  apply M_Seq; [assumption|]. apply M_Seq; assumption.
Qed.

Lemma matches_numeric (m : str) : matches num_date_re m -> matches strip_re m.
Proof.
  unfold num_date_re, strip_re. cbn [alts]. intros H.
  inversion H as [| | | ? ? s1 s23 H1 H23 | | |]; subst.
  inversion H1; subst.
  inversion H23 as [| | | ? ? s2 s3 H2 H3 | | |]; subst.
  inversion H3; subst.
  apply M_Group. do 4 apply M_AltR.
  apply M_Seq; [assumption|]. apply M_Seq; assumption.
Qed.

Lemma matches_strip_re_nonempty (m : str) : matches strip_re m -> m <> [].
Proof.
  unfold strip_re. cbn [alts]. intros H.
  inversion H as [| | | | | | ? ? ? H0]; subst. clear H.
  assert (Seq1 : forall c hi r s, matches (Seq (Rep c 1 hi) r) s -> s <> []).
  { intros c hi r s Hs. inversion Hs as [| | | ? ? s1 s2 H1 H2 | | |]; subst.
    inversion H1; subst. destruct s1; [simpl in *; lia | discriminate]. }
  repeat match goal with
         | H : matches (Alt _ _) _ |- _ => inversion H; subst; clear H
         end;
    try (match goal with H : matches (Lit _) _ |- _ => inversion H; subst end;
         discriminate);
    eapply Seq1; eassumption.
Qed.

(** Whenever a date is resolved, the removal pattern matches somewhere. *)
Lemma date_found now lq t :
  resolve_date now lq = Ok (Some t) ->
  exists a m b, lq = a ++ m ++ b /\ matches strip_re m.
Proof.
  intros H. apply resolve_date_cases in H.
  destruct H as [H | [[_ H] | (_ & _ & H)]].
  - unfold relative_day in H.
    destruct (contains kw_tomorrow lq) eqn:C1.
    { apply contains_iff in C1. destruct C1 as (a & b & ->).
      exists a, kw_tomorrow, b. split; [reflexivity|]. apply matches_keyword. auto. }
    destruct (contains kw_today lq) eqn:C2.
    { apply contains_iff in C2. destruct C2 as (a & b & ->).
      exists a, kw_today, b. split; [reflexivity|]. apply matches_keyword. auto. }
    destruct (contains kw_day_after lq) eqn:C3; [|discriminate].
    apply contains_iff in C3. destruct C3 as (a & b & ->).
    exists a, kw_day_after, b. split; [reflexivity|]. apply matches_keyword. auto.
  - unfold named_month in H.
    destruct (re_search date_re lq) as [mo|] eqn:R; [|discriminate].
    apply re_search_some in R. destruct R as (E & M & _).
    exists (m_before mo), (m_text mo), (m_after mo). split; [exact E|].
    now apply matches_named.
  - unfold numeric_date in H.
    destruct (re_search num_date_re lq) as [mo|] eqn:R; [|discriminate].
    apply re_search_some in R. destruct R as (E & M & _).
    exists (m_before mo), (m_text mo), (m_after mo). split; [exact E|].
    now apply matches_numeric.
Qed.

End Patterns.

(** ** The residual text *)

Section Residual.
Context {py : Python}.

(** Whenever a date is resolved, the text is split around the leftmost match
    of the removal pattern, and what is left is the two sides joined and
    stripped. *)
Lemma residual_split now lq t :
  resolve_date now lq = Ok (Some t) ->
  exists mo,
    re_search strip_re lq = Some mo
    /\ lq = m_before mo ++ m_text mo ++ m_after mo
    /\ matches strip_re (m_text mo)
    /\ (forall a m b, lq = a ++ m ++ b -> matches strip_re m ->
                      (length (m_before mo) <= length a)%nat)
    /\ residual lq = none_if_empty (strip (m_before mo ++ m_after mo)).
Proof.
  intros H. apply date_found in H. destruct H as (a & m & b & E & M).
  destruct (re_search strip_re lq) as [mo|] eqn:R.
  - exists mo. destruct (re_search_some _ _ _ R) as (S & Mt & L).
    repeat split; auto.
    unfold residual, re_sub_once. now rewrite R.
  - exfalso. now apply (re_search_none _ _ R a m b).
Qed.

Lemma none_if_empty_not_empty (s : str) : none_if_empty s <> Some [].
Proof. destruct s; discriminate. Qed.

Lemma none_if_empty_some (s r : str) : none_if_empty s = Some r -> r = s.
Proof. destruct s; [discriminate | now intros [= <-]]. Qed.

Lemma none_if_empty_some' (s r : str) :
  none_if_empty s = Some r -> r = s /\ s <> [].
Proof. destruct s; [discriminate | intros [= <-]; split; congruence]. Qed.

(** The residual is made of characters of the lowered text and is shorter
    than it. *)
Lemma residual_shorter now lq t r :
  resolve_date now lq = Ok (Some t) ->
  residual lq = Some r ->
  incl r lq /\ (length r < length lq)%nat.
Proof.
  intros H Hr. destruct (residual_split _ _ _ H) as (mo & _ & E & M & _ & R).
  rewrite R in Hr. apply none_if_empty_some in Hr. subst r.
  apply matches_strip_re_nonempty in M.
  split.
  - intros x Hx. apply strip_incl in Hx. rewrite E.
    apply in_app_or in Hx. apply in_or_app.
    destruct Hx; [now left | right; apply in_or_app; now right].
  - pose proof (strip_length (m_before mo ++ m_after mo)) as L.
    rewrite E. rewrite !length_app in *.
    destruct (m_text mo); [congruence | simpl; lia].
Qed.

End Residual.

(** ** Claims about the date resolver *)

Section ResolverClaims.
Context {py : Python}.

(** The two relative-day keywords that are reachable behave as the
    specification maps them. *)
Lemma tomorrow_interval now c q tmin tmax t1 t2 :
  contains kw_tomorrow (str_lower (c :: q)) = true ->
  add_days now 1 = Ok t1 -> add_days t1 1 = Ok t2 ->
  smart_filter now (Some (c :: q)) tmin tmax
  = Ok (mkargs (Some (strftime_midnight t1)) (Some (strftime_midnight t2))
               (residual (str_lower (c :: q)))).
Proof.
  intros C A1 A2. apply smart_filter_resolved; [|exact A2].
  apply resolve_date_relative. now apply relative_day_tomorrow.
Qed.

Lemma today_interval now c q tmin tmax t1 :
  contains kw_tomorrow (str_lower (c :: q)) = false ->
  contains kw_today (str_lower (c :: q)) = true ->
  add_days now 1 = Ok t1 ->
  smart_filter now (Some (c :: q)) tmin tmax
  = Ok (mkargs (Some (strftime_midnight now)) (Some (strftime_midnight t1))
               (residual (str_lower (c :: q)))).
Proof.
  intros C1 C2 A1. apply smart_filter_resolved; [|exact A1].
  apply resolve_date_relative. now apply relative_day_today.
Qed.

(** C1 (defect in the code).  A phrase with "послезавтра" (day after
    tomorrow) in it is resolved to the day interval of now + 1 day, the same
    as "завтра" (tomorrow), and not to now + 2 days: the test for "завтра",
    which every such phrase passes, comes first in the keyword chain, so the
    branch that adds two days is never reached. *)
Theorem C1_day_after_tomorrow_read_as_tomorrow
  now q tmin tmax t1 t2 :
  q <> [] ->
  valid_datetime now = true ->
  contains kw_day_after (str_lower q) = true ->
  add_days now 1 = Ok t1 -> add_days t1 1 = Ok t2 ->
  smart_filter now (Some q) tmin tmax
  = Ok (mkargs (Some (strftime_midnight t1)) (Some (strftime_midnight t2))
               (residual (str_lower q)))
  /\ add_days now 2 = Ok t2
  /\ toordinal t1 = toordinal now + 1
  /\ timestamp (midnight t2) - timestamp (midnight t1) = 24 * 3600.
Proof.
  intros Q V C A1 A2. destruct q as [|c q]; [congruence|]. clear Q.
  unfold valid_datetime in V. rewrite !andb_true_iff in V.
  destruct V as [[[[[[V _] _] _] _] _] _].
  split; [|split; [|split]].
  - apply tomorrow_interval; auto. now apply day_after_contains_tomorrow.
  - now apply (add_days_2 now t1 t2).
  - apply add_days_1 in A1. destruct A1 as [-> _]. now apply toordinal_next_day.
  - apply day_interval_width; [|exact A2].
    apply add_days_1 in A1. destruct A1 as [-> Y]. now apply next_day_valid.
Qed.

(** C2 (as amended).  At most one date is resolved per phrase, chosen in the
    order relative day, named month, numeric; and exactly one substring is
    removed, which is the leftmost match of the removal pattern by position:
    no date-like substring of the phrase starts before it. *)
Theorem C2_leftmost_date_phrase_is_removed now lq t :
  resolve_date now lq = Ok (Some t) ->
  (relative_day now lq = Ok (Some t)
   \/ (relative_day now lq = Ok None
       /\ named_month now lq None = Ok (Some t))
   \/ (relative_day now lq = Ok None
       /\ re_search date_re lq = None
       /\ numeric_date now lq None = Ok (Some t)))
  /\ exists before removed after,
       lq = before ++ removed ++ after
       /\ matches strip_re removed
       /\ removed <> []
       /\ residual lq = none_if_empty (strip (before ++ after))
       /\ forall a m b, lq = a ++ m ++ b -> matches strip_re m ->
                        (length before <= length a)%nat.
Proof.
  intros H. split; [now apply resolve_date_cases|].
  destruct (residual_split _ _ _ H) as (mo & _ & E & M & L & R).
  exists (m_before mo), (m_text mo), (m_after mo).
  repeat split; auto. now apply matches_strip_re_nonempty.
Qed.


(** A day and month name that are not a calendar date make the resolver
    raise: the named-month branch builds the date without a guard. *)
Lemma invalid_named_date now lq mo d :
  contains kw_tomorrow lq = false ->
  contains kw_today lq = false ->
  re_search date_re lq = Some mo ->
  int_group mo 1 = Ok d ->
  (forall m,
      m = match group mo 2 with
          | Some month_str => dict_get RU_MONTHS month_str (month now)
          | None => month now
          end ->
      valid_ymd (infer_year now m) m d = false) ->
  resolve_date now lq = Raise ValueError.
Proof.
  intros C1 C2 S Hd Bad. unfold resolve_date.
  rewrite (relative_day_none now _ C1 C2). cbn [bind].
  unfold named_month. rewrite S, Hd. cbn [bind]. unfold datetime_new.
  now rewrite (Bad _ eq_refl).
Qed.

(** A [D.M] reference that is not a calendar date resolves to no date, and
    the phrase is looked up as it was given. *)
Lemma invalid_numeric_date db now uid c q tmin tmax mo :
  contains kw_tomorrow (str_lower (c :: q)) = false ->
  contains kw_today (str_lower (c :: q)) = false ->
  re_search date_re (str_lower (c :: q)) = None ->
  re_search num_date_re (str_lower (c :: q)) = Some mo ->
  (forall d m, int_group mo 1 = Ok d -> int_group mo 2 = Ok m ->
               valid_ymd (infer_year now m) m d = false) ->
  resolve_date now (str_lower (c :: q)) = Ok None
  /\ smart_filter now (Some (c :: q)) tmin tmax
     = Ok (mkargs tmin tmax (Some (c :: q)))
  /\ smart_get_meetings db now uid (Some (c :: q)) tmin tmax
     = Ok (get_meetings db uid tmin tmax (Some (c :: q))).
Proof.
  intros C1 C2 N S Bad.
  assert (R : resolve_date now (str_lower (c :: q)) = Ok None).
  { unfold resolve_date. rewrite (relative_day_none now _ C1 C2). cbn [bind].
    unfold named_month. rewrite N. cbn [bind].
    unfold numeric_date. rewrite S.
    destruct (num_date_ints _ _ S) as (d & m & Hd & Hm).
    rewrite Hd, Hm. cbn [bind]. unfold datetime_new.
    now rewrite (Bad d m Hd Hm). }
  split; [exact R|].
  pose proof (smart_filter_unresolved now c q tmin tmax R) as F.
  split; [exact F|]. unfold smart_get_meetings. now rewrite F.
Qed.

(** C6.  When the date of a phrase is to come from a numeric [D.M] reference
    and that reference is not a calendar date, no date is resolved, nothing
    is raised, and the lookup runs with the caller's bounds and the whole
    text, as for a phrase without a date. *)
Theorem C6_invalid_numeric_date_is_no_date
  db now uid q tmin tmax mo :
  q <> [] ->
  contains kw_tomorrow (str_lower q) = false ->
  contains kw_today (str_lower q) = false ->
  re_search date_re (str_lower q) = None ->
  re_search num_date_re (str_lower q) = Some mo ->
  (forall d m, int_group mo 1 = Ok d -> int_group mo 2 = Ok m ->
               valid_ymd (infer_year now m) m d = false) ->
  resolve_date now (str_lower q) = Ok None
  /\ smart_filter now (Some q) tmin tmax = Ok (mkargs tmin tmax (Some q))
  /\ smart_get_meetings db now uid (Some q) tmin tmax
     = Ok (get_meetings db uid tmin tmax (Some q)).
Proof.
  intros Q. destruct q as [|c q]; [congruence|]. apply invalid_numeric_date.
Qed.

(** C7.  A call with a query text ends in one of two ways.  Either a date is
    resolved from the text: then the bounds handed to the store are the
    start of that day and the start of the next, 24 hours apart, whatever
    bounds the caller gave, and the substring filter is the residual text,
    which is never the caller's own query text.  Or no date is resolved:
    then the caller's bounds and text are handed on as they are.  The
    hypothesis on [str_lower] says that lower-casing leaves a string of
    already lower-cased characters unchanged. *)
Theorem C7_resolved_interval_replaces_bounds now q tmin tmax a :
  q <> [] ->
  valid_datetime now = true ->
  (forall s r, incl r (str_lower s) -> str_lower r = r) ->
  smart_filter now (Some q) tmin tmax = Ok a ->
  (exists t t',
      resolve_date now (str_lower q) = Ok (Some t)
      /\ add_days t 1 = Ok t'
      /\ timestamp (midnight t') - timestamp (midnight t) = 24 * 3600
      /\ a = mkargs (Some (strftime_midnight t)) (Some (strftime_midnight t'))
                    (residual (str_lower q))
      /\ arg_query a <> Some q)
  \/ (resolve_date now (str_lower q) = Ok None
      /\ a = mkargs tmin tmax (Some q)).
Proof.
  intros Q0 V Low F. destruct q as [|c q]; [congruence|]. clear Q0.
  unfold smart_filter in F.
  destruct (resolve_date now (str_lower (c :: q))) as [[t|]|] eqn:R;
    cbn [bind] in F; [| |discriminate].
  - left. destruct (add_days t 1) as [t'|] eqn:A; [|discriminate].
    injection F as <-. exists t, t'.
    split; [reflexivity|]. split; [exact A|]. split.
    + apply day_interval_width; [|exact A].
      now apply (resolve_date_valid now (str_lower (c :: q))).
    + split; [reflexivity|]. cbn [arg_query].
      intros E. destruct (residual_shorter _ _ _ _ R E) as [I L].
      rewrite (Low _ _ I) in L. lia.
  - right. injection F as <-. auto.
Qed.

(** C8 (as amended).  When a date is resolved, the residual text is the
    lower-cased input with the leftmost match of the removal pattern cut
    out, once, at its first occurrence, and white space stripped from both
    ends: it is the one text without white space at its ends that together
    with white space on either side makes up what is left.  When only white
    space is left it is [None], never the empty string, and the store is
    then asked without a substring condition.  The text cut out is a date
    phrase before which no date phrase starts; it need not be the phrase
    the date was resolved from. *)
Theorem C8_residual_text now q tmin tmax t :
  q <> [] ->
  resolve_date now (str_lower q) = Ok (Some t) ->
  exists before removed after,
    str_lower q = before ++ removed ++ after
    /\ matches strip_re removed
    /\ removed <> []
    /\ (forall a m b, str_lower q = a ++ m ++ b -> matches strip_re m ->
                      (length before <= length a)%nat)
    /\ before ++ after = remove_first removed (str_lower q)
    /\ (forall r,
          residual (str_lower q) = Some r <->
          r <> []
          /\ (exists x y, before ++ after = x ++ r ++ y
                          /\ forallb isspace x = true
                          /\ forallb isspace y = true)
          /\ (forall c rest, r = c :: rest -> isspace c = false)
          /\ (forall c rest, rev r = c :: rest -> isspace c = false))
    /\ (residual (str_lower q) = None <->
        forallb isspace (before ++ after) = true)
    /\ (forall a, smart_filter now (Some q) tmin tmax = Ok a ->
          arg_query a = residual (str_lower q)
          /\ (residual (str_lower q) = None ->
              forall r, where_query (arg_query a) r = true)).
Proof.
  intros Q R. destruct q as [|c q]; [congruence|]. clear Q.
  destruct (residual_split _ _ _ R) as (mo & S & E & M & L & Res).
  exists (m_before mo), (m_text mo), (m_after mo).
  split; [exact E|]. split; [exact M|].
  split; [now apply matches_strip_re_nonempty|].
  split; [exact L|].
  split.
  { transitivity (remove_first (m_text mo)
                               (m_before mo ++ m_text mo ++ m_after mo));
      [|now rewrite <- E].
    symmetry. apply remove_first_leftmost.
    intros a' b' E'. apply (L a' (m_text mo) b'); [|exact M].
    now rewrite <- E'. }
  set (rest := m_before mo ++ m_after mo) in *.
  split; [|split].
  - intros r. rewrite Res. split.
    + intros H. apply none_if_empty_some' in H. destruct H as [-> N].
      split; [exact N|]. split; [apply strip_sides|].
      split; [apply strip_first | apply strip_last].
    + intros (N & (x & y & H & Fx & Fy) & First & Last).
      rewrite (strip_unique rest x r y H Fx Fy N First Last).
      destruct r; [congruence | reflexivity].
  - rewrite Res, <- strip_nil_iff.
    destruct (strip rest); split; intros H; try reflexivity; discriminate.
  - intros a F. unfold smart_filter in F. rewrite R in F. cbn [bind] in F.
    destruct (add_days t 1); [|discriminate]. injection F as <-.
    cbn [arg_query]. split; [reflexivity|].
    intros N r. now rewrite N.
Qed.

End ResolverClaims.

(** ** The store: ordering *)

Lemma str_leb_refl (a : str) : str_leb a a = true.
Proof.
  induction a as [|x a IH]; [reflexivity|]. simpl.
  rewrite Z.ltb_irrefl, Z.eqb_refl. exact IH.
Qed.

Lemma str_leb_total (a b : str) : str_leb a b = false -> str_leb b a = true.
Proof.
  revert b; induction a as [|x a IH]; intros [|y b]; simpl; try easy.
  destruct (Z.ltb_spec x y); [discriminate|].
  destruct (Z.eqb_spec x y) as [->|N].
  - rewrite Z.ltb_irrefl, Z.eqb_refl. apply IH.
  - intros _. destruct (Z.ltb_spec y x); [reflexivity | lia].
Qed.

Lemma str_leb_trans (a b c : str) :
  str_leb a b = true -> str_leb b c = true -> str_leb a c = true.
Proof.
  revert b c; induction a as [|x a IH]; intros [|y b] [|z c]; simpl; try easy.
  destruct (Z.ltb_spec x y) as [Lxy|Lxy].
  - intros _. destruct (Z.ltb_spec y z) as [Lyz|Lyz].
    + intros _. destruct (Z.ltb_spec x z); [reflexivity | lia].
    + destruct (Z.eqb_spec y z) as [->|]; [|discriminate].
      intros _. destruct (Z.ltb_spec x z); [reflexivity | lia].
  - destruct (Z.eqb_spec x y) as [->|]; [|discriminate].
    intros Hab. destruct (Z.ltb_spec y z); [reflexivity|].
    destruct (Z.eqb_spec y z); [|discriminate]. now apply IH.
Qed.

Section Ordering.
Variable le : meeting -> meeting -> bool.
Hypothesis le_total : forall a b, le a b = false -> le b a = true.
Hypothesis le_trans : forall a b c, le a b = true -> le b c = true -> le a c = true.

Lemma insert_by_perm (x : meeting) (l : list meeting) :
  Permutation (insert_by le x l) (x :: l).
Proof.
  induction l as [|y l IH]; simpl; [reflexivity|].
  destruct (le x y); [reflexivity|].
  rewrite IH. apply perm_swap.
Qed.

Lemma order_by_perm (l : list meeting) : Permutation (order_by le l) l.
Proof.
  induction l as [|x l IH]; simpl; [reflexivity|].
  rewrite insert_by_perm. now constructor.
Qed.

Lemma order_by_In (l : list meeting) (r : meeting) :
  In r (order_by le l) <-> In r l.
Proof.
  split; apply Permutation_in;
    [apply order_by_perm | apply Permutation_sym, order_by_perm].
Qed.

Lemma insert_by_sorted (x : meeting) (l : list meeting) :
  StronglySorted (fun a b => le a b = true) l ->
  StronglySorted (fun a b => le a b = true) (insert_by le x l).
Proof.
  induction 1 as [|y l S IH F]; simpl.
  - constructor; constructor.
  - destruct (le x y) eqn:E.
    + constructor; [now constructor|]. constructor; [exact E|].
      eapply Forall_impl; [|exact F]. intros z Hz. now apply (le_trans x y z).
    + constructor; [exact IH|].
      apply (Permutation_Forall (Permutation_sym (insert_by_perm x l))).
      constructor; [now apply le_total | exact F].
Qed.

Lemma order_by_sorted (l : list meeting) :
  StronglySorted (fun a b => le a b = true) (order_by le l).
Proof.
  induction l as [|x l IH]; simpl; [constructor | now apply insert_by_sorted].
Qed.

(** The first row of an ordered selection precedes every selected row. *)
Lemma order_by_head (l : list meeting) (r : meeting) (rest : list meeting) :
  order_by le l = r :: rest ->
  In r l /\ forall r', In r' l -> le r r' = true.
Proof.
  intros E. pose proof (order_by_sorted l) as S. rewrite E in S.
  split.
  - apply order_by_In. rewrite E. now left.
  - intros r' Hr'. apply order_by_In in Hr'. rewrite E in Hr'.
    destruct Hr' as [<-|Hr'].
    + destruct (le r r) eqn:R; [reflexivity|].
      pose proof (le_total r r R). congruence.
    + inversion S as [|? ? _ F]; subst.
      rewrite Forall_forall in F. now apply F.
Qed.

End Ordering.

Lemma get_meetings_sorted db uid lo hi q :
  StronglySorted (fun a b => str_leb (fetched_start a) (fetched_start b) = true)
                 (get_meetings db uid lo hi q).
Proof.
  unfold get_meetings.
  pose proof (order_by_sorted by_start_asc
                (fun a b => str_leb_total (start_time a) (start_time b))
                (fun a b c => str_leb_trans (start_time a) (start_time b) (start_time c))
                (filter (get_meetings_where uid lo hi q) db)) as S.
  induction S as [|r l S IH F]; simpl; constructor; [exact IH|].
  rewrite Forall_map. eapply Forall_impl; [|exact F]. now intros r'.
Qed.

Lemma get_meetings_from_store db uid lo hi q f :
  In f (get_meetings db uid lo hi q) ->
  exists r, In r db /\ select r = f /\ user_id r = uid.
Proof.
  unfold get_meetings. rewrite in_map_iff. intros (r & E & I).
  apply order_by_In in I. apply filter_In in I. destruct I as [I W].
  exists r. repeat split; auto.
  unfold get_meetings_where in W. rewrite !andb_true_iff in W.
  destruct W as [[[W _] _] _]. now apply Z.eqb_eq.
Qed.

Lemma str_eqb_refl (a : str) : str_eqb a a = true.
Proof. unfold str_eqb. destruct (list_eq_dec Z.eq_dec a a); congruence. Qed.

Lemma natural_key_own (r : meeting) :
  natural_key (user_id r) (summary r) (start_time r) r = true.
Proof.
  unfold natural_key. now rewrite Z.eqb_refl, !str_eqb_refl.
Qed.

(** ** Claims about candidate resolution and routing *)

Section LookupClaims.
Context {py : Python}.

Lemma list_candidates_ok (ms : list fetched) :
  (forall f, In f ms -> fromisoformat (fetched_start f) <> None) ->
  list_candidates ms = Ok (Ambiguous ms).
Proof.
  intros H. unfold list_candidates.
  replace (forallb _ ms) with true; [reflexivity|].
  symmetry. apply forallb_forall. intros f Hf. specialize (H f Hf).
  now destruct (fromisoformat (fetched_start f)).
Qed.

Lemma smart_get_meetings_inv db now uid q lo hi ms :
  smart_get_meetings db now uid q lo hi = Ok ms ->
  exists a, ms = get_meetings db uid (arg_time_min a) (arg_time_max a) (arg_query a).
Proof.
  unfold smart_get_meetings.
  destruct (smart_filter now q lo hi) as [a|]; [|discriminate].
  intros [= <-]. now exists a.
Qed.

(** C3.  For the candidate list [ms] that the filter of an update request
    yields: when it is empty the answer is not-found and the table is
    unchanged; when it is one record, the update statement is run with that
    record's key, and the record is changed in the table; when it has two or
    more records, the whole list, which is in ascending order of start time,
    is handed back (by the summary update as its second result, by the two
    handlers as the enumerated answer when every start time can be
    rendered), and the table is unchanged. *)
Theorem C3_candidate_resolution db now uid q new ms :
  q <> [] -> new <> [] ->
  smart_get_meetings db now uid (Some q) None None = Ok ms ->
  (ms = [] ->
     update_meeting_summary db now uid q new = Ok (false, None, db)
     /\ handle_update_summary db now uid (Some q) (Some new)
        = (NotFound q, db)
     /\ handle_update_location db now uid (Some q) (Some new)
        = (NotFound q, db))
  /\ (forall f, ms = [f] ->
        update_meeting_summary db now uid q new
        = Ok (true, None,
              update_summary_stmt db uid (fetched_summary f) (fetched_start f) new)
        /\ handle_update_summary db now uid (Some q) (Some new)
           = (SummaryUpdated new,
              update_summary_stmt db uid (fetched_summary f) (fetched_start f) new)
        /\ handle_update_location db now uid (Some q) (Some new)
           = (LocationUpdated new,
              update_meeting_location db uid (fetched_summary f) (fetched_start f) new)
        /\ exists r,
             In r db /\ select r = f /\ user_id r = uid
             /\ In (mkmeeting (id r) (user_id r) new (start_time r)
                              (duration_minutes r) (location r))
                   (update_summary_stmt db uid (fetched_summary f) (fetched_start f) new)
             /\ In (mkmeeting (id r) (user_id r) (summary r) (start_time r)
                              (duration_minutes r) (Some new))
                   (update_meeting_location db uid (fetched_summary f) (fetched_start f) new))
  /\ ((2 <= length ms)%nat ->
        update_meeting_summary db now uid q new = Ok (false, Some ms, db)
        /\ StronglySorted
             (fun a b => str_leb (fetched_start a) (fetched_start b) = true) ms
        /\ handle_update_summary db now uid (Some q) (Some new)
           = (match list_candidates ms with Ok r => r | Raise _ => Apology end, db)
        /\ handle_update_location db now uid (Some q) (Some new)
           = (match list_candidates ms with Ok r => r | Raise _ => Apology end, db)
        /\ ((forall f, In f ms -> fromisoformat (fetched_start f) <> None) ->
            list_candidates ms = Ok (Ambiguous ms))).
Proof.
  intros Q N. destruct q as [|c q]; [congruence|].
  destruct new as [|n new]; [congruence|]. clear Q N.
  intros H.
  unfold handle_update_summary, handle_update_location, update_meeting_summary.
  rewrite H. cbn [bind guarded].
  split; [|split].
  - intros ->. repeat split.
  - intros [[[s st] d] l] ->. cbn [bind guarded fetched_summary fetched_start fst snd].
    repeat split.
    destruct (smart_get_meetings_inv _ _ _ _ _ _ _ H) as [a Ha].
    destruct (get_meetings_from_store db uid (arg_time_min a) (arg_time_max a)
                (arg_query a) (s, st, d, l)) as (r & I & S & U).
    { rewrite <- Ha. now left. }
    exists r. repeat split; auto.
    + unfold update_summary_stmt.
      apply in_map_iff. exists r. split; [|exact I].
      injection S as <- <- _ _. rewrite <- U. now rewrite natural_key_own.
    + unfold update_meeting_location.
      apply in_map_iff. exists r. split; [|exact I].
      injection S as <- <- _ _. rewrite <- U. now rewrite natural_key_own.
  - intros L. destruct ms as [|f1 [|f2 ms]]; [simpl in L; lia | simpl in L; lia |].
    destruct f1 as [[[s st] d] l].
    cbn [bind guarded].
    split; [reflexivity|]. split.
    + destruct (smart_get_meetings_inv _ _ _ _ _ _ _ H) as [a ->].
      apply get_meetings_sorted.
    + split; [|split].
      * now destruct (list_candidates _).
      * now destruct (list_candidates _).
      * apply list_candidates_ok.
Qed.

(** C4.  The lookup of the route and location actions never answers with a
    list of candidates.  When any meeting of the owner matches the text in
    title or location, the first tier settles on one matching meeting whose
    start time no other matching meeting exceeds: when that start time can
    be read, the event built from this meeting is what the lookup returns
    and what the route is answered from, and the second tier is not
    consulted; when it cannot be read, the lookup raises and the answer is
    the apology.  Only when none matches does the lookup go through
    [smart_get_meetings], of whose candidates, ordered by ascending start
    time, it takes the first in the same way. *)
Theorem C4_routing_lookup db now uid q :
  (forall query summ ms,
      fst (handle_route db now uid query summ) <> Ambiguous ms)
  /\ (forall r0,
        In r0 db -> user_id r0 = uid -> matches_query q r0 = true ->
        exists r,
          In r db /\ user_id r = uid /\ matches_query q r = true
          /\ (forall r', In r' db -> user_id r' = uid ->
                         matches_query q r' = true ->
                         str_leb (start_time r') (start_time r) = true)
          /\ (forall t,
                fromisoformat (start_time r) = Some t ->
                find_meeting_by_query db uid q
                = Ok (Some (mkevent (summary r)
                                    (location_or_missing (location r)) t))
                /\ route_lookup db now uid q
                   = Ok (Some (mkevent (summary r)
                                       (location_or_missing (location r)) t))
                /\ (q <> [] -> forall summ,
                      handle_route db now uid (Some q) summ
                      = (RouteTo (mkevent (summary r)
                                          (location_or_missing (location r)) t),
                         db)))
          /\ (fromisoformat (start_time r) = None ->
                find_meeting_by_query db uid q = Raise ValueError
                /\ route_lookup db now uid q = Raise ValueError
                /\ (q <> [] -> forall summ,
                      handle_route db now uid (Some q) summ = (Apology, db))))
  /\ ((forall r, In r db -> user_id r = uid -> matches_query q r = false) ->
        find_meeting_by_query db uid q = Ok None
        /\ (forall ms,
               smart_get_meetings db now uid (Some q) None None = Ok ms ->
               StronglySorted
                 (fun a b => str_leb (fetched_start a) (fetched_start b) = true)
                 ms
               /\ match ms with
                  | [] => route_lookup db now uid q = Ok None
                  | (summ, st, _, loc) :: _ =>
                    (forall t,
                        fromisoformat st = Some t ->
                        route_lookup db now uid q
                        = Ok (Some (mkevent summ (location_or_missing loc) t)))
                    /\ (fromisoformat st = None ->
                        route_lookup db now uid q = Raise ValueError)
                  end)
        /\ (forall e,
               smart_get_meetings db now uid (Some q) None None = Raise e ->
               route_lookup db now uid q = Raise e)).
Proof.
  split; [|split].
  - intros query summ ms. unfold handle_route.
    destruct (if truthy query then query else summ) as [[|x qq]|]; try discriminate.
    destruct (route_lookup db now uid (x :: qq)) as [[e|]|]; discriminate.
  - intros r0 I0 U0 M0.
    destruct (find_candidates db uid q) as [|r rest] eqn:E.
    + exfalso.
      assert (In r0 (find_candidates db uid q)) as X.
      { apply order_by_In, filter_In. split; [exact I0|].
        rewrite M0. now apply Z.eqb_eq in U0 as ->. }
      rewrite E in X. destruct X.
    + pose proof E as E'. unfold find_candidates in E'.
      apply order_by_head in E'.
      2: { intros a b. apply str_leb_total. }
      2: { intros a b c' Hab Hbc. unfold by_start_desc in *.
           now apply (str_leb_trans _ (start_time b)). }
      destruct E' as [I Top]. apply filter_In in I. destruct I as [I S].
      apply andb_true_iff in S. destruct S as [U M].
      apply Z.eqb_eq in U.
      exists r. split; [exact I|]. split; [exact U|]. split; [exact M|].
      split; [|split].
      * intros r' I' U' M'. apply (Top r'). apply filter_In. split; [exact I'|].
        rewrite M'. now apply Z.eqb_eq in U' as ->.
      * intros t Ht.
        assert (F : find_meeting_by_query db uid q
                    = Ok (Some (mkevent (summary r)
                                        (location_or_missing (location r)) t))).
        { unfold find_meeting_by_query. rewrite E. unfold make_event.
          now rewrite Ht. }
        assert (R : route_lookup db now uid q
                    = Ok (Some (mkevent (summary r)
                                        (location_or_missing (location r)) t)))
          by (unfold route_lookup; now rewrite F).
        split; [exact F|]. split; [exact R|].
        intros Q summ. unfold handle_route.
        destruct q as [|c q']; [congruence|]. cbn [truthy]. now rewrite R.
      * intros Hn.
        assert (F : find_meeting_by_query db uid q = Raise ValueError).
        { unfold find_meeting_by_query. rewrite E. unfold make_event.
          now rewrite Hn. }
        assert (R : route_lookup db now uid q = Raise ValueError)
          by (unfold route_lookup; now rewrite F).
        split; [exact F|]. split; [exact R|].
        intros Q summ. unfold handle_route.
        destruct q as [|c q']; [congruence|]. cbn [truthy]. now rewrite R.
  - intros None_matches.
    assert (E : find_candidates db uid q = []).
    { unfold find_candidates.
      destruct (order_by by_start_desc _) as [|r rest] eqn:E; [reflexivity|].
      exfalso.
      assert (In r (r :: rest)) as X by now left.
      rewrite <- E in X. apply order_by_In, filter_In in X. destruct X as [I S].
      apply andb_true_iff in S. destruct S as [U M]. apply Z.eqb_eq in U.
      rewrite (None_matches r I U) in M. discriminate. }
    assert (F : find_meeting_by_query db uid q = Ok None)
      by (unfold find_meeting_by_query; now rewrite E).
    split; [exact F|]. split.
    + intros ms H. split.
      * destruct (smart_get_meetings_inv _ _ _ _ _ _ _ H) as [a ->].
        apply get_meetings_sorted.
      * unfold route_lookup. rewrite F. cbn [bind]. rewrite H. cbn [bind].
        destruct ms as [|[[[summ st] d] loc] rest]; [reflexivity|].
        unfold make_event. split.
        -- intros t ->. reflexivity.
        -- intros ->. reflexivity.
    + intros e H. unfold route_lookup. rewrite F. cbn [bind]. now rewrite H.
Qed.

End LookupClaims.

(** ** The store: [LIKE] *)

Lemma pattern_compare_percent (pat s : str) :
  pattern_compare (PERCENT :: pat) s
  = pattern_compare pat s
    || match s with
       | [] => false
       | _ :: s' => pattern_compare (PERCENT :: pat) s'
       end.
Proof. destruct s; reflexivity. Qed.

Lemma pattern_compare_percent_only (s : str) : pattern_compare [PERCENT] s = true.
Proof.
  induction s as [|d s IH]; rewrite pattern_compare_percent; [reflexivity|].
  rewrite IH. apply orb_true_r.
Qed.





(** [c_string] keeps a text without U+0000 and cuts any other text before
    its first U+0000. *)
Lemma c_string_no_nul (s : str) : ~ In 0 s -> c_string s = s.
Proof.
  induction s as [|c s IH]; [reflexivity|]. intros N. simpl.
  destruct (Z.eqb_spec c 0) as [->|_]; [exfalso; apply N; now left|].
  rewrite IH; [reflexivity|]. intros I. apply N. now right.
Qed.





(** ** The example runtime *)

Lemma ru_lower_char_twice (c : Z) :
  Ru.lower_char (Ru.lower_char c) = Ru.lower_char c.
Proof.
  unfold Ru.lower_char.
  destruct (Z.leb_spec 65 c); destruct (Z.leb_spec c 90);
    destruct (Z.leb_spec 1040 c); destruct (Z.leb_spec c 1071);
    destruct (Z.leb_spec 1024 c); destruct (Z.leb_spec c 1039); simpl;
    repeat match goal with
           | |- context [?a <=? ?b] => destruct (Z.leb_spec a b); simpl
           end; lia.
Qed.

Lemma ru_lower_stable (s r : str) :
  incl r (@str_lower Ru.python s) -> @str_lower Ru.python r = r.
Proof.
  simpl. intros I. induction r as [|x r IH]; [reflexivity|].
  simpl. f_equal.
  - assert (In x (map Ru.lower_char s)) as X by (apply I; now left).
    apply in_map_iff in X. destruct X as (y & <- & _). apply ru_lower_char_twice.
  - apply IH. intros y Hy. apply I. now right.
Qed.

(** * Further properties of the store *)

Section StoreFacts.
Context {py : Python}.

Lemma str_eqb_eq (a b : str) : str_eqb a b = true <-> a = b.
Proof.
  unfold str_eqb. destruct (list_eq_dec Z.eq_dec a b); split; congruence.
Qed.

Lemma natural_key_iff uid summ st r :
  natural_key uid summ st r = true
  <-> user_id r = uid /\ summary r = summ /\ start_time r = st.
Proof.
  unfold natural_key. rewrite !andb_true_iff, Z.eqb_eq, !str_eqb_eq. tauto.
Qed.

Lemma filter_map_fixed {A} (P : A -> bool) (f : A -> A) (l : list A) :
  (forall x, P (f x) = P x) -> (forall x, P x = true -> f x = x) ->
  filter P (map f l) = filter P l.
Proof.
  intros HP Hf. induction l as [|x l IH]; [reflexivity|].
  simpl. rewrite HP. destruct (P x) eqn:E; [|exact IH].
  rewrite (Hf x E), IH. reflexivity.
Qed.

(** A selection that asks for one owner does not see what an update under
    another owner's key does. *)
Lemma filter_owner_update (P : meeting -> bool) (f : meeting -> meeting)
  (uid uid' : Z) (db : table) :
  uid <> uid' ->
  (forall r, P r = true -> user_id r = uid') ->
  (forall r, user_id (f r) = user_id r) ->
  (forall r, user_id r <> uid -> f r = r) ->
  filter P (map f db) = filter P db.
Proof.
  intros N Own Keep Fix. induction db as [|r db IH]; [reflexivity|].
  simpl. destruct (Z.eq_dec (user_id r) uid) as [E|E].
  - assert (P r = false) as ->.
    { destruct (P r) eqn:X; [|reflexivity]. apply Own in X. congruence. }
    assert (P (f r) = false) as ->; [|exact IH].
    destruct (P (f r)) eqn:X; [|reflexivity].
    apply Own in X. rewrite Keep in X. congruence.
  - rewrite (Fix r E), IH. reflexivity.
Qed.

Lemma update_location_user uid summ st new r :
  user_id (if natural_key uid summ st r
           then mkmeeting (id r) (user_id r) (summary r) (start_time r)
                          (duration_minutes r) (Some new)
           else r) = user_id r.
Proof. now destruct (natural_key uid summ st r). Qed.

Lemma update_summary_user uid summ st new r :
  user_id (if natural_key uid summ st r
           then mkmeeting (id r) (user_id r) new (start_time r)
                          (duration_minutes r) (location r)
           else r) = user_id r.
Proof. now destruct (natural_key uid summ st r). Qed.

Lemma natural_key_other uid summ st r :
  user_id r <> uid -> natural_key uid summ st r = false.
Proof.
  intros N. destruct (natural_key uid summ st r) eqn:K; [|reflexivity].
  apply natural_key_iff in K. tauto.
Qed.

Lemma where_owner uid lo hi q r :
  get_meetings_where uid lo hi q r = true -> user_id r = uid.
Proof.
  unfold get_meetings_where. rewrite !andb_true_iff, Z.eqb_eq. tauto.
Qed.

(** X1.  What one owner writes, by either update statement or by a create
    that stores a meeting, leaves every listing and every lookup of another
    owner as it was. *)
Theorem writes_leave_other_owners_alone
  db uid uid' summ st new dur loc lo hi q q' :
  uid <> uid' ->
  (get_meetings (update_meeting_location db uid summ st new) uid' lo hi q
   = get_meetings db uid' lo hi q
   /\ get_meetings (update_summary_stmt db uid summ st new) uid' lo hi q
      = get_meetings db uid' lo hi q
   /\ (forall db', create_meeting db uid summ st dur loc = Ok db' ->
         get_meetings db' uid' lo hi q = get_meetings db uid' lo hi q))
  /\ (find_meeting_by_query (update_meeting_location db uid summ st new) uid' q'
      = find_meeting_by_query db uid' q'
      /\ find_meeting_by_query (update_summary_stmt db uid summ st new) uid' q'
         = find_meeting_by_query db uid' q'
      /\ (forall db', create_meeting db uid summ st dur loc = Ok db' ->
            find_meeting_by_query db' uid' q'
            = find_meeting_by_query db uid' q')).
Proof.
  intros N.
  assert (Own2 : forall r, (user_id r =? uid') && matches_query q' r = true ->
                           user_id r = uid').
  { intros r H. apply andb_true_iff in H. now apply Z.eqb_eq. }
  split; (split; [|split]).
  - unfold get_meetings, update_meeting_location. f_equal. f_equal.
    apply (filter_owner_update _ _ uid uid'); auto.
    + intros r. apply where_owner.
    + intros r. apply update_location_user.
    + intros r E. now rewrite natural_key_other.
  - unfold get_meetings, update_summary_stmt. f_equal. f_equal.
    apply (filter_owner_update _ _ uid uid'); auto.
    + intros r. apply where_owner.
    + intros r. apply update_summary_user.
    + intros r E. now rewrite natural_key_other.
  - intros db' C. unfold create_meeting in C.
    destruct (fits_int64 dur); [|discriminate]. injection C as <-.
    unfold get_meetings. rewrite filter_app. simpl.
    unfold get_meetings_where at 2. simpl.
    destruct (Z.eqb_spec uid uid'); [congruence|]. simpl.
    now rewrite app_nil_r.
  - unfold find_meeting_by_query, find_candidates, update_meeting_location.
    rewrite (filter_owner_update _ _ uid uid'); auto.
    + intros r. apply update_location_user.
    + intros r E. now rewrite natural_key_other.
  - unfold find_meeting_by_query, find_candidates, update_summary_stmt.
    rewrite (filter_owner_update _ _ uid uid'); auto.
    + intros r. apply update_summary_user.
    + intros r E. now rewrite natural_key_other.
  - intros db' C. unfold create_meeting in C.
    destruct (fits_int64 dur); [|discriminate]. injection C as <-.
    unfold find_meeting_by_query, find_candidates.
    rewrite filter_app. simpl.
    destruct (Z.eqb_spec uid uid'); [congruence|]. simpl.
    now rewrite app_nil_r.
Qed.

(** X2.  An update statement keeps the rows in place with their ids, owners,
    start times and durations (the location update also keeps the titles,
    the title update the locations), and running the same statement a second
    time changes nothing more. *)
Theorem updates_keep_rows_and_are_idempotent db uid summ st new :
  (map id (update_meeting_location db uid summ st new) = map id db
   /\ map user_id (update_meeting_location db uid summ st new) = map user_id db
   /\ map start_time (update_meeting_location db uid summ st new) = map start_time db
   /\ map duration_minutes (update_meeting_location db uid summ st new)
      = map duration_minutes db
   /\ map summary (update_meeting_location db uid summ st new) = map summary db)
  /\ (map id (update_summary_stmt db uid summ st new) = map id db
      /\ map user_id (update_summary_stmt db uid summ st new) = map user_id db
      /\ map start_time (update_summary_stmt db uid summ st new) = map start_time db
      /\ map duration_minutes (update_summary_stmt db uid summ st new)
         = map duration_minutes db
      /\ map location (update_summary_stmt db uid summ st new) = map location db)
  /\ update_meeting_location (update_meeting_location db uid summ st new)
                             uid summ st new
     = update_meeting_location db uid summ st new
  /\ update_summary_stmt (update_summary_stmt db uid summ st new) uid summ st new
     = update_summary_stmt db uid summ st new.
Proof.
  unfold update_meeting_location, update_summary_stmt.
  split; [|split; [|split]].
  - repeat split; rewrite map_map; apply map_ext; intros r;
      now destruct (natural_key uid summ st r).
  - repeat split; rewrite map_map; apply map_ext; intros r;
      now destruct (natural_key uid summ st r).
  - rewrite map_map. apply map_ext. intros r.
    destruct (natural_key uid summ st r) eqn:K; [|now rewrite K].
    unfold natural_key in *. cbn [user_id summary start_time]. now rewrite K.
  - rewrite map_map. apply map_ext. intros r.
    destruct (natural_key uid summ st r) eqn:K; [|now rewrite K].
    clear K. cbn [id user_id start_time duration_minutes location].
    destruct (natural_key uid summ st (mkmeeting _ _ _ _ _ _)); reflexivity.
Qed.

End StoreFacts.

Section StoreRoundTrips.
Context {py : Python}.

(** Every text matches the pattern made of itself between two [%], also a
    text with wildcards or U+0000 in it. *)
Lemma pattern_compare_refl (p : str) : pattern_compare p p = true.
Proof.
  induction p as [|c p IH]; [reflexivity|].
  destruct (Z.eqb_spec c PERCENT) as [->|N].
  - rewrite pattern_compare_percent.
    replace (pattern_compare (PERCENT :: p) p) with true; [apply orb_true_r|].
    symmetry. rewrite pattern_compare_percent, IH. reflexivity.
  - simpl. apply Z.eqb_neq in N. rewrite N, IH.
    unfold like_char_eq. rewrite Z.eqb_refl. now rewrite orb_true_r.
Qed.

Lemma pattern_compare_self_prefix (q : str) :
  pattern_compare (q ++ [PERCENT]) q = true.
Proof.
  induction q as [|c q IH]; [reflexivity|].
  change ((c :: q) ++ [PERCENT]) with (c :: (q ++ [PERCENT])).
  destruct (Z.eqb_spec c PERCENT) as [->|N].
  - rewrite pattern_compare_percent.
    replace (pattern_compare (PERCENT :: q ++ [PERCENT]) q) with true;
      [apply orb_true_r|].
    symmetry. rewrite pattern_compare_percent, IH. reflexivity.
  - simpl. apply Z.eqb_neq in N. rewrite N, IH.
    unfold like_char_eq. rewrite Z.eqb_refl. now rewrite orb_true_r.
Qed.

Lemma c_string_app_percent (q : str) :
  c_string (q ++ [PERCENT]) = c_string q ++ [PERCENT]
  \/ c_string (q ++ [PERCENT]) = c_string q.
Proof.
  induction q as [|c q IH]; [now left|]. simpl.
  destruct (c =? 0); [now right|].
  destruct IH as [-> | ->]; [now left | now right].
Qed.

Lemma like_self (q : str) : like (PERCENT :: q ++ [PERCENT]) q = true.
Proof.
  unfold like.
  change (c_string (PERCENT :: q ++ [PERCENT]))
    with (PERCENT :: c_string (q ++ [PERCENT])).
  rewrite pattern_compare_percent.
  destruct (c_string_app_percent q) as [-> | ->].
  - now rewrite pattern_compare_self_prefix.
  - now rewrite pattern_compare_refl.
Qed.

Lemma like_query_self (q : str) : like_query q (Some q) = true.
Proof. exact (like_self q). Qed.

Lemma matches_own_summary (r : meeting) : matches_query (summary r) r = true.
Proof. unfold matches_query. now rewrite like_query_self. Qed.

Lemma get_meetings_In db uid lo hi q f :
  In f (get_meetings db uid lo hi q) <->
  exists r, In r db /\ select r = f /\ get_meetings_where uid lo hi q r = true.
Proof.
  unfold get_meetings. rewrite in_map_iff. split.
  - intros (r & E & I). apply order_by_In, filter_In in I. now exists r.
  - intros (r & I & E & W). exists r. split; [exact E|].
    apply order_by_In, filter_In. auto.
Qed.

(** X3.  With both bounds given and no query text, [get_meetings] returns
    the rows of the owner whose start time is at or after the lower bound
    and before the upper bound: each of them once, none else, in ascending
    order of start time. *)
Theorem get_meetings_returns_the_window db uid lo hi :
  lo <> [] -> hi <> [] ->
  (forall f,
      In f (get_meetings db uid (Some lo) (Some hi) None) <->
      exists r, In r db /\ select r = f /\ user_id r = uid
                /\ str_leb lo (start_time r) = true
                /\ str_leb hi (start_time r) = false)
  /\ Permutation
       (get_meetings db uid (Some lo) (Some hi) None)
       (map select
            (filter (fun r => (user_id r =? uid)
                              && str_leb lo (start_time r)
                              && negb (str_leb hi (start_time r))) db))
  /\ StronglySorted
       (fun a b => str_leb (fetched_start a) (fetched_start b) = true)
       (get_meetings db uid (Some lo) (Some hi) None).
Proof.
  intros L H. destruct lo as [|l0 lo]; [congruence|].
  destruct hi as [|h0 hi]; [congruence|]. clear L H.
  split; [|split].
  - intros f. rewrite get_meetings_In. split.
    + intros (r & I & E & W). exists r.
      unfold get_meetings_where, where_time_min, where_time_max, where_query in W.
      rewrite !andb_true_iff, Z.eqb_eq, negb_true_iff in W. tauto.
    + intros (r & I & E & U & A & B). exists r.
      unfold get_meetings_where, where_time_min, where_time_max, where_query.
      rewrite !andb_true_iff, Z.eqb_eq, negb_true_iff. tauto.
  - unfold get_meetings. apply Permutation_map.
    rewrite order_by_perm.
    erewrite filter_ext; [reflexivity|]. intros r.
    unfold get_meetings_where, where_time_min, where_time_max, where_query.
    now rewrite andb_true_r.
  - apply get_meetings_sorted.
Qed.

Lemma filter_no_owner (P : meeting -> bool) (db : table) (uid : Z) :
  (forall r, In r db -> user_id r <> uid) ->
  (forall r, P r = true -> user_id r = uid) ->
  filter P db = [].
Proof.
  intros Fresh Own. induction db as [|r l IH]; [reflexivity|].
  simpl. destruct (P r) eqn:X.
  - apply Own in X. exfalso. apply (Fresh r); [now left | exact X].
  - apply IH. intros r' I. apply Fresh. now right.
Qed.

(** X4.  A meeting with a duration that fits 64 bits is created, and is
    then found by its own title: it is among what [get_meetings] returns for
    that title, and when the owner had no meeting before, it is all that is
    returned and it is what [find_meeting_by_query] settles on. *)
Theorem created_meeting_is_found db uid summ st dur loc :
  fits_int64 dur = true ->
  exists db',
    create_meeting db uid summ st dur loc = Ok db'
    /\ In (summ, st, dur, loc) (get_meetings db' uid None None (Some summ))
    /\ ((forall r, In r db -> user_id r <> uid) ->
        get_meetings db' uid None None (Some summ) = [(summ, st, dur, loc)]
        /\ find_meeting_by_query db' uid summ
           = (e <- make_event summ loc st ;; Ok (Some e))).
Proof.
  intros Fits. unfold create_meeting. rewrite Fits. eexists.
  split; [reflexivity|].
  set (new := mkmeeting (next_id db) uid summ st dur loc).
  assert (M : matches_query summ new = true) by apply (matches_own_summary new).
  assert (W : get_meetings_where uid None None (Some summ) new = true).
  { unfold get_meetings_where, where_time_min, where_time_max, where_query.
    cbn [user_id]. rewrite Z.eqb_refl. simpl. now destruct summ. }
  split.
  - apply get_meetings_In. exists new. split; [|split; [reflexivity | exact W]].
    apply in_or_app. right. now left.
  - intros Fresh.
    split.
    + unfold get_meetings. rewrite filter_app.
      rewrite (filter_no_owner _ db uid Fresh
                 (fun r => where_owner uid None None (Some summ) r)).
      simpl. fold new. rewrite W. reflexivity.
    + unfold find_meeting_by_query, find_candidates.
      rewrite filter_app. rewrite (filter_no_owner _ db uid Fresh).
      * simpl. fold new. cbn [user_id]. rewrite Z.eqb_refl, M. reflexivity.
      * intros r X. apply andb_true_iff in X. now apply Z.eqb_eq.
Qed.

(** X5.  After an update statement, a row that had the key is found under
    what was written: by the new location after a location update, by the
    new title after a title update. *)
Theorem updated_meeting_is_found db uid r new :
  In r db -> user_id r = uid ->
  In (select (with_location r new))
     (get_meetings (update_meeting_location db uid (summary r) (start_time r) new)
                   uid None None (Some new))
  /\ In (select (with_summary r new))
        (get_meetings (update_summary_stmt db uid (summary r) (start_time r) new)
                      uid None None (Some new)).
Proof.
  intros I U.
  assert (K : natural_key uid (summary r) (start_time r) r = true)
    by (apply natural_key_iff; auto).
  split; apply get_meetings_In.
  - exists (with_location r new). split; [|split; [reflexivity|]].
    + unfold update_meeting_location. apply in_map_iff. exists r.
      now rewrite K.
    + unfold get_meetings_where, where_time_min, where_time_max, where_query.
      cbn [user_id with_location]. rewrite U, Z.eqb_refl. simpl.
      destruct new as [|n new]; [reflexivity|].
      unfold matches_query. cbn [location with_location].
      rewrite like_query_self. apply orb_true_r.
  - exists (with_summary r new). split; [|split; [reflexivity|]].
    + unfold update_summary_stmt. apply in_map_iff. exists r.
      now rewrite K.
    + unfold get_meetings_where, where_time_min, where_time_max, where_query.
      cbn [user_id with_summary]. rewrite U, Z.eqb_refl. simpl.
      destruct new as [|n new]; [reflexivity|].
      apply (matches_own_summary (with_summary r (n :: new))).
Qed.

(** X6.  When an update request has one candidate, the statement reaches
    every row of the owner with the candidate's title and start time, also
    rows that were not candidates themselves, and no other row. *)
Theorem update_reaches_every_row_with_the_key db now uid q new f :
  q <> [] -> new <> [] ->
  smart_get_meetings db now uid (Some q) None None = Ok [f] ->
  forall r, In r db ->
    (user_id r = uid /\ summary r = fetched_summary f
     /\ start_time r = fetched_start f ->
     In (with_location r new)
        (snd (handle_update_location db now uid (Some q) (Some new)))
     /\ In (with_summary r new)
           (snd (handle_update_summary db now uid (Some q) (Some new))))
    /\ (~ (user_id r = uid /\ summary r = fetched_summary f
           /\ start_time r = fetched_start f) ->
        In r (snd (handle_update_location db now uid (Some q) (Some new)))
        /\ In r (snd (handle_update_summary db now uid (Some q) (Some new)))).
Proof.
  intros Q N H r I. destruct q as [|c q]; [congruence|].
  destruct new as [|n new]; [congruence|]. clear Q N.
  unfold handle_update_location, handle_update_summary, update_meeting_summary.
  rewrite H. destruct f as [[[s st] d] l].
  cbn [bind guarded snd fetched_summary fetched_start fst].
  unfold update_meeting_location, update_summary_stmt.
  split; intros K.
  - apply natural_key_iff in K.
    split; apply in_map_iff; exists r; now rewrite K.
  - assert (K' : natural_key uid s st r = false).
    { destruct (natural_key uid s st r) eqn:X; [|reflexivity].
      apply natural_key_iff in X. tauto. }
    split; apply in_map_iff; exists r; now rewrite K'.
Qed.

Lemma all_percent_no_nul (p : str) :
  forallb (fun c => c =? PERCENT) p = true -> ~ In 0 (p ++ [PERCENT]).
Proof.
  intros P I. apply in_app_or in I. destruct I as [I|[E|[]]]; [|discriminate].
  rewrite forallb_forall in P. specialize (P 0 I). discriminate.
Qed.

Lemma pattern_compare_all_percent (p s : str) :
  forallb (fun c => c =? PERCENT) p = true ->
  pattern_compare (p ++ [PERCENT]) s = true.
Proof.
  revert s. induction p as [|x p IH]; intros s Hp;
    [apply pattern_compare_percent_only|].
  simpl in Hp. apply andb_true_iff in Hp. destruct Hp as [Hx Hp].
  apply Z.eqb_eq in Hx. subst x.
  change ((PERCENT :: p) ++ [PERCENT]) with (PERCENT :: (p ++ [PERCENT])).
  rewrite pattern_compare_percent, IH by exact Hp. reflexivity.
Qed.

Lemma matches_all_percent (q : str) (r : meeting) :
  forallb (fun c => c =? PERCENT) q = true -> matches_query q r = true.
Proof.
  intros P. unfold matches_query, like_query, like.
  change ([PERCENT] ++ q ++ [PERCENT]) with ((PERCENT :: q) ++ [PERCENT]).
  rewrite c_string_no_nul
    by (apply all_percent_no_nul; simpl; now rewrite P).
  rewrite pattern_compare_all_percent; [reflexivity|]. simpl. now rewrite P.
Qed.

(** X7.  The wildcards of [LIKE] are not escaped in the query text: a text
    made of [%] only filters nothing, and a text of [n] underscores selects
    the records whose title or location has at least [n] characters before
    its first U+0000, if it has one. *)
Theorem like_wildcards_are_live (q : str) :
  (forallb (fun c => c =? PERCENT) q = true ->
   forall db uid lo hi,
     get_meetings db uid lo hi (Some q) = get_meetings db uid lo hi None)
  /\ (forallb (fun c => c =? UNDERSCORE) q = true ->
      forall r,
        matches_query q r = true <->
        (length q <= length (c_string (summary r)))%nat
        \/ exists l, location r = Some l
                     /\ (length q <= length (c_string l))%nat).
Proof.
  split.
  - intros P db uid lo hi. unfold get_meetings. f_equal. f_equal.
    apply filter_ext. intros r. unfold get_meetings_where. f_equal.
    pose proof (matches_all_percent q r P) as M.
    unfold where_query. now destruct q.
  - intros U r.
    assert (A : forall p s, forallb (fun c => c =? UNDERSCORE) p = true ->
                            pattern_compare (p ++ [PERCENT]) s
                            = (length p <=? length s)%nat).
    { induction p as [|x p IH]; intros s Hp;
        [apply pattern_compare_percent_only|].
      simpl in Hp. apply andb_true_iff in Hp. destruct Hp as [Hx Hp].
      apply Z.eqb_eq in Hx. subst x. simpl.
      destruct s as [|d s]; [reflexivity|]. simpl. now apply IH. }
    assert (B : forall v, pattern_compare (PERCENT :: q ++ [PERCENT]) v
                          = (length q <=? length v)%nat).
    { induction v as [|d v IH]; rewrite pattern_compare_percent, A by exact U.
      - now rewrite orb_false_r.
      - rewrite IH. simpl length.
        destruct (Nat.leb_spec (length q) (S (length v)));
          destruct (Nat.leb_spec (length q) (length v)); simpl; try reflexivity; lia. }
    assert (N : ~ In 0 (PERCENT :: q ++ [PERCENT])).
    { intros [E|I]; [discriminate|]. apply in_app_or in I.
      destruct I as [I|[E|[]]]; [|discriminate].
      rewrite forallb_forall in U. specialize (U 0 I). discriminate. }
    assert (C : forall v, like (PERCENT :: q ++ [PERCENT]) v
                          = (length q <=? length (c_string v))%nat).
    { intros v. unfold like. rewrite (c_string_no_nul _ N). apply B. }
    unfold matches_query, like_query. cbn [app].
    rewrite orb_true_iff, C, Nat.leb_le. split.
    + intros [H|H]; [now left | right].
      destruct (location r) as [l|]; [|discriminate].
      rewrite C in H. apply Nat.leb_le in H. now exists l.
    + intros [H | (l & -> & H)]; [now left | right].
      rewrite C. now apply Nat.leb_le.
Qed.

End StoreRoundTrips.

(** * Further properties of the date resolver *)

Section ResolverFacts.
Context {py : Python}.

Lemma exec_alts_lit : forall ls l0 s caps k res,
  exec (alts (Lit l0) (map Lit ls)) s caps k = Some res ->
  exists name s', In name (l0 :: ls) /\ s = name ++ s' /\ k s' caps = Some res.
Proof.
  induction ls as [|l1 ls IH]; intros l0 s caps k res H.
  - simpl in H. destruct (skip_prefix l0 s) as [s'|] eqn:E; [|discriminate].
    apply skip_prefix_iff in E. exists l0, s'. simpl. auto.
  - cbn [map alts exec] in H.
    destruct (skip_prefix l0 s) as [s'|] eqn:E.
    + destruct (k s' caps) as [res'|] eqn:K.
      * injection H as <-. apply skip_prefix_iff in E.
        exists l0, s'. simpl. auto.
      * apply IH in H. destruct H as (name & s'' & I & -> & K').
        exists name, s''. split; [now right | auto].
    + apply IH in H. destruct H as (name & s'' & I & -> & K').
      exists name, s''. split; [now right | auto].
Qed.

Lemma genitive_is_a_key (name : str) :
  In name [text "января"; text "февраля"; text "марта"; text "апреля";
           text "мая"; text "июня"; text "июля"; text "августа";
           text "сентября"; text "октября"; text "ноября"; text "декабря"] ->
  exists m, 1 <= m <= 12 /\ forall default, dict_get RU_MONTHS name default = m.
Proof.
  intros I. simpl in I.
  repeat (destruct I as [<-|I];
          [eexists; split; [|intros default; vm_compute; reflexivity]; lia|]).
  destruct I.
Qed.

Lemma date_re_here (s : str) (mo : re_match) :
  match_here date_re s = Some mo ->
  exists g1 k m,
    m_groups mo = [(2%nat, k); (1%nat, g1)]
    /\ forallb (in_class Digit) g1 = true /\ g1 <> []
    /\ 1 <= m <= 12 /\ forall default, dict_get RU_MONTHS k default = m.
Proof.
  unfold match_here, date_re. cbn [exec].
  destruct (exec_rep _ _ _ _ _ _) as [[rest caps]|] eqn:E; [|discriminate].
  intros [= <-]. cbn [m_groups].
  apply exec_rep_sound in E. destruct E as (g1 & s1 & -> & F1 & L1 & E).
  rewrite consumed_app in E.
  apply exec_star_sound in E. destruct E as (w & s2 & -> & _ & E).
  unfold month_alt in E. apply exec_alts_lit in E.
  destruct E as (name & s3 & I & -> & E).
  rewrite consumed_app in E. injection E as <- <-.
  destruct (genitive_is_a_key name I) as (m & Hm & Hk).
  exists g1, name, m. repeat split; auto; try lia.
  intros ->. simpl in L1. lia.
Qed.

(** X8.  Whatever the named-month pattern matches can be read: the day
    number is accepted by [int], and the month name is a key of the month
    table, with an index from 1 to 12, so the fall-back to the current month
    is never used. *)
Theorem named_month_match_is_readable (s : str) (mo : re_match) :
  re_search date_re s = Some mo ->
  exists d k m,
    int_group mo 1 = Ok d
    /\ group mo 2 = Some k
    /\ 1 <= m <= 12
    /\ forall default, dict_get RU_MONTHS k default = m.
Proof.
  intros H. apply re_search_groups in H. destruct H as (s' & mo' & H & G).
  apply date_re_here in H. destruct H as (g1 & k & m & Hg & F1 & N1 & Hm & Hk).
  destruct (int_of_digits g1 F1 N1) as [d Hd].
  exists d, k, m. unfold int_group, group. rewrite G, Hg. simpl. auto.
Qed.



Lemma infer_year_bound now m : year now <= infer_year now m <= year now + 1.
Proof. unfold infer_year. destruct (month now <=? m); lia. Qed.

(** The year of a date from a named-month or numeric phrase. *)
Lemma resolve_date_year now lq t :
  contains kw_tomorrow lq = false -> contains kw_today lq = false ->
  resolve_date now lq = Ok (Some t) ->
  year t = infer_year now (month t).
Proof.
  intros C1 C2 H. pose proof (relative_day_none now _ C1 C2) as R.
  apply resolve_date_cases in H.
  destruct H as [H | [[_ H] | (_ & _ & H)]]; [congruence | |].
  - unfold named_month in H.
    destruct (re_search date_re lq) as [mo|]; [|discriminate].
    destruct (int_group mo 1) as [d|]; [|discriminate]. cbn [bind] in H.
    destruct (datetime_new _ _ _) as [t'|] eqn:D; [|discriminate].
    injection H as <-. apply datetime_new_inv in D. destruct D as [-> _].
    reflexivity.
  - unfold numeric_date in H.
    destruct (re_search num_date_re lq) as [mo|]; [|discriminate].
    destruct (int_group mo 1) as [d|]; [|discriminate]. cbn [bind] in H.
    destruct (int_group mo 2) as [m|]; [|discriminate]. cbn [bind] in H.
    destruct (datetime_new _ _ _) as [t'|[]] eqn:D; try discriminate.
    injection H as <-. apply datetime_new_inv in D. destruct D as [-> _].
    reflexivity.
Qed.



(** X10.  A date from a named-month or numeric phrase lies in the current
    month or in one of the eleven months after it: counted in months, it is
    from 0 to 11 ahead of the clock.  In particular a day of the current
    month stays in the current year, also when that day has passed. *)
Theorem resolved_month_is_within_a_year now lq t :
  valid_datetime now = true ->
  contains kw_tomorrow lq = false -> contains kw_today lq = false ->
  resolve_date now lq = Ok (Some t) ->
  0 <= (year t - year now) * 12 + (month t - month now) <= 11.
Proof.
  intros V C1 C2 H.
  pose proof (resolve_date_year now lq t C1 C2 H) as Yt.
  pose proof (resolve_date_valid now lq t V H) as Vt.
  apply valid_ymd_inv in Vt. apply valid_datetime_ymd, valid_ymd_inv in V.
  unfold infer_year in Yt.
  destruct (Z.leb_spec (month now) (month t)); lia.
Qed.

(** X11.  The substring filter that is left after a date has been removed
    is never empty and has no white space at its start or end. *)
Theorem residual_is_trimmed (lq r : str) :
  residual lq = Some r ->
  r <> []
  /\ (forall c rest, r = c :: rest -> isspace c = false)
  /\ (forall c rest, rev r = c :: rest -> isspace c = false).
Proof.
  unfold residual. set (s := re_sub_once strip_re lq). intros H.
  apply none_if_empty_some' in H. destruct H as [-> N].
  split; [exact N|]. unfold strip, rstrip in *.
  assert (Last : forall c rest,
             lstrip (rev (lstrip s)) = c :: rest -> isspace c = false)
    by (intros c rest; apply lstrip_head).
  split.
  - intros c rest E.
    destruct (lstrip_suffix (rev (lstrip s))) as [b Hb].
    apply (f_equal (@rev Z)) in Hb. rewrite rev_involutive, rev_app_distr in Hb.
    rewrite E in Hb. simpl in Hb. now apply (lstrip_head s c (rest ++ rev b)).
  - intros c rest E. rewrite rev_involutive in E. now apply (Last c rest).
Qed.

End ResolverFacts.

(** * The day interval against stored start times *)

Lemma str_leb_app_prefix (p a b : str) :
  str_leb (p ++ a) (p ++ b) = str_leb a b.
Proof.
  induction p as [|x p IH]; [reflexivity|].
  simpl. now rewrite Z.ltb_irrefl, Z.eqb_refl.
Qed.

Lemma digit_range (n : Z) : 48 <= digit n <= 57.
Proof. unfold digit. pose proof (Z.mod_pos_bound n 10). lia. Qed.

Lemma str_leb_zero_digit (n : Z) (a b : str) :
  str_leb a b = true -> str_leb (48 :: a) (digit n :: b) = true.
Proof.
  intros H. cbn [str_leb]. pose proof (digit_range n).
  destruct (Z.ltb_spec 48 (digit n)); [reflexivity|].
  destruct (Z.eqb_spec 48 (digit n)); [exact H | lia].
Qed.

Lemma str_leb_same_head (c : Z) (a b : str) :
  str_leb (c :: a) (c :: b) = str_leb a b.
Proof. simpl. now rewrite Z.ltb_irrefl, Z.eqb_refl. Qed.

(** ["00:00:00"] is not after any time of day written on two digits per
    field, whatever follows it. *)
Lemma midnight_first (h mi s : Z) (rest : str) :
  str_leb (text "00:00:00")
          (fmt2 h ++ text ":" ++ fmt2 mi ++ text ":" ++ fmt2 s ++ rest) = true.
Proof.
  change (text "00:00:00") with [48; 48; 58; 48; 48; 58; 48; 48].
  change (text ":") with [58]. unfold fmt2. cbn [app].
  repeat first [apply str_leb_zero_digit | rewrite str_leb_same_head].
  reflexivity.
Qed.

Lemma fmt2_lt (a b : Z) (x y : str) :
  0 <= a < b -> b <= 99 -> str_leb (fmt2 b ++ x) (fmt2 a ++ y) = false.
Proof.
  intros A B. unfold fmt2, digit. cbn [app str_leb].
  destruct (Z.ltb_spec (48 + (b / 10) mod 10) (48 + (a / 10) mod 10));
    [exfalso; Z.div_mod_to_equations; lia|].
  destruct (Z.eqb_spec (48 + (b / 10) mod 10) (48 + (a / 10) mod 10));
    [|reflexivity].
  destruct (Z.ltb_spec (48 + b mod 10) (48 + a mod 10));
    [exfalso; Z.div_mod_to_equations; lia|].
  destruct (Z.eqb_spec (48 + b mod 10) (48 + a mod 10)); [|reflexivity].
  exfalso. Z.div_mod_to_equations. lia.
Qed.

Lemma fmt4_lt (a b : Z) (x y : str) :
  0 <= a < b -> b <= 9999 -> str_leb (fmt4 b ++ x) (fmt4 a ++ y) = false.
Proof.
  intros A B. unfold fmt4, digit. cbn [app str_leb].
  destruct (Z.ltb_spec (48 + (b / 1000) mod 10) (48 + (a / 1000) mod 10));
    [exfalso; Z.div_mod_to_equations; lia|].
  destruct (Z.eqb_spec (48 + (b / 1000) mod 10) (48 + (a / 1000) mod 10));
    [|reflexivity].
  destruct (Z.ltb_spec (48 + (b / 100) mod 10) (48 + (a / 100) mod 10));
    [exfalso; Z.div_mod_to_equations; lia|].
  destruct (Z.eqb_spec (48 + (b / 100) mod 10) (48 + (a / 100) mod 10));
    [|reflexivity].
  destruct (Z.ltb_spec (48 + (b / 10) mod 10) (48 + (a / 10) mod 10));
    [exfalso; Z.div_mod_to_equations; lia|].
  destruct (Z.eqb_spec (48 + (b / 10) mod 10) (48 + (a / 10) mod 10));
    [|reflexivity].
  destruct (Z.ltb_spec (48 + b mod 10) (48 + a mod 10));
    [exfalso; Z.div_mod_to_equations; lia|].
  destruct (Z.eqb_spec (48 + b mod 10) (48 + a mod 10)); [|reflexivity].
  exfalso. Z.div_mod_to_equations. lia.
Qed.

Lemma days_in_month_range (y m : Z) : 28 <= days_in_month y m <= 31.
Proof.
  unfold days_in_month.
  destruct (m =? 2); [destruct (is_leap y); lia|].
  destruct ((m =? 4) || (m =? 6) || (m =? 9) || (m =? 11)); lia.
Qed.

(** The date of the following day is written with a greater string. *)
Lemma iso_date_next (t : datetime) (x y : str) :
  valid_ymd (year t) (month t) (day t) = true ->
  year (next_day t) <= MAXYEAR ->
  str_leb (iso_date (next_day t) ++ x) (iso_date t ++ y) = false.
Proof.
  intros V. apply valid_ymd_inv in V. destruct V as (Vy & Vm & Vd).
  pose proof (days_in_month_range (year t) (month t)) as R.
  destruct t as [yy m d h mi s]. cbn [year month day] in *.
  unfold next_day, iso_date. cbn [year month day].
  destruct (Z.ltb_spec d (days_in_month yy m)) as [L|L]; cbn [year month day].
  - intros _. rewrite <- !app_assoc.
    rewrite !str_leb_app_prefix. apply fmt2_lt; lia.
  - destruct (Z.ltb_spec m 12) as [L'|L']; cbn [year month day];
      intros Y; rewrite <- !app_assoc.
    + rewrite !str_leb_app_prefix. apply fmt2_lt; lia.
    + apply fmt4_lt; unfold MAXYEAR in Y; lia.
Qed.

Lemma strftime_midnight_date (t : datetime) :
  strftime_midnight t = iso_date t ++ text "T00:00:00".
Proof. unfold strftime_midnight, iso_date. now rewrite <- !app_assoc. Qed.

Lemma strftime_full_date (u : datetime) :
  strftime_full u
  = iso_date u ++ text "T" ++ fmt2 (hour u) ++ text ":" ++ fmt2 (minute u)
    ++ text ":" ++ fmt2 (second u).
Proof. unfold strftime_full, iso_date. now rewrite <- !app_assoc. Qed.

Lemma where_time_min_stamp (t : datetime) (r : meeting) :
  where_time_min (Some (strftime_midnight t)) r
  = str_leb (strftime_midnight t) (start_time r).
Proof. reflexivity. Qed.

Lemma where_time_max_stamp (t : datetime) (r : meeting) :
  where_time_max (Some (strftime_midnight t)) r
  = negb (str_leb (strftime_midnight t) (start_time r)).
Proof. reflexivity. Qed.

(** X12.  The bounds of a resolved day select every meeting whose start time
    is a time of that day in the layout [%Y-%m-%dT%H:%M:%S], with or without
    something after it, and they do not select a meeting at midnight of the
    following day. *)
Theorem day_filter_selects_its_day (t t' u : datetime) (rest : str) (r : meeting) :
  valid_ymd (year t) (month t) (day t) = true ->
  add_days t 1 = Ok t' ->
  year u = year t -> month u = month t -> day u = day t ->
  start_time r = strftime_full u ++ rest ->
  where_time_min (Some (strftime_midnight t)) r = true
  /\ where_time_max (Some (strftime_midnight t')) r = true
  /\ forall r', start_time r' = strftime_midnight t' ->
                where_time_max (Some (strftime_midnight t')) r' = false.
Proof.
  intros V A Ey Em Ed S. apply add_days_1 in A. destruct A as [-> Y].
  assert (D : iso_date u = iso_date t)
    by (unfold iso_date; now rewrite Ey, Em, Ed).
  split; [|split].
  - rewrite where_time_min_stamp, S.
    rewrite strftime_full_date, D, strftime_midnight_date, <- !app_assoc.
    rewrite str_leb_app_prefix.
    change (text "T00:00:00") with (text "T" ++ text "00:00:00").
    rewrite str_leb_app_prefix. apply midnight_first.
  - rewrite where_time_max_stamp, S.
    rewrite strftime_full_date, D, strftime_midnight_date, <- !app_assoc.
    now rewrite iso_date_next.
  - intros r' E. rewrite where_time_max_stamp, E. now rewrite str_leb_refl.
Qed.

(** X13.  The lower bound of a resolved day leaves out a meeting whose start
    time is that date alone, or that date followed by a space instead of the
    letter T. *)
Theorem day_filter_misses_other_layouts (t : datetime) (rest : str) (r : meeting) :
  start_time r = iso_date t \/ start_time r = iso_date t ++ text " " ++ rest ->
  where_time_min (Some (strftime_midnight t)) r = false.
Proof.
  rewrite where_time_min_stamp, strftime_midnight_date.
  intros [-> | ->].
  - rewrite <- (app_nil_r (iso_date t)) at 2.
    now rewrite str_leb_app_prefix.
  - now rewrite str_leb_app_prefix.
Qed.

(** * The branches of [handle_text] *)

Section DispatchFacts.
Context {py : Python}.

Lemma find_none db uid q :
  find_meeting_by_query db uid q = Ok None ->
  filter (fun r => (user_id r =? uid) && matches_query q r) db = [].
Proof.
  unfold find_meeting_by_query, find_candidates.
  destruct (order_by _ _) as [|r l] eqn:E.
  - intros _. apply Permutation_nil. rewrite <- E. apply order_by_perm.
  - destruct (make_event _ _ _); cbn [bind]; discriminate.
Qed.

Lemma get_meetings_plain_none db uid q :
  q <> [] ->
  filter (fun r => (user_id r =? uid) && matches_query q r) db = [] ->
  get_meetings db uid None None (Some q) = [].
Proof.
  intros N F. unfold get_meetings.
  rewrite (filter_ext _ (fun r => (user_id r =? uid) && matches_query q r)).
  - now rewrite F.
  - intros r. unfold get_meetings_where, where_time_min, where_time_max, where_query.
    destruct q; [congruence|]. now rewrite !andb_true_r.
Qed.

(** X14.  The second attempt of a route or where request can only find a
    meeting through a date: when the first attempt finds nothing and the
    phrase has no date in it, the second attempt selects with the same
    pattern and finds nothing, and the answer is not-found. *)
Theorem fallback_needs_a_date db now uid q summ :
  q <> [] ->
  find_meeting_by_query db uid q = Ok None ->
  resolve_date now (str_lower q) = Ok None ->
  smart_get_meetings db now uid (Some q) None None = Ok []
  /\ route_lookup db now uid q = Ok None
  /\ handle_route db now uid (Some q) summ = (NotFound q, db)
  /\ handle_where db now uid (Some q) = (NotFound q, db).
Proof.
  intros N F R. destruct q as [|c q]; [congruence|]. clear N.
  assert (S : smart_get_meetings db now uid (Some (c :: q)) None None = Ok []).
  { unfold smart_get_meetings.
    rewrite (smart_filter_unresolved now c q None None R).
    cbn [bind arg_time_min arg_time_max arg_query].
    rewrite get_meetings_plain_none;
      [reflexivity | discriminate | now apply find_none]. }
  split; [exact S|].
  unfold handle_where, handle_route, route_lookup. cbn [truthy].
  rewrite F. cbn [bind]. rewrite S. cbn [bind guarded]. auto.
Qed.

(** X15.  The where branch and the route branch answer alike, except when
    the first attempt finds nothing and the second has two or more
    candidates: then the where branch hands back the list and the route
    branch takes the first candidate. *)
Theorem where_and_route_part_on_many db now uid q summ :
  q <> [] ->
  (forall ms,
      find_meeting_by_query db uid q = Ok None ->
      smart_get_meetings db now uid (Some q) None None = Ok ms ->
      (2 <= length ms)%nat ->
      (forall f, In f ms -> fromisoformat (fetched_start f) <> None) ->
      handle_where db now uid (Some q) = (Ambiguous ms, db)
      /\ exists e, handle_route db now uid (Some q) summ = (RouteTo e, db)
                   /\ option_map fetched_summary (hd_error ms)
                      = Some (ev_summary e))
  /\ (~ (find_meeting_by_query db uid q = Ok None
         /\ exists ms, smart_get_meetings db now uid (Some q) None None = Ok ms
                       /\ (2 <= length ms)%nat) ->
      handle_where db now uid (Some q) = handle_route db now uid (Some q) summ).
Proof.
  intros N. destruct q as [|c q]; [congruence|]. clear N.
  unfold handle_where, handle_route, route_lookup. cbn [truthy].
  split.
  - intros ms F S L P. rewrite F. cbn [bind]. rewrite S. cbn [bind].
    destruct ms as [|a [|b rest]]; simpl in L; try lia.
    rewrite (list_candidates_ok _ P). destruct a as [[[s st] d] l].
    cbn [bind guarded]. split; [reflexivity|].
    pose proof (P (s, st, d, l) (or_introl eq_refl)) as Pa.
    unfold fetched_start in Pa. cbn [fst snd] in Pa.
    unfold make_event. destruct (fromisoformat st) as [t|]; [|congruence].
    cbn [bind guarded]. eexists. split; reflexivity.
  - intros H.
    destruct (find_meeting_by_query db uid (c :: q)) as [[e|]|e] eqn:F;
      cbn [bind guarded]; try reflexivity.
    destruct (smart_get_meetings db now uid (Some (c :: q)) None None)
      as [[|[[[s st] d] l] [|b rest]]|e] eqn:S; cbn [bind guarded];
      try reflexivity.
    + destruct (make_event s l st); reflexivity.
    + exfalso. apply H. split; [reflexivity|].
      eexists. split; [reflexivity|]. simpl. lia.
Qed.




Lemma all_parse_false (ms : list fetched) (f : fetched) :
  In f ms -> fromisoformat (fetched_start f) = None -> all_parse ms = false.
Proof.
  intros I U. unfold all_parse.
  destruct (forallb _ ms) eqn:A; [|reflexivity].
  rewrite forallb_forall in A. specialize (A f I). now rewrite U in A.
Qed.

(** X17.  One selected meeting whose start time cannot be read turns the
    answer of a list request into the apology, whatever else was selected. *)
Theorem unreadable_start_fails_the_listing db now now' uid df q w ms f :
  list_window now df = Ok w ->
  smart_get_meetings db now' uid q (fst (fst w)) (snd (fst w)) = Ok ms ->
  In f ms -> fromisoformat (fetched_start f) = None ->
  handle_list db now now' uid df q = (Said Apology, db).
Proof.
  intros W S I U. unfold handle_list. rewrite W. cbn [bind]. rewrite S.
  cbn [bind]. rewrite (all_parse_false ms f I U).
  destruct ms; [destruct I | reflexivity].
Qed.



Lemma guarded_keeps (db : table) (r : result (reply * table)) :
  (forall x, r = Ok x -> snd x = db) -> snd (guarded db r) = db.
Proof. destruct r as [x|e]; intros H; [now apply H | reflexivity]. Qed.

Lemma list_candidates_keeps (db : table) (ms : list fetched) (x : reply * table) :
  (r <- list_candidates ms ;; Ok (r, db)) = Ok x -> snd x = db.
Proof.
  destruct (list_candidates ms); cbn [bind]; [|discriminate].
  now intros [= <-].
Qed.

Lemma handle_list_keeps db now now' uid df q :
  snd (handle_list db now now' uid df q) = db.
Proof. unfold handle_list. now destruct (bind _ _). Qed.

Lemma handle_route_keeps db now uid q summ :
  snd (handle_route db now uid q summ) = db.
Proof.
  unfold handle_route. apply guarded_keeps. intros x.
  destruct (if truthy q then q else summ) as [[|c s]|];
    try (now intros [= <-]).
  destruct (route_lookup db now uid (c :: s)) as [[e|]|e]; cbn [bind];
    try discriminate; now intros [= <-].
Qed.

Lemma handle_where_keeps db now uid q :
  snd (handle_where db now uid q) = db.
Proof.
  unfold handle_where. apply guarded_keeps. intros x.
  destruct q as [[|c s]|]; try (now intros [= <-]).
  destruct (find_meeting_by_query db uid (c :: s)) as [[e|]|e]; cbn [bind];
    try discriminate; try (now intros [= <-]).
  destruct (smart_get_meetings db now uid (Some (c :: s)) None None)
    as [[|[[[s' st] d] l] [|b rest]]|e]; cbn [bind];
    try discriminate; try (now intros [= <-]).
  - destruct (make_event s' l st); cbn [bind]; try discriminate.
    now intros [= <-].
  - apply list_candidates_keeps.
Qed.

Lemma update_location_keys db uid summ st new :
  map (fun r => (id r, user_id r, start_time r, duration_minutes r))
      (update_meeting_location db uid summ st new)
  = map (fun r => (id r, user_id r, start_time r, duration_minutes r)) db.
Proof.
  unfold update_meeting_location. rewrite map_map. apply map_ext.
  intros r. now destruct (natural_key uid summ st r).
Qed.

Lemma update_summary_keys db uid summ st new :
  map (fun r => (id r, user_id r, start_time r, duration_minutes r))
      (update_summary_stmt db uid summ st new)
  = map (fun r => (id r, user_id r, start_time r, duration_minutes r)) db.
Proof.
  unfold update_summary_stmt. rewrite map_map. apply map_ext.
  intros r. now destruct (natural_key uid summ st r).
Qed.

Lemma handle_update_location_keys db now uid q loc :
  map (fun r => (id r, user_id r, start_time r, duration_minutes r))
      (snd (handle_update_location db now uid q loc))
  = map (fun r => (id r, user_id r, start_time r, duration_minutes r)) db.
Proof.
  unfold handle_update_location.
  destruct q as [[|c s]|]; try reflexivity.
  destruct loc as [[|c' l]|]; try reflexivity.
  destruct (smart_get_meetings db now uid (Some (c :: s)) None None)
    as [[|[[[s' st] d] l0] [|b rest]]|e]; cbn [bind guarded snd];
    try reflexivity.
  - apply update_location_keys.
  - destruct (list_candidates _); reflexivity.
Qed.

Lemma handle_update_summary_keys db now uid q new :
  map (fun r => (id r, user_id r, start_time r, duration_minutes r))
      (snd (handle_update_summary db now uid q new))
  = map (fun r => (id r, user_id r, start_time r, duration_minutes r)) db.
Proof.
  unfold handle_update_summary, update_meeting_summary.
  destruct q as [[|c s]|]; try reflexivity.
  destruct new as [[|c' l]|]; try reflexivity.
  destruct (smart_get_meetings db now uid (Some (c :: s)) None None)
    as [[|[[[s' st] d] l0] [|b rest]]|e]; cbn [bind guarded snd];
    try reflexivity.
  - apply update_summary_keys.
  - destruct (list_candidates _); reflexivity.
Qed.

(** X19.  No request deletes a meeting or changes the id, owner, start time
    or duration of one: after any request the table has the same rows in
    the same order with these four fields as before, and at most one row more
    at the end.  A request that is not create, update_location or
    update_summary leaves the table as it was. *)
Theorem requests_keep_the_rows db now now' uid i :
  (exists more,
      map (fun r => (id r, user_id r, start_time r, duration_minutes r))
          (snd (handle_action db now now' uid i))
      = map (fun r => (id r, user_id r, start_time r, duration_minutes r)) db
        ++ more
      /\ (length more <= 1)%nat)
  /\ (is_action (i_action i) (text "create") = false ->
      is_action (i_action i) (text "update_location") = false ->
      is_action (i_action i) (text "update_summary") = false ->
      snd (handle_action db now now' uid i) = db).
Proof.
  unfold handle_action, said.
  destruct (is_action (i_action i) (text "create")).
  { split; [|discriminate]. cbn [snd]. unfold handle_create, create_meeting.
    destruct (i_datetime i) as [[|c dt]|];
      try (exists []; rewrite app_nil_r; split; [reflexivity | simpl; lia]).
    destruct (fits_int64 _);
      [|exists []; rewrite app_nil_r; split; [reflexivity | simpl; lia]].
    eexists [_]. split; [|simpl; lia].
    destruct (fromisoformat (c :: dt)); cbn [snd]; now rewrite map_app. }
  destruct (is_action (i_action i) (text "list")).
  { cbn [snd]. rewrite handle_list_keeps. split; [|reflexivity].
    exists []. rewrite app_nil_r. split; [reflexivity | simpl; lia]. }
  destruct (is_action (i_action i) (text "route")
            || is_action (i_action i) (text "get_location")).
  { cbn [snd]. rewrite handle_route_keeps. split; [|reflexivity].
    exists []. rewrite app_nil_r. split; [reflexivity | simpl; lia]. }
  destruct (is_action (i_action i) (text "update_location")).
  { split; [|discriminate]. cbn [snd]. rewrite handle_update_location_keys.
    exists []. rewrite app_nil_r. split; [reflexivity | simpl; lia]. }
  destruct (is_action (i_action i) (text "update_summary")).
  { split; [|discriminate]. cbn [snd]. rewrite handle_update_summary_keys.
    exists []. rewrite app_nil_r. split; [reflexivity | simpl; lia]. }
  destruct (is_action (i_action i) (text "where")).
  { cbn [snd]. rewrite handle_where_keeps. split; [|reflexivity].
    exists []. rewrite app_nil_r. split; [reflexivity | simpl; lia]. }
  cbn [snd]. split; [|reflexivity].
  exists []. rewrite app_nil_r. split; [reflexivity | simpl; lia].
Qed.

Lemma days_before_month_step (y m : Z) :
  1 <= m <= 11 ->
  days_before_month y (m + 1) = days_before_month y m + days_in_month y m.
Proof.
  intros M.
  assert (C : m = 1 \/ m = 2 \/ m = 3 \/ m = 4 \/ m = 5 \/ m = 6 \/ m = 7
              \/ m = 8 \/ m = 9 \/ m = 10 \/ m = 11) by lia.
  unfold days_before_month, days_in_month.
  repeat (destruct C as [->|C]); try subst m; simpl;
    destruct (is_leap y); simpl; lia.
Qed.

Lemma valid_first_of_month (y m : Z) :
  1 <= y <= 9999 -> 1 <= m <= 12 -> valid_ymd y m 1 = true.
Proof.
  intros Y M. pose proof (days_in_month_range y m).
  unfold valid_ymd, MINYEAR, MAXYEAR. rewrite !andb_true_iff, !Z.leb_le. lia.
Qed.

Lemma month_bounds_ok (y m : Z) :
  1 <= y <= 9999 -> 1 <= m <= 12 -> ~ (y = 9999 /\ m = 12) ->
  exists next,
    month_bounds y m = Ok (mkdt y m 1 0 0 0, next)
    /\ day next = 1 /\ hour next = 0 /\ minute next = 0 /\ second next = 0
    /\ toordinal next - toordinal (mkdt y m 1 0 0 0) = days_in_month y m.
Proof.
  intros Y M E. unfold month_bounds, datetime_new.
  rewrite (valid_first_of_month y m Y M). cbn [bind].
  destruct (Z.eqb_spec m 12) as [->|M12].
  - change (12 mod 12 + 1) with 1.
    rewrite (valid_first_of_month (y + 1) 1) by lia. cbn [bind].
    eexists. split; [reflexivity|]. repeat (split; [reflexivity|]).
    unfold toordinal. cbn [year month day].
    rewrite days_before_next_year.
    change (days_before_month (y + 1) 1) with 0.
    change (days_before_month y 12) with (334 + (if is_leap y then 1 else 0)).
    change (days_in_month y 12) with 31. lia.
  - rewrite Z.mod_small, Z.add_0_r by lia.
    rewrite (valid_first_of_month y (m + 1)) by lia. cbn [bind].
    eexists. split; [reflexivity|]. repeat (split; [reflexivity|]).
    unfold toordinal. cbn [year month day].
    rewrite days_before_month_step by lia. lia.
Qed.

Lemma month_bounds_end_of_time : month_bounds 9999 12 = Raise ValueError.
Proof. reflexivity. Qed.

(** X20.  The bounds of a month listing: for a month of a year from 1 to
    9999 they are built, from the first of the month at midnight to the
    first of the following month at midnight, as many days apart as the
    month has, with December running into January of the next year; only
    for December 9999 building them raises. *)
Theorem month_bounds_span_the_month (y m : Z) :
  1 <= y <= 9999 -> 1 <= m <= 12 ->
  (y = 9999 /\ m = 12 -> month_bounds y m = Raise ValueError)
  /\ (~ (y = 9999 /\ m = 12) ->
      exists next,
        month_bounds y m = Ok (mkdt y m 1 0 0 0, next)
        /\ day next = 1 /\ hour next = 0 /\ minute next = 0 /\ second next = 0
        /\ toordinal next - toordinal (mkdt y m 1 0 0 0) = days_in_month y m).
Proof.
  intros Y M. split.
  - intros [-> ->]. apply month_bounds_end_of_time.
  - now apply month_bounds_ok.
Qed.

Lemma dict_get_mem (d : list (str * Z)) (k : str) (default : Z) :
  dict_mem d k = true -> In (dict_get d k default) (map snd d).
Proof.
  induction d as [|[k' v] d IH]; [discriminate|].
  cbn [dict_mem dict_get map snd]. destruct (str_eqb k k'); cbn [orb].
  - intros _. now left.
  - intros H. right. now apply IH.
Qed.

Lemma month_index_range (k : str) :
  dict_mem RU_MONTHS k = true -> 1 <= dict_get RU_MONTHS k 0 <= 12.
Proof.
  intros H. apply (dict_get_mem _ _ 0) in H.
  revert H. generalize (dict_get RU_MONTHS k 0). intros v.
  change (map snd RU_MONTHS)
    with [1; 1; 2; 2; 3; 3; 4; 4; 5; 5; 6; 6; 7; 7; 8; 8; 9; 9; 10; 10; 11; 11;
          12; 12].
  simpl. intros H. repeat (destruct H as [<-|H]; [lia|]). destruct H.
Qed.

(** X21.  The window of a list request is either open, from the clock's
    stamp on with no upper bound, or one whole month: the current month, or
    the named month where it next comes, from 0 to 11 months ahead of the
    clock.  Building it raises only with the clock in year 9999. *)
Theorem listing_window_is_open_or_a_month now df :
  valid_datetime now = true ->
  (forall w, list_window now df = Ok w ->
     w = (Some (strftime_full now), None, SOON)
     \/ exists y m next,
          0 <= (y - year now) * 12 + (m - month now) <= 11
          /\ 1 <= m <= 12
          /\ fst w = (Some (strftime_full (mkdt y m 1 0 0 0)),
                      Some (strftime_full next))
          /\ day next = 1 /\ hour next = 0 /\ minute next = 0 /\ second next = 0
          /\ toordinal next - toordinal (mkdt y m 1 0 0 0) = days_in_month y m)
  /\ (forall e, list_window now df = Raise e ->
        e = ValueError /\ year now = 9999).
Proof.
  intros V. apply valid_datetime_ymd, valid_ymd_inv in V.
  destruct V as (Vy & Vm & _).
  assert (B : forall y m caption,
             1 <= y <= 10000 -> 1 <= m <= 12 ->
             0 <= (y - year now) * 12 + (m - month now) <= 11 ->
             (forall w,
                 (b <- month_bounds y m ;;
                  Ok (Some (strftime_full (fst b)), Some (strftime_full (snd b)),
                      caption)) = Ok w ->
                 w = (Some (strftime_full now), None, SOON)
                 \/ exists y m next,
                      0 <= (y - year now) * 12 + (m - month now) <= 11
                      /\ 1 <= m <= 12
                      /\ fst w = (Some (strftime_full (mkdt y m 1 0 0 0)),
                                  Some (strftime_full next))
                      /\ day next = 1 /\ hour next = 0 /\ minute next = 0
                      /\ second next = 0
                      /\ toordinal next - toordinal (mkdt y m 1 0 0 0)
                         = days_in_month y m)
             /\ (forall e,
                    (b <- month_bounds y m ;;
                     Ok (Some (strftime_full (fst b)),
                         Some (strftime_full (snd b)), caption)) = Raise e ->
                    e = ValueError /\ year now = 9999)).
  { intros y m caption Y M A.
    destruct (Z.eq_dec y 10000) as [->|Y'].
    { unfold month_bounds, datetime_new.
      assert (valid_ymd 10000 m 1 = false) as ->.
      { reflexivity. }
      cbn [bind]. split; [discriminate|]. intros e [= <-]. split; [reflexivity|lia]. }
    destruct (Z.eq_dec y 9999) as [->|Y''].
    - destruct (Z.eq_dec m 12) as [->|M'].
      + rewrite month_bounds_end_of_time. cbn [bind].
        split; [discriminate|]. intros e [= <-]. split; [reflexivity|lia].
      + destruct (month_bounds_ok 9999 m) as (next & E & R); try lia.
        rewrite E. cbn [bind fst snd]. split; [|discriminate].
        intros w [= <-]. right. exists 9999, m, next. cbn [fst]. tauto.
    - destruct (month_bounds_ok y m) as (next & E & R); try lia.
      rewrite E. cbn [bind fst snd]. split; [|discriminate].
      intros w [= <-]. right. exists y, m, next. cbn [fst]. tauto. }
  unfold list_window.
  destruct df as [[|c f]|];
    try (split; [intros w [= <-]; now left | discriminate]).
  destruct (str_eqb _ _ || str_eqb _ _).
  { apply B; lia. }
  destruct (dict_mem RU_MONTHS (str_lower (c :: f))) eqn:K;
    [|split; [intros w [= <-]; now left | discriminate]].
  pose proof (month_index_range _ K) as R.
  pose proof (infer_year_bound now (dict_get RU_MONTHS (str_lower (c :: f)) 0)).
  apply B; try lia.
  unfold infer_year.
  destruct (Z.leb_spec (month now)
                       (dict_get RU_MONTHS (str_lower (c :: f)) 0)); lia.
Qed.

Lemma location_or_missing_not_empty (loc : option str) :
  location_or_missing loc <> [].
Proof.
  destruct loc as [[|c l]|]; cbn [location_or_missing];
    try discriminate; vm_compute; discriminate.
Qed.

Lemma make_event_inv (summ : str) (loc : option str) (st : str) (e : event) :
  make_event summ loc st = Ok e ->
  ev_summary e = summ /\ ev_location e = location_or_missing loc
  /\ fromisoformat st = Some (ev_start e).
Proof.
  unfold make_event. destruct (fromisoformat st) as [t|]; [|discriminate].
  intros [= <-]. auto.
Qed.

(** X22.  What a route request settles on is a meeting of the requester
    that is in the table, with a start time that can be read, and the place
    it is given is never the empty text: a missing or empty location is
    replaced by the fixed "no address" text. *)
Theorem route_lookup_returns_an_own_meeting db now uid q e :
  route_lookup db now uid q = Ok (Some e) ->
  ev_location e <> []
  /\ exists r, In r db /\ user_id r = uid /\ summary r = ev_summary e
               /\ fromisoformat (start_time r) = Some (ev_start e)
               /\ ev_location e = location_or_missing (location r).
Proof.
  unfold route_lookup, find_meeting_by_query.
  destruct (find_candidates db uid q) as [|r l] eqn:F; cbn [bind].
  - destruct (smart_get_meetings db now uid (Some q) None None)
      as [[|[[[s st] d] lo] rest]|x] eqn:S; cbn [bind]; try discriminate.
    destruct (make_event s lo st) as [e'|] eqn:M; cbn [bind]; [|discriminate].
    intros [= <-]. apply make_event_inv in M. destruct M as (Es & El & Et).
    split; [rewrite El; apply location_or_missing_not_empty|].
    apply smart_get_meetings_inv in S. destruct S as [a S].
    assert (I : In (s, st, d, lo)
                   (get_meetings db uid (arg_time_min a) (arg_time_max a)
                                 (arg_query a)))
      by (rewrite <- S; now left).
    apply get_meetings_In in I. destruct I as (r & I & E & W).
    apply where_owner in W. injection E as <- <- _ <-.
    exists r. auto.
  - destruct (make_event (summary r) (location r) (start_time r)) as [e'|] eqn:M;
      cbn [bind]; [|discriminate].
    intros [= <-]. apply make_event_inv in M. destruct M as (Es & El & Et).
    split; [rewrite El; apply location_or_missing_not_empty|].
    assert (I : In r (find_candidates db uid q)) by (rewrite F; now left).
    unfold find_candidates in I. apply order_by_In, filter_In in I.
    destruct I as [I W]. apply andb_true_iff in W. destruct W as [W _].
    apply Z.eqb_eq in W. exists r. auto.
Qed.

End DispatchFacts.

(** ** The claims at concrete phrases

    From here on the runtime is [Ru.python], the clock of the examples is
    10 June 2025, and the table is [Ru.meetings]. *)

Import Ru.

Ltac by_evaluation :=
  vm_compute; first [reflexivity | discriminate | congruence].

Ltac split_all :=
  repeat match goal with
         | |- _ /\ _ => split
         end.

Lemma valid_feb_31 (y : Z) : valid_ymd y 2 31 = false.
Proof.
  unfold valid_ymd, days_in_month. simpl.
  destruct (is_leap y); simpl; now rewrite !andb_false_r.
Qed.

(** C10.  The phrase "31 февраля" makes the lookup raise [ValueError],
    whatever the clock and the table: the named-month branch builds the date
    without a guard.  The same day written as "31.02" goes through the
    guarded numeric branch and is looked up as plain text. *)
Theorem C10_named_month_invalid_day_raises db now uid tmin tmax :
  smart_get_meetings db now uid (Some (text "31 февраля")) tmin tmax
  = Raise ValueError
  /\ smart_get_meetings db now uid (Some (text "31.02")) tmin tmax
     = Ok (get_meetings db uid tmin tmax (Some (text "31.02"))).
Proof.
  split.
  - change (text "31 февраля") with (51 :: text "1 февраля").
    unfold smart_get_meetings.
    rewrite (smart_filter_raise now 51 (text "1 февраля") tmin tmax ValueError);
      [reflexivity|].
    apply (invalid_named_date now _
             (mkmatch [] (text "31 февраля") []
                      [(2%nat, text "февраля"); (1%nat, text "31")]) 31);
      try by_evaluation.
    intros m ->. apply valid_feb_31.
  - change (text "31.02") with (51 :: text "1.02").
    apply (invalid_numeric_date db now uid 51 (text "1.02") tmin tmax
             (mkmatch [] (text "31.02") [] [(2%nat, text "02"); (1%nat, text "31")]));
      try by_evaluation.
    intros d m Hd Hm. vm_compute in Hd, Hm.
    injection Hd as <-. injection Hm as <-. apply valid_feb_31.
Qed.

(** C1 at 10 June 2025: "послезавтра" asks for 12 June and is given
    11 June. *)
Lemma C1_day_after_tomorrow_on_june_10 :
  (text "послезавтра" <> []
   /\ valid_datetime june_10_2025 = true
   /\ contains kw_day_after (str_lower (text "послезавтра")) = true
   /\ add_days june_10_2025 1 = Ok (mkdt 2025 6 11 9 30 0)
   /\ add_days (mkdt 2025 6 11 9 30 0) 1 = Ok (mkdt 2025 6 12 9 30 0))
  /\ (smart_filter june_10_2025 (Some (text "послезавтра")) None None
      = Ok (mkargs (Some (strftime_midnight (mkdt 2025 6 11 9 30 0)))
                   (Some (strftime_midnight (mkdt 2025 6 12 9 30 0)))
                   (residual (str_lower (text "послезавтра"))))
      /\ add_days june_10_2025 2 = Ok (mkdt 2025 6 12 9 30 0)
      /\ toordinal (mkdt 2025 6 11 9 30 0) = toordinal june_10_2025 + 1
      /\ timestamp (midnight (mkdt 2025 6 12 9 30 0))
         - timestamp (midnight (mkdt 2025 6 11 9 30 0)) = 24 * 3600).
Proof.
  split; [split_all; by_evaluation|].
  apply C1_day_after_tomorrow_read_as_tomorrow; by_evaluation.
Defined.

Example day_after_tomorrow_evaluated :
  smart_filter june_10_2025 (Some (text "послезавтра")) None None
  = Ok (mkargs (Some (text "2025-06-11T00:00:00"))
               (Some (text "2025-06-12T00:00:00")) None).
Proof. by_evaluation. Qed.

Example tomorrow_and_today_evaluated :
  smart_filter june_10_2025 (Some (text "Что завтра?")) None None
  = Ok (mkargs (Some (text "2025-06-11T00:00:00"))
               (Some (text "2025-06-12T00:00:00")) (Some (text "что ?")))
  /\ smart_filter june_10_2025 (Some (text "сегодня")) None None
     = Ok (mkargs (Some (text "2025-06-10T00:00:00"))
                  (Some (text "2025-06-11T00:00:00")) None).
Proof. split; by_evaluation. Qed.

(** C2, the claim as stated fails: in "8 ноября завтра" the date comes from
    "завтра", first in precedence, yet the substring that is removed is
    "8 ноября", first by position; removing the phrase that is first in
    precedence would leave "8 ноября". *)
Lemma C2_position_not_precedence :
  resolve_date june_10_2025 (text "8 ноября завтра")
  = Ok (Some (mkdt 2025 6 11 9 30 0))
  /\ spec_residual (text "8 ноября завтра") = Some (text "8 ноября")
  /\ residual (text "8 ноября завтра") = Some (text "завтра")
  /\ residual (text "8 ноября завтра") <> spec_residual (text "8 ноября завтра").
Proof. split_all; by_evaluation. Qed.

(** C2 as amended, on the same phrase. *)
Lemma C2_leftmost_on_two_date_phrases :
  resolve_date june_10_2025 (text "8 ноября завтра")
  = Ok (Some (mkdt 2025 6 11 9 30 0))
  /\ ((relative_day june_10_2025 (text "8 ноября завтра")
       = Ok (Some (mkdt 2025 6 11 9 30 0))
       \/ (relative_day june_10_2025 (text "8 ноября завтра") = Ok None
           /\ named_month june_10_2025 (text "8 ноября завтра") None
              = Ok (Some (mkdt 2025 6 11 9 30 0)))
       \/ (relative_day june_10_2025 (text "8 ноября завтра") = Ok None
           /\ re_search date_re (text "8 ноября завтра") = None
           /\ numeric_date june_10_2025 (text "8 ноября завтра") None
              = Ok (Some (mkdt 2025 6 11 9 30 0))))
      /\ exists before removed after,
           text "8 ноября завтра" = before ++ removed ++ after
           /\ matches strip_re removed
           /\ removed <> []
           /\ residual (text "8 ноября завтра")
              = none_if_empty (strip (before ++ after))
           /\ forall a m b, text "8 ноября завтра" = a ++ m ++ b ->
                            matches strip_re m ->
                            (length before <= length a)%nat).
Proof.
  split; [by_evaluation|].
  apply C2_leftmost_date_phrase_is_removed. by_evaluation.
Defined.

(** C3 on a table of two meetings: "8 ноября" singles out one of them, and
    that one is updated. *)
Lemma C3_update_on_unique_candidate :
  (text "8 ноября" <> []
   /\ text "Уфа, Королева 30" <> []
   /\ smart_get_meetings meetings june_10_2025 7 (Some (text "8 ноября")) None None
      = Ok [select regina])
  /\ handle_update_summary meetings june_10_2025 7 (Some (text "8 ноября"))
                           (Some (text "Уфа, Королева 30"))
     = (SummaryUpdated (text "Уфа, Королева 30"),
        update_summary_stmt meetings 7 (fetched_summary (select regina))
                            (fetched_start (select regina))
                            (text "Уфа, Королева 30"))
  /\ handle_update_location meetings june_10_2025 7 (Some (text "8 ноября"))
                            (Some (text "Уфа, Королева 30"))
     = (LocationUpdated (text "Уфа, Королева 30"),
        update_meeting_location meetings 7 (fetched_summary (select regina))
                                (fetched_start (select regina))
                                (text "Уфа, Королева 30")).
Proof.
  assert (Q : text "8 ноября" <> []) by by_evaluation.
  assert (N : text "Уфа, Королева 30" <> []) by by_evaluation.
  assert (H : smart_get_meetings meetings june_10_2025 7
                (Some (text "8 ноября")) None None = Ok [select regina])
    by by_evaluation.
  split; [auto|].
  destruct (C3_candidate_resolution meetings june_10_2025 7 (text "8 ноября")
              (text "Уфа, Королева 30") [select regina] Q N H) as (_ & U & _).
  destruct (U (select regina) eq_refl) as (_ & S & L & _).
  split; assumption.
Defined.

Example two_candidates_evaluated :
  handle_update_location meetings june_10_2025 7 (Some (text "ноября"))
                         (Some (text "Уфа, Королева 30"))
  = (Ambiguous [select regina; select leysan], meetings)
  /\ handle_update_location meetings june_10_2025 7 (Some (text "8 ноября"))
                            (Some (text "Уфа, Королева 30"))
     = (LocationUpdated (text "Уфа, Королева 30"),
        [mkmeeting 1 7 (summary regina) (start_time regina) 30
                   (Some (text "Уфа, Королева 30"));
         leysan])
  /\ handle_update_location meetings june_10_2025 7 (Some (text "декабря"))
                            (Some (text "Уфа, Королева 30"))
     = (NotFound (text "декабря"), meetings).
Proof. split_all; by_evaluation. Qed.

(** C4 on the same table: both titles have "ноября" in them, and the lookup
    settles on a single meeting that none of the matching ones starts
    after; the route is answered from that meeting. *)
Lemma C4_latest_of_two :
  (In regina meetings /\ user_id regina = 7
   /\ matches_query (text "ноября") regina = true)
  /\ exists r,
       In r meetings /\ user_id r = 7 /\ matches_query (text "ноября") r = true
       /\ (forall r', In r' meetings -> user_id r' = 7 ->
                      matches_query (text "ноября") r' = true ->
                      str_leb (start_time r') (start_time r) = true)
       /\ (forall t,
             fromisoformat (start_time r) = Some t ->
             find_meeting_by_query meetings 7 (text "ноября")
             = Ok (Some (mkevent (summary r)
                                 (location_or_missing (location r)) t))
             /\ route_lookup meetings june_10_2025 7 (text "ноября")
                = Ok (Some (mkevent (summary r)
                                    (location_or_missing (location r)) t))
             /\ (text "ноября" <> [] -> forall summ,
                   handle_route meetings june_10_2025 7 (Some (text "ноября")) summ
                   = (RouteTo (mkevent (summary r)
                                       (location_or_missing (location r)) t),
                      meetings)))
       /\ (fromisoformat (start_time r) = None ->
             find_meeting_by_query meetings 7 (text "ноября") = Raise ValueError
             /\ route_lookup meetings june_10_2025 7 (text "ноября")
                = Raise ValueError
             /\ (text "ноября" <> [] -> forall summ,
                   handle_route meetings june_10_2025 7 (Some (text "ноября")) summ
                   = (Apology, meetings))).
Proof.
  assert (I : In regina meetings) by now left.
  assert (U : user_id regina = 7) by reflexivity.
  assert (M : matches_query (text "ноября") regina = true) by by_evaluation.
  split; [split_all; assumption|].
  exact (proj1 (proj2 (C4_routing_lookup meetings june_10_2025 7 (text "ноября")))
               regina I U M).
Defined.

Example route_evaluated :
  find_meeting_by_query meetings 7 (text "ноября")
  = Ok (Some (mkevent (summary leysan) (text "Уфа, Ленина 5")
                      (mkdt 2025 11 10 15 0 0)))
  /\ handle_route meetings june_10_2025 7 (Some (text "ноября")) None
     = (RouteTo (mkevent (summary leysan) (text "Уфа, Ленина 5")
                         (mkdt 2025 11 10 15 0 0)), meetings)
  /\ route_lookup meetings june_10_2025 7 (text "ноября")
     = Ok (Some (mkevent (summary leysan) (text "Уфа, Ленина 5")
                         (mkdt 2025 11 10 15 0 0)))
  /\ route_lookup meetings june_10_2025 7 (text "8 ноября")
     = Ok (Some (mkevent (summary regina) ADDRESS_MISSING
                         (mkdt 2025 11 8 20 0 0))).
Proof. split_all; by_evaluation. Qed.

(** When the latest matching meeting has a start time that cannot be read,
    the route request is answered with the apology. *)
Example route_to_an_unreadable_start :
  handle_route (meetings ++ [mkmeeting 3 7 (text "Обед 9 ноября")
                                       (text "завтра в 5") 30 None])
               june_10_2025 7 (Some (text "ноября")) None
  = (Apology, meetings ++ [mkmeeting 3 7 (text "Обед 9 ноября")
                                     (text "завтра в 5") 30 None]).
Proof. by_evaluation. Qed.


(** C6 on "31.04": April has 30 days. *)
Lemma C6_april_31 :
  (text "31.04" <> []
   /\ contains kw_tomorrow (str_lower (text "31.04")) = false
   /\ contains kw_today (str_lower (text "31.04")) = false
   /\ re_search date_re (str_lower (text "31.04")) = None
   /\ re_search num_date_re (str_lower (text "31.04"))
      = Some (mkmatch [] (text "31.04") [] [(2%nat, text "04"); (1%nat, text "31")])
   /\ (forall d m,
         int_group (mkmatch [] (text "31.04") []
                            [(2%nat, text "04"); (1%nat, text "31")]) 1 = Ok d ->
         int_group (mkmatch [] (text "31.04") []
                            [(2%nat, text "04"); (1%nat, text "31")]) 2 = Ok m ->
         valid_ymd (infer_year june_10_2025 m) m d = false))
  /\ (resolve_date june_10_2025 (str_lower (text "31.04")) = Ok None
      /\ smart_filter june_10_2025 (Some (text "31.04")) None None
         = Ok (mkargs None None (Some (text "31.04")))
      /\ smart_get_meetings meetings june_10_2025 7 (Some (text "31.04")) None None
         = Ok (get_meetings meetings 7 None None (Some (text "31.04")))).
Proof.
  assert (Bad : forall d m,
             int_group (mkmatch [] (text "31.04") []
                                [(2%nat, text "04"); (1%nat, text "31")]) 1 = Ok d ->
             int_group (mkmatch [] (text "31.04") []
                                [(2%nat, text "04"); (1%nat, text "31")]) 2 = Ok m ->
             valid_ymd (infer_year june_10_2025 m) m d = false).
  { intros d m Hd Hm. vm_compute in Hd, Hm.
    injection Hd as <-. injection Hm as <-. reflexivity. }
  split; [split_all; first [exact Bad | by_evaluation]|].
  apply (C6_invalid_numeric_date_is_no_date meetings june_10_2025 7 (text "31.04")
           None None
           (mkmatch [] (text "31.04") [] [(2%nat, text "04"); (1%nat, text "31")]));
    first [exact Bad | by_evaluation].
Defined.

(** C7 on "Встреча 8 ноября", called with a lower bound of the caller's
    own: the bounds handed on are those of 8 November, the filter is
    "встреча". *)
Lemma C7_bounds_replaced :
  (text "Встреча 8 ноября" <> []
   /\ valid_datetime june_10_2025 = true
   /\ (forall s r, incl r (str_lower s) -> str_lower r = r)
   /\ smart_filter june_10_2025 (Some (text "Встреча 8 ноября"))
                   (Some (text "2025-06-10T09:30:00")) None
      = Ok (mkargs (Some (text "2025-11-08T00:00:00"))
                   (Some (text "2025-11-09T00:00:00"))
                   (Some (text "встреча"))))
  /\ ((exists t t',
         resolve_date june_10_2025 (str_lower (text "Встреча 8 ноября"))
         = Ok (Some t)
         /\ add_days t 1 = Ok t'
         /\ timestamp (midnight t') - timestamp (midnight t) = 24 * 3600
         /\ mkargs (Some (text "2025-11-08T00:00:00"))
                   (Some (text "2025-11-09T00:00:00"))
                   (Some (text "встреча"))
            = mkargs (Some (strftime_midnight t)) (Some (strftime_midnight t'))
                     (residual (str_lower (text "Встреча 8 ноября")))
         /\ arg_query (mkargs (Some (text "2025-11-08T00:00:00"))
                              (Some (text "2025-11-09T00:00:00"))
                              (Some (text "встреча")))
            <> Some (text "Встреча 8 ноября"))
      \/ (resolve_date june_10_2025 (str_lower (text "Встреча 8 ноября")) = Ok None
          /\ mkargs (Some (text "2025-11-08T00:00:00"))
                    (Some (text "2025-11-09T00:00:00"))
                    (Some (text "встреча"))
             = mkargs (Some (text "2025-06-10T09:30:00")) None
                      (Some (text "Встреча 8 ноября")))).
Proof.
  split; [split_all; first [exact ru_lower_stable | by_evaluation]|].
  apply (C7_resolved_interval_replaces_bounds
           june_10_2025 (text "Встреча 8 ноября")
           (Some (text "2025-06-10T09:30:00")) None);
    first [exact ru_lower_stable | by_evaluation].
Defined.

(** C8, the claim as stated fails: in "3 марта сегодня" the date that is
    recognised is today, from "сегодня", and the substring that is removed
    is "3 марта"; removing the substring of the recognised date would leave
    "3 марта". *)
Lemma C8_removed_is_not_the_recognised_phrase :
  resolve_date june_10_2025 (str_lower (text "3 марта сегодня"))
  = Ok (Some june_10_2025)
  /\ spec_date_phrase (str_lower (text "3 марта сегодня")) = Some kw_today
  /\ spec_residual (str_lower (text "3 марта сегодня")) = Some (text "3 марта")
  /\ residual (str_lower (text "3 марта сегодня")) = Some (text "сегодня")
  /\ residual (str_lower (text "3 марта сегодня"))
     <> spec_residual (str_lower (text "3 марта сегодня")).
Proof. split_all; by_evaluation. Qed.

(** C8 as amended, on a phrase in which the date substring occurs twice: it
    is removed once. *)
Lemma C8_removed_once :
  (text "8 ноября встреча 8 ноября" <> []
   /\ resolve_date june_10_2025 (str_lower (text "8 ноября встреча 8 ноября"))
      = Ok (Some (mkdt 2025 11 8 0 0 0)))
  /\ exists before removed after,
       str_lower (text "8 ноября встреча 8 ноября") = before ++ removed ++ after
       /\ matches strip_re removed
       /\ removed <> []
       /\ (forall a m b,
             str_lower (text "8 ноября встреча 8 ноября") = a ++ m ++ b ->
             matches strip_re m -> (length before <= length a)%nat)
       /\ before ++ after
          = remove_first removed (str_lower (text "8 ноября встреча 8 ноября"))
       /\ (forall r,
             residual (str_lower (text "8 ноября встреча 8 ноября")) = Some r <->
             r <> []
             /\ (exists x y, before ++ after = x ++ r ++ y
                             /\ forallb isspace x = true
                             /\ forallb isspace y = true)
             /\ (forall c rest, r = c :: rest -> isspace c = false)
             /\ (forall c rest, rev r = c :: rest -> isspace c = false))
       /\ (residual (str_lower (text "8 ноября встреча 8 ноября")) = None <->
           forallb isspace (before ++ after) = true)
       /\ (forall a,
             smart_filter june_10_2025 (Some (text "8 ноября встреча 8 ноября"))
                          None None = Ok a ->
             arg_query a = residual (str_lower (text "8 ноября встреча 8 ноября"))
             /\ (residual (str_lower (text "8 ноября встреча 8 ноября")) = None ->
                 forall r, where_query (arg_query a) r = true)).
Proof.
  assert (Q : text "8 ноября встреча 8 ноября" <> []) by by_evaluation.
  assert (R : resolve_date june_10_2025
                           (str_lower (text "8 ноября встреча 8 ноября"))
              = Ok (Some (mkdt 2025 11 8 0 0 0))) by by_evaluation.
  split; [split; assumption|].
  exact (C8_residual_text june_10_2025 (text "8 ноября встреча 8 ноября")
                          None None (mkdt 2025 11 8 0 0 0) Q R).
Defined.

Example removed_once_evaluated :
  residual (str_lower (text "8 ноября встреча 8 ноября"))
  = Some (text "встреча 8 ноября")
  /\ residual (str_lower (text " 8 Ноября ")) = None.
Proof. split; by_evaluation. Qed.



(** [LIKE] reads a title up to its first U+0000: in the title "a", U+0000,
    "b" it finds "a" and does not find "b". *)
Example like_stops_at_nul :
  matches_query [98] (mkmeeting 1 7 [97; 0; 98] (text "2025-06-11T10:00:00")
                                30 None) = false
  /\ matches_query [97] (mkmeeting 1 7 [97; 0; 98] (text "2025-06-11T10:00:00")
                                   30 None) = true.
Proof. split; by_evaluation. Qed.

(** ** The further properties on the example tables *)

(** X1 with owner 8 writing under the key of a meeting of owner 7. *)
Lemma other_owner_writes_under_the_same_key :
  8 <> 7
  /\ get_meetings (update_meeting_location meetings 8 (summary regina)
                                           (start_time regina) (text "Zoom"))
                  7 None None None
     = get_meetings meetings 7 None None None
  /\ (forall db',
        create_meeting meetings 8 (summary regina) (start_time regina) 30 None
        = Ok db' ->
        find_meeting_by_query db' 7 (text "Регина")
        = find_meeting_by_query meetings 7 (text "Регина")).
Proof.
  assert (N : 8 <> 7) by lia.
  destruct (writes_leave_other_owners_alone
              meetings 8 7 (summary regina) (start_time regina) (text "Zoom")
              30 None None None None (text "Регина") N)
    as [[A _] [_ [_ B]]].
  split_all; [exact N | exact A | exact B].
Defined.

(** X3 with a window of two days around 10 November. *)
Lemma window_around_november_10 :
  text "2025-11-09T00:00:00" <> []
  /\ text "2025-11-11T00:00:00" <> []
  /\ get_meetings meetings 7 (Some (text "2025-11-09T00:00:00"))
                  (Some (text "2025-11-11T00:00:00")) None
     = [select leysan]
  /\ StronglySorted
       (fun a b => str_leb (fetched_start a) (fetched_start b) = true)
       (get_meetings meetings 7 (Some (text "2025-11-09T00:00:00"))
                     (Some (text "2025-11-11T00:00:00")) None).
Proof.
  assert (L : text "2025-11-09T00:00:00" <> []) by by_evaluation.
  assert (H : text "2025-11-11T00:00:00" <> []) by by_evaluation.
  split_all; [exact L | exact H | by_evaluation |].
  exact (proj2 (proj2 (get_meetings_returns_the_window
                         meetings 7 (text "2025-11-09T00:00:00")
                         (text "2025-11-11T00:00:00") L H))).
Defined.

(** X4 for an owner who has no meeting yet. *)
Lemma first_meeting_of_owner_9 :
  fits_int64 45 = true
  /\ exists db',
       create_meeting meetings 9 (text "Обед") (text "2025-06-11T13:00:00") 45 None
       = Ok db'
       /\ In (text "Обед", text "2025-06-11T13:00:00", 45, None)
             (get_meetings db' 9 None None (Some (text "Обед")))
       /\ ((forall r, In r meetings -> user_id r <> 9) ->
           get_meetings db' 9 None None (Some (text "Обед"))
           = [(text "Обед", text "2025-06-11T13:00:00", 45, None)]
           /\ find_meeting_by_query db' 9 (text "Обед")
              = (e <- make_event (text "Обед") None (text "2025-06-11T13:00:00") ;;
                 Ok (Some e))).
Proof.
  assert (F : fits_int64 45 = true) by by_evaluation.
  split; [exact F|].
  exact (created_meeting_is_found
           meetings 9 (text "Обед") (text "2025-06-11T13:00:00") 45 None F).
Defined.

Example first_meeting_of_owner_9_evaluated :
  (forall r, In r meetings -> user_id r <> 9)
  /\ create_meeting meetings 9 (text "Обед") (text "2025-06-11T13:00:00") 45 None
     = Ok (meetings ++ [mkmeeting 3 9 (text "Обед") (text "2025-06-11T13:00:00")
                                  45 None])
  /\ create_meeting meetings 9 (text "Обед") (text "2025-06-11T13:00:00")
                    (2 ^ 63) None
     = Raise OverflowError.
Proof.
  split; [intros r [<-|[<-|[]]]; by_evaluation|]. split; by_evaluation.
Qed.

(** X5 on the meeting with Leysan, moved to "Zoom". *)
Lemma leysan_found_under_zoom :
  In leysan meetings /\ user_id leysan = 7
  /\ In (select (with_location leysan (text "Zoom")))
        (get_meetings
           (update_meeting_location meetings 7 (summary leysan)
                                    (start_time leysan) (text "Zoom"))
           7 None None (Some (text "Zoom"))).
Proof.
  assert (I : In leysan meetings) by (right; left; reflexivity).
  assert (U : user_id leysan = 7) by reflexivity.
  split_all; [exact I | exact U |].
  exact (proj1 (updated_meeting_is_found meetings 7 leysan (text "Zoom") I U)).
Defined.

(** X6 on the two stand-ups: "Zoom" selects the second one only, and the
    statement changes the first one as well. *)
Lemma update_of_one_twin_reaches_the_other :
  text "Zoom" <> [] /\ text "Skype" <> []
  /\ smart_get_meetings RuMore.twins june_10_2025 7 (Some (text "Zoom")) None None
     = Ok [select RuMore.standup_zoom]
  /\ In RuMore.standup_office RuMore.twins
  /\ In (with_location RuMore.standup_office (text "Skype"))
        (snd (handle_update_location RuMore.twins june_10_2025 7
                                     (Some (text "Zoom")) (Some (text "Skype")))).
Proof.
  assert (Q : text "Zoom" <> []) by by_evaluation.
  assert (N : text "Skype" <> []) by by_evaluation.
  assert (S : smart_get_meetings RuMore.twins june_10_2025 7
                                 (Some (text "Zoom")) None None
              = Ok [select RuMore.standup_zoom]) by by_evaluation.
  assert (I : In RuMore.standup_office RuMore.twins) by (left; reflexivity).
  assert (K : user_id RuMore.standup_office = 7
              /\ summary RuMore.standup_office
                 = fetched_summary (select RuMore.standup_zoom)
              /\ start_time RuMore.standup_office
                 = fetched_start (select RuMore.standup_zoom))
    by (split_all; by_evaluation).
  split_all; [exact Q | exact N | exact S | exact I |].
  exact (proj1 (proj1 (update_reaches_every_row_with_the_key
                         RuMore.twins june_10_2025 7 (text "Zoom") (text "Skype")
                         (select RuMore.standup_zoom) Q N S
                         RuMore.standup_office I) K)).
Defined.

(** X7 on the query "%". *)
Lemma percent_query_filters_nothing :
  forallb (fun c => c =? PERCENT) (text "%") = true
  /\ get_meetings meetings 7 None None (Some (text "%"))
     = get_meetings meetings 7 None None None.
Proof.
  assert (P : forallb (fun c => c =? PERCENT) (text "%") = true) by by_evaluation.
  split; [exact P|].
  exact (proj1 (like_wildcards_are_live (text "%")) P meetings 7 None None).
Defined.

(** X8 on "8 ноября". *)
Lemma november_8_is_readable :
  re_search date_re (text "8 ноября")
  = Some (mkmatch [] (text "8 ноября") [] [(2%nat, text "ноября"); (1%nat, text "8")])
  /\ exists d k m,
       int_group (mkmatch [] (text "8 ноября") []
                          [(2%nat, text "ноября"); (1%nat, text "8")]) 1 = Ok d
       /\ group (mkmatch [] (text "8 ноября") []
                         [(2%nat, text "ноября"); (1%nat, text "8")]) 2 = Some k
       /\ 1 <= m <= 12
       /\ forall default, dict_get RU_MONTHS k default = m.
Proof.
  assert (S : re_search date_re (text "8 ноября")
              = Some (mkmatch [] (text "8 ноября") []
                              [(2%nat, text "ноября"); (1%nat, text "8")]))
    by by_evaluation.
  split; [exact S|].
  exact (named_month_match_is_readable (text "8 ноября") _ S).
Defined.


(** X10 on "3 июня" with the clock at 10 June: the day has passed and is
    still taken in the current year. *)
Lemma june_3_on_june_10_stays_in_2025 :
  valid_datetime june_10_2025 = true
  /\ contains kw_tomorrow (text "3 июня") = false
  /\ contains kw_today (text "3 июня") = false
  /\ resolve_date june_10_2025 (text "3 июня") = Ok (Some (mkdt 2025 6 3 0 0 0))
  /\ 0 <= (2025 - year june_10_2025) * 12 + (6 - month june_10_2025) <= 11.
Proof.
  assert (V : valid_datetime june_10_2025 = true) by by_evaluation.
  assert (C1 : contains kw_tomorrow (text "3 июня") = false) by by_evaluation.
  assert (C2 : contains kw_today (text "3 июня") = false) by by_evaluation.
  assert (R : resolve_date june_10_2025 (text "3 июня")
              = Ok (Some (mkdt 2025 6 3 0 0 0))) by by_evaluation.
  split_all; try assumption;
    apply (resolved_month_is_within_a_year
             june_10_2025 (text "3 июня") (mkdt 2025 6 3 0 0 0) V C1 C2 R).
Defined.

(** X11 on "планёрка завтра". *)
Lemma residual_of_standup_tomorrow :
  residual (text "планёрка завтра") = Some (text "планёрка")
  /\ text "планёрка" <> []
  /\ (forall c rest, text "планёрка" = c :: rest -> isspace c = false)
  /\ (forall c rest, rev (text "планёрка") = c :: rest -> isspace c = false).
Proof.
  assert (R : residual (text "планёрка завтра") = Some (text "планёрка"))
    by by_evaluation.
  split; [exact R|].
  exact (residual_is_trimmed (text "планёрка завтра") (text "планёрка") R).
Defined.

(** X12 on the stand-up of 11 June against the interval of 11 June. *)
Lemma standup_is_in_its_day :
  valid_ymd 2025 6 11 = true
  /\ add_days (mkdt 2025 6 11 9 30 0) 1 = Ok (mkdt 2025 6 12 9 30 0)
  /\ start_time RuMore.standup_office = strftime_full (mkdt 2025 6 11 10 0 0) ++ []
  /\ where_time_min (Some (strftime_midnight (mkdt 2025 6 11 9 30 0)))
                    RuMore.standup_office = true
  /\ where_time_max (Some (strftime_midnight (mkdt 2025 6 12 9 30 0)))
                    RuMore.standup_office = true.
Proof.
  assert (V : valid_ymd 2025 6 11 = true) by by_evaluation.
  assert (A : add_days (mkdt 2025 6 11 9 30 0) 1 = Ok (mkdt 2025 6 12 9 30 0))
    by by_evaluation.
  assert (S : start_time RuMore.standup_office
              = strftime_full (mkdt 2025 6 11 10 0 0) ++ []) by by_evaluation.
  destruct (day_filter_selects_its_day
              (mkdt 2025 6 11 9 30 0) (mkdt 2025 6 12 9 30 0)
              (mkdt 2025 6 11 10 0 0) [] RuMore.standup_office
              V A eq_refl eq_refl eq_refl S) as (Lo & Hi & _).
  split_all; [exact V | exact A | exact S | exact Lo | exact Hi].
Defined.

(** X13 on a start time written with a space, "2025-06-11 10:00". *)
Lemma start_with_a_space_is_left_out :
  (start_time (mkmeeting 5 7 (text "Обед") (text "2025-06-11 10:00") 30 None)
   = iso_date (mkdt 2025 6 11 0 0 0)
   \/ start_time (mkmeeting 5 7 (text "Обед") (text "2025-06-11 10:00") 30 None)
      = iso_date (mkdt 2025 6 11 0 0 0) ++ text " " ++ text "10:00")
  /\ where_time_min (Some (strftime_midnight (mkdt 2025 6 11 0 0 0)))
                    (mkmeeting 5 7 (text "Обед") (text "2025-06-11 10:00") 30 None)
     = false.
Proof.
  assert (S : start_time (mkmeeting 5 7 (text "Обед") (text "2025-06-11 10:00")
                                    30 None)
              = iso_date (mkdt 2025 6 11 0 0 0)
              \/ start_time (mkmeeting 5 7 (text "Обед") (text "2025-06-11 10:00")
                                       30 None)
                 = iso_date (mkdt 2025 6 11 0 0 0) ++ text " " ++ text "10:00")
    by (right; by_evaluation).
  split; [exact S|].
  exact (day_filter_misses_other_layouts
           (mkdt 2025 6 11 0 0 0) (text "10:00") _ S).
Defined.

(** X14 on "Кофе", which is in no title and names no date. *)
Lemma coffee_is_not_found :
  text "Кофе" <> []
  /\ find_meeting_by_query meetings 7 (text "Кофе") = Ok None
  /\ resolve_date june_10_2025 (str_lower (text "Кофе")) = Ok None
  /\ handle_route meetings june_10_2025 7 (Some (text "Кофе")) None
     = (NotFound (text "Кофе"), meetings)
  /\ handle_where meetings june_10_2025 7 (Some (text "Кофе"))
     = (NotFound (text "Кофе"), meetings).
Proof.
  assert (N : text "Кофе" <> []) by by_evaluation.
  assert (F : find_meeting_by_query meetings 7 (text "Кофе") = Ok None)
    by by_evaluation.
  assert (R : resolve_date june_10_2025 (str_lower (text "Кофе")) = Ok None)
    by by_evaluation.
  destruct (fallback_needs_a_date meetings june_10_2025 7 (text "Кофе") None
                                  N F R) as (_ & _ & A & B).
  split_all; [exact N | exact F | exact R | exact A | exact B].
Defined.

(** X15 on the two stand-ups and the phrase "завтра". *)
Lemma tomorrow_with_two_standups :
  text "завтра" <> []
  /\ find_meeting_by_query RuMore.twins 7 (text "завтра") = Ok None
  /\ smart_get_meetings RuMore.twins june_10_2025 7 (Some (text "завтра")) None None
     = Ok [select RuMore.standup_office; select RuMore.standup_zoom]
  /\ handle_where RuMore.twins june_10_2025 7 (Some (text "завтра"))
     = (Ambiguous [select RuMore.standup_office; select RuMore.standup_zoom],
        RuMore.twins)
  /\ exists e,
       handle_route RuMore.twins june_10_2025 7 (Some (text "завтра")) None
       = (RouteTo e, RuMore.twins)
       /\ option_map fetched_summary
                     (hd_error [select RuMore.standup_office;
                                select RuMore.standup_zoom])
          = Some (ev_summary e).
Proof.
  assert (N : text "завтра" <> []) by by_evaluation.
  assert (F : find_meeting_by_query RuMore.twins 7 (text "завтра") = Ok None)
    by by_evaluation.
  assert (S : smart_get_meetings RuMore.twins june_10_2025 7
                                 (Some (text "завтра")) None None
              = Ok [select RuMore.standup_office; select RuMore.standup_zoom])
    by by_evaluation.
  assert (P : forall f,
             In f [select RuMore.standup_office; select RuMore.standup_zoom] ->
             fromisoformat (fetched_start f) <> None).
  { intros f [<-|[<-|[]]]; by_evaluation. }
  assert (L : (2 <= length [select RuMore.standup_office;
                            select RuMore.standup_zoom])%nat) by (simpl; lia).
  destruct (proj1 (where_and_route_part_on_many
                     RuMore.twins june_10_2025 7 (text "завтра") None N)
                  _ F S L P) as [A B].
  split_all; [exact N | exact F | exact S | exact A | exact B].
Defined.


Example create_with_a_duration_beyond_64_bits :
  handle_create meetings 7 None (Some (text "2025-06-11T10:00:00"))
                (Some (2 ^ 63)) None
  = (Said Apology, meetings)
  /\ handle_create meetings 7 None (Some (text "2025-06-11T10:00:00"))
                   (Some (2 ^ 63 - 1)) None
     = (Created DEFAULT_SUMMARY (mkdt 2025 6 11 10 0 0) None,
        meetings ++ [mkmeeting 3 7 DEFAULT_SUMMARY (text "2025-06-11T10:00:00")
                               (2 ^ 63 - 1) None]).
Proof. split; by_evaluation. Qed.


(** X17 on a table with one meeting whose start time is "завтра в 5". *)
Lemma listing_with_an_unreadable_row :
  list_window june_10_2025 None = Ok (Some (strftime_full june_10_2025), None, SOON)
  /\ smart_get_meetings
       [mkmeeting 1 7 (text "Обед") (text "завтра в 5") 30 None] june_10_2025 7
       None (Some (strftime_full june_10_2025)) None
     = Ok [(text "Обед", text "завтра в 5", 30, None)]
  /\ fromisoformat (text "завтра в 5") = None
  /\ handle_list [mkmeeting 1 7 (text "Обед") (text "завтра в 5") 30 None]
                 june_10_2025 june_10_2025 7 None None
     = (Said Apology, [mkmeeting 1 7 (text "Обед") (text "завтра в 5") 30 None]).
Proof.
  assert (W : list_window june_10_2025 None
              = Ok (Some (strftime_full june_10_2025), None, SOON))
    by reflexivity.
  assert (S : smart_get_meetings
                [mkmeeting 1 7 (text "Обед") (text "завтра в 5") 30 None]
                june_10_2025 7 None (Some (strftime_full june_10_2025)) None
              = Ok [(text "Обед", text "завтра в 5", 30, None)]) by by_evaluation.
  assert (U : fromisoformat (text "завтра в 5") = None) by by_evaluation.
  split_all; [exact W | exact S | exact U |].
  exact (unreadable_start_fails_the_listing
           [mkmeeting 1 7 (text "Обед") (text "завтра в 5") 30 None]
           june_10_2025 june_10_2025 7 None None
           (Some (strftime_full june_10_2025), None, SOON)
           [(text "Обед", text "завтра в 5", 30, None)]
           (text "Обед", text "завтра в 5", 30, None)
           W S (or_introl eq_refl) U).
Defined.

(** X19 on a list request. *)
Lemma list_request_leaves_the_table :
  is_action (Some (text "list")) (text "create") = false
  /\ is_action (Some (text "list")) (text "update_location") = false
  /\ is_action (Some (text "list")) (text "update_summary") = false
  /\ snd (handle_action meetings june_10_2025 june_10_2025 7
                        (mkintent (Some (text "list")) None None None None None
                                  None None))
     = meetings.
Proof.
  assert (A : is_action (Some (text "list")) (text "create") = false)
    by by_evaluation.
  assert (B : is_action (Some (text "list")) (text "update_location") = false)
    by by_evaluation.
  assert (C : is_action (Some (text "list")) (text "update_summary") = false)
    by by_evaluation.
  split_all; [exact A | exact B | exact C |].
  exact (proj2 (requests_keep_the_rows
                  meetings june_10_2025 june_10_2025 7
                  (mkintent (Some (text "list")) None None None None None
                            None None)) A B C).
Defined.

(** X20 on December 2025, which runs into January 2026. *)
Lemma december_2025_bounds :
  1 <= 2025 <= 9999 /\ 1 <= 12 <= 12
  /\ exists next,
       month_bounds 2025 12 = Ok (mkdt 2025 12 1 0 0 0, next)
       /\ day next = 1 /\ hour next = 0 /\ minute next = 0 /\ second next = 0
       /\ toordinal next - toordinal (mkdt 2025 12 1 0 0 0)
          = days_in_month 2025 12.
Proof.
  assert (Y : 1 <= 2025 <= 9999) by lia.
  assert (M : 1 <= 12 <= 12) by lia.
  split_all; [lia | lia | lia | lia |].
  apply (proj2 (month_bounds_span_the_month 2025 12 Y M)). lia.
Defined.

(** X21 on the filter "Марта" in June 2025: the window is March 2026. *)
Lemma march_listing_in_june :
  valid_datetime june_10_2025 = true
  /\ list_window june_10_2025 (Some (text "Марта"))
     = Ok (Some (text "2026-03-01T00:00:00"), Some (text "2026-04-01T00:00:00"),
           text "в Марта")
  /\ ((Some (text "2026-03-01T00:00:00"), Some (text "2026-04-01T00:00:00"),
       text "в Марта")
      = (Some (strftime_full june_10_2025), None, SOON)
      \/ exists y m next,
           0 <= (y - year june_10_2025) * 12 + (m - month june_10_2025) <= 11
           /\ 1 <= m <= 12
           /\ fst (Some (text "2026-03-01T00:00:00"),
                   Some (text "2026-04-01T00:00:00"), text "в Марта")
              = (Some (strftime_full (mkdt y m 1 0 0 0)),
                 Some (strftime_full next))
           /\ day next = 1 /\ hour next = 0 /\ minute next = 0 /\ second next = 0
           /\ toordinal next - toordinal (mkdt y m 1 0 0 0) = days_in_month y m).
Proof.
  assert (V : valid_datetime june_10_2025 = true) by by_evaluation.
  assert (W : list_window june_10_2025 (Some (text "Марта"))
              = Ok (Some (text "2026-03-01T00:00:00"),
                    Some (text "2026-04-01T00:00:00"), text "в Марта"))
    by by_evaluation.
  split_all; [exact V | exact W |].
  exact (proj1 (listing_window_is_open_or_a_month
                  june_10_2025 (Some (text "Марта")) V) _ W).
Defined.

(** X22 on the route to the meeting with Leysan. *)
Lemma route_to_leysan_is_her_meeting :
  route_lookup meetings june_10_2025 7 (text "Лейсан")
  = Ok (Some RuMore.leysan_event)
  /\ ev_location RuMore.leysan_event <> []
  /\ exists r, In r meetings /\ user_id r = 7
               /\ summary r = ev_summary RuMore.leysan_event
               /\ fromisoformat (start_time r)
                  = Some (ev_start RuMore.leysan_event)
               /\ ev_location RuMore.leysan_event
                  = location_or_missing (location r).
Proof.
  assert (R : route_lookup meetings june_10_2025 7 (text "Лейсан")
              = Ok (Some RuMore.leysan_event)) by by_evaluation.
  split; [exact R|].
  exact (route_lookup_returns_an_own_meeting
           meetings june_10_2025 7 (text "Лейсан") RuMore.leysan_event R).
Defined.
